(** * Comment threads, likes and notifications of the blog backend

    A shallow embedding of the comment/like handlers of [server.js]
    ([/like-blog], [/add-comment], [deleteComments], [/delete-comment])
    over an explicit model of the three MongoDB collections they touch.

    Modelling conventions.
    - An [ObjectId] is a [positive].  A request field that carries an id
      ([replying_to]) is an [option ObjectId]: [None] stands for every
      falsy value (absent, [null], the empty string), [Some i] for an id,
      which is always truthy.
    - The [comments] and [blogs] collections are finite maps keyed by
      [_id]; the [notifications] collection is a list in insertion order,
      because the handlers query it by other fields and [findOne...]
      acts on the first matching document only.
    - A handler is a function from the database to the database and the
      response.  Store calls take effect in the order in which the
      handler issues them, one request at a time; a callback that throws
      where nothing catches it sends no response ([NoResponse]).
    - Counters are [Z]: nothing in the handlers keeps them non-negative.

    Further down the same is done for [/isliked-by-user], [verifyJWT],
    [/create-blog] with the [blog_id] it makes, the two counts
    [/all-latest-blogs-count] and [/search-blogs-count], the guards of
    [/signup] with [emailRegex] and [passwordRegex], and
    [generateUsername].  There a string is the list of its code units,
    and what comes from outside ([jwt.verify], [nanoid()],
    [toLowerCase], the match of a title in the database) is an argument
    of the function that uses it.  Failures of the store are not
    modelled. *)

From Stdlib Require Import ZArith.
From stdpp Require Import gmap list strings.

Local Open Scope Z_scope.

Abbreviation ObjectId := positive (only parsing).

(** ** Documents *)

Module Comment.
(** Modelled from the spec: the schema [Schema/Comment.js] is not among
    the sources.  A document of the [comments] collection has the fields
    of the spec's Comment, under the names by which [server.js] reads
    and writes them.  [isReply] is [None] when the handler did not set
    it (the stored value is then whatever the schema defaults to);
    [children] starts empty. *)
Record doc := {
  blog_id : ObjectId;
  blog_author : ObjectId;
  comment : string;
  commented_by : ObjectId;
  parent : option ObjectId;
  isReply : option bool;
  children : list ObjectId;
  commentedAt : Z
}.

Definition set_children (f : list ObjectId → list ObjectId) (c : doc) : doc :=
  {| blog_id := blog_id c; blog_author := blog_author c;
     comment := comment c; commented_by := commented_by c;
     parent := parent c; isReply := isReply c;
     children := f (children c); commentedAt := commentedAt c |}.
End Comment.

Module Notification.
(** Modelled from the spec: the schema [Schema/Notification.js] is not
    among the sources.  The fields are those of the spec's Notification
    together with [reply], the reference that [deleteComments] unsets. *)
Record doc := {
  type : string;
  blog : ObjectId;
  notification_for : ObjectId;
  user : ObjectId;
  comment : option ObjectId;
  reply : option ObjectId;
  replied_on_comment : option ObjectId
}.

(** [{ $unset: { reply: 1 } }] *)
Definition unset_reply (n : doc) : doc :=
  {| type := type n; blog := blog n;
     notification_for := notification_for n; user := user n;
     comment := comment n; reply := None;
     replied_on_comment := replied_on_comment n |}.
End Notification.

Module Blog.
(** Modelled from the spec: the schema [Schema/Blog.js] is not among the
    sources.  Of a blog only the author, the list of comment ids and the
    counters under [activity] matter here. *)
Record activity_t := {
  total_likes : Z;
  total_comments : Z;
  total_reads : Z;
  total_parent_comments : Z
}.

Record doc := {
  author : ObjectId;
  comments : list ObjectId;
  activity : activity_t
}.
End Blog.

(** ** The database *)

Record DB := {
  Comments : gmap positive Comment.doc;
  Notifications : list Notification.doc;
  Blogs : gmap positive Blog.doc
}.

Definition with_Comments (f : gmap positive Comment.doc → gmap positive Comment.doc)
    (db : DB) : DB :=
  {| Comments := f (Comments db); Notifications := Notifications db;
     Blogs := Blogs db |}.

Definition with_Notifications (f : list Notification.doc → list Notification.doc)
    (db : DB) : DB :=
  {| Comments := Comments db; Notifications := f (Notifications db);
     Blogs := Blogs db |}.

Definition with_Blogs (f : gmap positive Blog.doc → gmap positive Blog.doc)
    (db : DB) : DB :=
  {| Comments := Comments db; Notifications := Notifications db;
     Blogs := f (Blogs db) |}.

(** ** Store primitives *)

Section first_match.
Context {A : Type} (p : A → bool).

(** [findOneAndDelete]: the first matching document goes. *)
Fixpoint findOneAndDelete (l : list A) : list A :=
  match l with
  | [] => []
  | x :: l' => if p x then l' else x :: findOneAndDelete l'
  end.

(** [findOneAndUpdate]: the first matching document is updated. *)
Fixpoint findOneAndUpdate (f : A → A) (l : list A) : list A :=
  match l with
  | [] => []
  | x :: l' => if p x then f x :: l' else x :: findOneAndUpdate f l'
  end.
End first_match.

(** Equality of an optional reference with an id, as in the filters
    [{ comment: _id }] and [{ reply: _id }]. *)
Definition refers_to (r : option ObjectId) (i : ObjectId) : bool :=
  match r with
  | Some j => Pos.eqb j i
  | None => false
  end.

(** [{ $pull: { field: _id } }] removes every occurrence. *)
Definition pull (i : ObjectId) (l : list ObjectId) : list ObjectId :=
  filter (λ j, j ≠ i) l.

(** [{ $push: { field: _id } }] *)
Definition push (i : ObjectId) (l : list ObjectId) : list ObjectId :=
  l ++ [i].

(** ** Responses *)

Inductive Body :=
| Error (error : string)
| Liked_by_user (liked_by_user : bool)
| Created (comment : string) (commentedAt : Z) (_id user_id : ObjectId)
          (children : list ObjectId)
| Status (status : string).

Inductive Response :=
| Json (status : Z) (body : Body)
| NoResponse.

(** ** [/like-blog] *)

Definition like_notification (user_id _id : ObjectId) (blog : Blog.doc)
    : Notification.doc :=
  {| Notification.type := "like";
     Notification.blog := _id;
     Notification.notification_for := Blog.author blog;
     Notification.user := user_id;
     Notification.comment := None;
     Notification.reply := None;
     Notification.replied_on_comment := None |}.

Definition is_like_of (user_id _id : ObjectId) (n : Notification.doc) : bool :=
  Pos.eqb (Notification.user n) user_id
  && Pos.eqb (Notification.blog n) _id
  && String.eqb (Notification.type n) "like".

Definition inc_total_likes (d : Z) (b : Blog.doc) : Blog.doc :=
  let a := Blog.activity b in
  {| Blog.author := Blog.author b; Blog.comments := Blog.comments b;
     Blog.activity :=
       {| Blog.total_likes := Blog.total_likes a + d;
          Blog.total_comments := Blog.total_comments a;
          Blog.total_reads := Blog.total_reads a;
          Blog.total_parent_comments := Blog.total_parent_comments a |} |}.

Definition like_blog (user_id _id : ObjectId) (isLikedByUser : bool) (db : DB)
    : DB * Response :=
  let incrementVal := if negb isLikedByUser then 1 else -1 in
  let blog := Blogs db !! _id in
  let db := with_Blogs (alter (inc_total_likes incrementVal) _id) db in
  if isLikedByUser then
    match blog with
    | Some blog =>
        (with_Notifications (λ l, l ++ [like_notification user_id _id blog]) db,
         Json 200 (Liked_by_user true))
    | None => (db, NoResponse)
    end
  else
    (with_Notifications (findOneAndDelete (is_like_of user_id _id)) db,
     Json 200 (Liked_by_user false)).

(** ** [/add-comment] *)

Record add_comment_body := {
  req_id : ObjectId;
  req_comment : string;
  req_blog_author : ObjectId;
  req_replying_to : option ObjectId
}.

Definition commentObj (user_id : ObjectId) (now : Z) (req : add_comment_body)
    : Comment.doc :=
  {| Comment.blog_id := req_id req;
     Comment.blog_author := req_blog_author req;
     Comment.comment := req_comment req;
     Comment.commented_by := user_id;
     Comment.parent := req_replying_to req;
     Comment.isReply :=
       match req_replying_to req with Some _ => Some true | None => None end;
     Comment.children := [];
     Comment.commentedAt := now |}.

Definition on_comment_added (new_id : ObjectId) (replying_to : option ObjectId)
    (b : Blog.doc) : Blog.doc :=
  let a := Blog.activity b in
  {| Blog.author := Blog.author b;
     Blog.comments := push new_id (Blog.comments b);
     Blog.activity :=
       {| Blog.total_likes := Blog.total_likes a;
          Blog.total_comments := Blog.total_comments a + 1;
          Blog.total_reads := Blog.total_reads a;
          Blog.total_parent_comments :=
            Blog.total_parent_comments a
            + match replying_to with Some _ => 0 | None => 1 end |} |}.

Definition notificationObj (user_id new_id : ObjectId) (req : add_comment_body)
    (notification_for : ObjectId) : Notification.doc :=
  {| Notification.type :=
       match req_replying_to req with Some _ => "reply" | None => "comment" end;
     Notification.blog := req_id req;
     Notification.notification_for := notification_for;
     Notification.user := user_id;
     Notification.comment := Some new_id;
     Notification.reply := None;
     Notification.replied_on_comment := req_replying_to req |}.

(** [new_id] is the [_id] that [new Comment(...)] gives the document and
    [now] its [commentedAt] timestamp. *)
Definition add_comment (new_id : ObjectId) (now : Z) (user_id : ObjectId)
    (req : add_comment_body) (db : DB) : DB * Response :=
  if Nat.eqb (String.length (req_comment req)) 0 then
    (db, Json 403 (Error "Write something to leave a comment..."))
  else
    let commentFile := commentObj user_id now req in
    let db := with_Comments (insert new_id commentFile) db in
    let db :=
      with_Blogs (alter (on_comment_added new_id (req_replying_to req)) (req_id req)) db in
    let created :=
      Json 200 (Created (Comment.comment commentFile) (Comment.commentedAt commentFile)
                        new_id user_id (Comment.children commentFile)) in
    match req_replying_to req with
    | Some replying_to =>
        match Comments db !! replying_to with
        | Some replyingToCommentDoc =>
            let db :=
              with_Comments (alter (Comment.set_children (push new_id)) replying_to) db in
            (with_Notifications
               (λ l, l ++ [notificationObj user_id new_id req
                             (Comment.commented_by replyingToCommentDoc)]) db,
             created)
        | None => (db, NoResponse)
        end
    | None =>
        (with_Notifications
           (λ l, l ++ [notificationObj user_id new_id req (req_blog_author req)]) db,
         created)
    end.

(** ** [deleteComments] *)

(** The update document of the blog in [deleteComments]:
    [$pull] and [$inc] are operators, while the key
    ["activity.total_parent_comments"] stands next to them, outside
    [$inc]; Mongoose puts a key that is not an operator under [$set],
    which makes it an assignment of the field. *)
Definition on_comment_deleted (_id : ObjectId) (comment : Comment.doc)
    (b : Blog.doc) : Blog.doc :=
  let a := Blog.activity b in
  {| Blog.author := Blog.author b;
     Blog.comments := pull _id (Blog.comments b);
     Blog.activity :=
       {| Blog.total_likes := Blog.total_likes a;
          Blog.total_comments := Blog.total_comments a + -1;
          Blog.total_reads := Blog.total_reads a;
          Blog.total_parent_comments :=
            match Comment.parent comment with Some _ => 0 | None => -1 end |} |}.

(** What one call does after [Comment.findOneAndDelete] returned
    [comment], up to and including the update of the blog. *)
Definition delete_one (_id : ObjectId) (comment : Comment.doc) (db : DB) : DB :=
  let db := with_Comments (delete _id) db in
  let db :=
    match Comment.parent comment with
    | Some parent => with_Comments (alter (Comment.set_children (pull _id)) parent) db
    | None => db
    end in
  let db :=
    with_Notifications
      (findOneAndDelete (λ n, refers_to (Notification.comment n) _id)) db in
  let db :=
    with_Notifications
      (findOneAndUpdate (λ n, refers_to (Notification.reply n) _id)
                        Notification.unset_reply) db in
  with_Blogs (alter (on_comment_deleted _id comment) (Comment.blog_id comment)) db.

(** The recursion follows stored ids, so it is driven by [fuel]; [None]
    means the fuel ran out.  A call on an id that is not in the
    collection gets [null], throws on [comment.parent] and is caught by
    the [.catch] of the call: the database is left as it is.  The calls
    on the children run one after the other, each to its end. *)
Fixpoint deleteComments (fuel : nat) (_id : ObjectId) (db : DB) : option DB :=
  match fuel with
  | O => None
  | S fuel =>
      match Comments db !! _id with
      | None => Some db
      | Some comment =>
          foldl (λ acc replies, acc ≫= deleteComments fuel replies)
                (Some (delete_one _id comment db))
                (Comment.children comment)
      end
  end.

(** Fuel that always suffices: every call that finds its comment removes
    it, so there are at most as many of them as comments. *)
Definition deleteComments_fuel (db : DB) : nat := S (size (Comments db)).

(** ** [/delete-comment] *)

Definition delete_comment (user_id _id : ObjectId) (db : DB) : option (DB * Response) :=
  match Comments db !! _id with
  | None => Some (db, NoResponse)
  | Some comment =>
      if Pos.eqb user_id (Comment.commented_by comment)
         || Pos.eqb user_id (Comment.blog_author comment)
      then
        db' ← deleteComments (deleteComments_fuel db) _id db;
        Some (db', Json 200 (Status "done"))
      else Some (db, Json 403 (Error "Cannot delete this comment"))
  end.

(** ** Predicates used in the statements *)

(** The flag [isReply] is set exactly on the comments that have a
    parent. *)
Definition is_reply_inv (db : DB) : Prop :=
  ∀ i c, Comments db !! i = Some c →
         Comment.isReply c = Some true ↔ is_Some (Comment.parent c).

(** Every comment of [b] is a comment of [a] with the same parent and
    flag and with no child that it did not have in [a]. *)
Definition only_shrinks (a b : DB) : Prop :=
  ∀ i c', Comments b !! i = Some c' →
    ∃ c, Comments a !! i = Some c
         ∧ Comment.parent c' = Comment.parent c
         ∧ Comment.isReply c' = Comment.isReply c
         ∧ ∀ j, j ∈ Comment.children c' → j ∈ Comment.children c.

(** A comment of [a] that is no longer in [b] is not listed among the
    children of its parent in [b]. *)
Definition unlinked (a b : DB) : Prop :=
  ∀ i c parent pc,
    Comments a !! i = Some c → Comments b !! i = None →
    Comment.parent c = Some parent → Comments b !! parent = Some pc →
    i ∉ Comment.children pc.

(** Number of stored comments that belong to the blog [bid]. *)
Definition comments_of (bid : ObjectId) (m : gmap positive Comment.doc) : nat :=
  size (filter (λ kv, Comment.blog_id kv.2 = bid) m).

(** Number of documents that match a filter. *)
Fixpoint matches {A : Type} (p : A → bool) (l : list A) : nat :=
  match l with
  | [] => 0%nat
  | x :: l' => ((if p x then 1 else 0) + matches p l')%nat
  end.

(** ** Example databases

    A blog [5] written by user [1]; user [2] leaves the top-level comment
    [10], user [3] answers it with the reply [11], user [4] leaves a
    second top-level comment [12]. *)

Module Scenario.
Definition blog0 : Blog.doc :=
  {| Blog.author := 1%positive; Blog.comments := [];
     Blog.activity :=
       {| Blog.total_likes := 0; Blog.total_comments := 0;
          Blog.total_reads := 0; Blog.total_parent_comments := 0 |} |}.

Definition db0 : DB :=
  {| Comments := ∅; Notifications := []; Blogs := {[ 5%positive := blog0 ]} |}.

Definition top (text : string) : add_comment_body :=
  {| req_id := 5%positive; req_comment := text;
     req_blog_author := 1%positive; req_replying_to := None |}.

Definition answer (text : string) (to : ObjectId) : add_comment_body :=
  {| req_id := 5%positive; req_comment := text;
     req_blog_author := 1%positive; req_replying_to := Some to |}.

Definition db1 : DB := (add_comment 10 100 2%positive (top "first") db0).1.
Definition db2 : DB := (add_comment 11 101 3%positive (answer "second" 10) db1).1.
Definition db3 : DB := (add_comment 12 102 4%positive (top "third") db2).1.

Definition counters (db : DB) : option (Z * Z) :=
  (λ b, (Blog.total_comments (Blog.activity b),
         Blog.total_parent_comments (Blog.activity b))) <$> Blogs db !! 5%positive.

Definition ids (db : DB) : list ObjectId := (map_to_list (Comments db)).*1.
End Scenario.

Module Leftover.
(** [Scenario.db2] with one further notification, to user [6], whose
    [reply] field holds the reply [11].  No handler of [server.js]
    writes that field; the store only serves to run the [$unset] of
    [deleteComments]. *)
Definition answered : Notification.doc :=
  {| Notification.type := "comment";
     Notification.blog := 5%positive;
     Notification.notification_for := 6%positive;
     Notification.user := 2%positive;
     Notification.comment := None;
     Notification.reply := Some 11%positive;
     Notification.replied_on_comment := None |}.

Definition db : DB :=
  with_Notifications (λ l, l ++ [answered]) Scenario.db2.
End Leftover.

(** ** [/isliked-by-user] *)

(** [Notification.exists] yields the first matching document, of which
    the answer [{ result }] shows the [_id], or [null] ([None]) when no
    document matches. *)
Definition isliked_by_user (user_id _id : ObjectId) (db : DB)
    : option Notification.doc :=
  List.find (is_like_of user_id _id) (Notifications db).

(** ** Reachability through stored child links *)

(** [reaches db a i]: [i] is [a] itself or is found from [a] by
    following ids listed in the [children] of stored comments. *)
Inductive reaches (db : DB) : ObjectId → ObjectId → Prop :=
| reaches_here (i : ObjectId) : reaches db i i
| reaches_child (a : ObjectId) (c : Comment.doc) (b i : ObjectId) :
    Comments db !! a = Some c → b ∈ Comment.children c →
    reaches db b i → reaches db a i.

(** [c'] is [c] with some of its children taken out, nothing else. *)
Definition same_but_children (c c' : Comment.doc) : Prop :=
  c' = Comment.set_children (λ _, Comment.children c') c
  ∧ ∀ j, j ∈ Comment.children c' → j ∈ Comment.children c.

(** The fields of a blog that the comment handlers have no business
    with. *)
Definition likes_and_reads (b : Blog.doc) : ObjectId * Z * Z :=
  (Blog.author b, Blog.total_likes (Blog.activity b),
   Blog.total_reads (Blog.activity b)).

(** [{ "activity.total_parent_comments": v }] *)
Definition set_total_parent_comments (v : Z) (b : Blog.doc) : Blog.doc :=
  let a := Blog.activity b in
  {| Blog.author := Blog.author b; Blog.comments := Blog.comments b;
     Blog.activity :=
       {| Blog.total_likes := Blog.total_likes a;
          Blog.total_comments := Blog.total_comments a;
          Blog.total_reads := Blog.total_reads a;
          Blog.total_parent_comments := v |} |}.

(** Every comment of [b] is the comment that [a] has under the same id,
    less some children, and a child that was taken out is not stored in
    [b]; and [b] stores no id that [a] does not. *)
Definition kept_as (a b : DB) : Prop :=
  (∀ i c', Comments b !! i = Some c' →
     ∃ c, Comments a !! i = Some c ∧ same_but_children c c'
          ∧ ∀ j, j ∈ Comment.children c → j ∉ Comment.children c' →
                 Comments b !! j = None)
  ∧ (∀ i, Comments a !! i = None → Comments b !! i = None).

(** No child of a comment that went from [a] to [b] is stored in [b]. *)
Definition children_gone (a b : DB) : Prop :=
  ∀ i c, Comments a !! i = Some c → Comments b !! i = None →
         ∀ j, j ∈ Comment.children c → Comments b !! j = None.

(** Every blog of [b] is a blog of [a] and conversely; it has the same
    author, likes and reads and lists no comment that it did not list
    in [a]. *)
Definition blogs_kept (a b : DB) : Prop :=
  ∀ bid,
    (Blogs b !! bid = None ↔ Blogs a !! bid = None)
    ∧ ∀ bb, Blogs b !! bid = Some bb →
        ∃ ba, Blogs a !! bid = Some ba
              ∧ likes_and_reads bb = likes_and_reads ba
              ∧ ∀ j, j ∈ Blog.comments bb → j ∈ Blog.comments ba.

(** A comment that went from [a] to [b] is not listed by its blog in
    [b]. *)
Definition unlisted (a b : DB) : Prop :=
  ∀ i c bb, Comments a !! i = Some c → Comments b !! i = None →
            Blogs b !! Comment.blog_id c = Some bb → i ∉ Blog.comments bb.

(** A like notification as [/like-blog] stores it refers to no comment. *)
Definition likes_plain (db : DB) : Prop :=
  Forall (λ n, Notification.type n = "like" →
               Notification.comment n = None ∧ Notification.reply n = None)
         (Notifications db).

(** ** Strings of the requests

    Where a handler looks into the text, a string is the list of its
    UTF-16 code units, which is what [length], [split], [replace],
    [trim] and a regular expression without the [u] flag go by. *)

Abbreviation jsstring := (list N) (only parsing).

(** The code units of an ASCII text. *)
Definition js (s : string) : jsstring :=
  (λ a, N.of_nat (Ascii.nat_of_ascii a)) <$> String.list_ascii_of_string s.

Definition in_range (lo hi c : N) : bool := (lo <=? c)%N && (c <=? hi)%N.

(** [[0-9]], [[a-z]], [[A-Z]] and [\w] *)
Definition is_digit (c : N) : bool := in_range 48 57 c.
Definition is_lower (c : N) : bool := in_range 97 122 c.
Definition is_upper (c : N) : bool := in_range 65 90 c.
Definition is_alnum (c : N) : bool := is_lower c || is_upper c || is_digit c.
Definition is_word (c : N) : bool := is_alnum c || (c =? 95)%N.

(** Line terminators: what [.] does not match. *)
Definition is_line_terminator (c : N) : bool :=
  (c =? 10)%N || (c =? 13)%N || (c =? 0x2028)%N || (c =? 0x2029)%N.

(** [\s], which is also what [trim] strips: white space and line
    terminators. *)
Definition is_space (c : N) : bool :=
  in_range 9 13 c || (c =? 32)%N || (c =? 0xA0)%N || (c =? 0x1680)%N
  || in_range 0x2000 0x200A c || (c =? 0x2028)%N || (c =? 0x2029)%N
  || (c =? 0x202F)%N || (c =? 0x205F)%N || (c =? 0x3000)%N || (c =? 0xFEFF)%N.

(** [s.split(sep)] for a separator of one code unit: the pieces between
    the separators, empty ones included; never an empty list. *)
Fixpoint split (sep : N) (s : jsstring) : list jsstring :=
  match s with
  | [] => [[]]
  | c :: s' =>
      if (c =? sep)%N then [] :: split sep s'
      else match split sep s' with
           | piece :: pieces => (c :: piece) :: pieces
           | [] => [[c]]
           end
  end.

(** ** [verifyJWT] *)

(** [authHeader && authHeader.split(" ")[1]]: an absent header gives
    [undefined] ([None]), the empty header gives itself, any other the
    second piece, [undefined] if there is none. *)
Definition token_of (authHeader : option jsstring) : option jsstring :=
  match authHeader with
  | None => None
  | Some [] => Some []
  | Some header => split 32 header !! 1%nat
  end.

Inductive Verified :=
| Next (user : ObjectId)
| Rejected (status : Z) (error : string).

(** [jwt_verify] stands for [jwt.verify] with the secret of the server:
    the [id] of the payload of a token that verifies, [None] for the
    error. *)
Definition verifyJWT (jwt_verify : jsstring → option ObjectId)
    (authHeader : option jsstring) : Verified :=
  match token_of authHeader with
  | None => Rejected 401 "No access token"
  | Some token =>
      match jwt_verify token with
      | None => Rejected 403 "Invalid access token"
      | Some user => Next user
      end
  end.

(** ** The [blog_id] of a new blog *)

(** [.replace(/[^a-zA-Z0-9]/g, " ")] *)
Definition replace_non_alnum (s : jsstring) : jsstring :=
  (λ c, if is_alnum c then c else 32%N) <$> s.

(** [.replace(/\s+/g, "-")]: every maximal run of white space becomes
    one ["-"]; [in_run] says that the code unit before was white space. *)
Fixpoint replace_spaces (in_run : bool) (s : jsstring) : jsstring :=
  match s with
  | [] => []
  | c :: s' =>
      if is_space c then
        if in_run then replace_spaces true s'
        else 45%N :: replace_spaces true s'
      else c :: replace_spaces false s'
  end.

Fixpoint trim_start (s : jsstring) : jsstring :=
  match s with
  | c :: s' => if is_space c then trim_start s' else s
  | [] => []
  end.

(** [.trim()] *)
Definition trim (s : jsstring) : jsstring :=
  reverse (trim_start (reverse (trim_start s))).

(** [title.replace(/[^a-zA-Z0-9]/g, " ").replace(/\s+/g, "-").trim()] *)
Definition slug (title : jsstring) : jsstring :=
  trim (replace_spaces false (replace_non_alnum title)).

(** ** Blogs and users as [/create-blog] and the counts see them *)

Module User.
(** The schema [Schema/User.js] is not among the sources: the record
    lists the fields that [server.js] reads and writes in the handlers
    modelled here ([personal_info.username], [account_info.total_posts],
    [account_info.total_reads], [blogs]). *)
Record doc := {
  username : jsstring;
  total_posts : Z;
  total_reads : Z;
  blogs : list ObjectId
}.
End User.

Module Post.
(** A document of the [blogs] collection with the fields that
    [/create-blog] writes; [core] holds the author, the list of comments
    and the counters, the part that the comment and like handlers work
    on.  [content] is the list of the blocks of the editor, each kept as
    its text: the handler reads their number only. *)
Record doc := {
  _id : ObjectId;
  blog_id : jsstring;
  title : jsstring;
  banner : jsstring;
  des : jsstring;
  content : list jsstring;
  tags : list jsstring;
  draft : bool;
  core : Blog.doc
}.
End Post.

(** The [blogs] collection in insertion order, [findOne...] acting on
    the first match, and the [users] collection by [_id]. *)
Record Site := {
  Posts : list Post.doc;
  Users : gmap positive User.doc
}.

Inductive Sent (A : Type) :=
| Ok (body : A)
| Refused (status : Z) (error : string).
Arguments Ok {A} body.
Arguments Refused {A} status error.

(** ** [/create-blog] *)

(** [cb_id] is the [id] of the request; the empty string stands for an
    absent one as well, both being falsy. *)
Record create_blog_body := {
  cb_banner : jsstring;
  cb_title : jsstring;
  cb_content : list jsstring;
  cb_des : jsstring;
  cb_tags : list jsstring;
  cb_draft : bool;
  cb_id : jsstring
}.

(** The guards at the head of the handler: the error of the 403 answer,
    or [None] when the request gets through. *)
Definition create_blog_check (req : create_blog_body) : option string :=
  if (length (cb_title req) =? 0)%nat then Some "You must provide a title"
  else if cb_draft req then None
  else if (length (cb_des req) =? 0)%nat || (200 <? length (cb_des req))%nat then
    Some "A blog description of 200 characters max is needed before publsihing"
  else if (length (cb_banner req) =? 0)%nat then
    Some "You need a banner before publsihing"
  else if (length (cb_content req) =? 0)%nat then
    Some "There must be some content before publishing"
  else if (length (cb_tags req) =? 0)%nat || (10 <? length (cb_tags req))%nat then
    Some "Some tags are needed before publishing - 10 tags max"
  else None.

(** [{ title, des, banner, content, tags, draft }] as an update. *)
Definition edit_post (req : create_blog_body) (tags : list jsstring) (p : Post.doc)
    : Post.doc :=
  {| Post._id := Post._id p; Post.blog_id := Post.blog_id p;
     Post.title := cb_title req; Post.banner := cb_banner req;
     Post.des := cb_des req; Post.content := cb_content req;
     Post.tags := tags; Post.draft := cb_draft req;
     Post.core := Post.core p |}.

(** Modelled from the spec: the schema [Schema/Blog.js] is not among the
    sources.  A new blog starts without comments and with all its
    counters at zero. *)
Definition new_post (new_id : ObjectId) (blog_id : jsstring) (authorId : ObjectId)
    (req : create_blog_body) (tags : list jsstring) : Post.doc :=
  {| Post._id := new_id; Post.blog_id := blog_id;
     Post.title := cb_title req; Post.banner := cb_banner req;
     Post.des := cb_des req; Post.content := cb_content req;
     Post.tags := tags; Post.draft := cb_draft req;
     Post.core :=
       {| Blog.author := authorId; Blog.comments := [];
          Blog.activity :=
            {| Blog.total_likes := 0; Blog.total_comments := 0;
               Blog.total_reads := 0; Blog.total_parent_comments := 0 |} |} |}.

(** [{ $inc: { "account_info.total_posts": incrementValue },
       $push: { blogs: blog._id } }] *)
Definition on_blog_created (incrementValue : Z) (new_id : ObjectId) (u : User.doc)
    : User.doc :=
  {| User.username := User.username u;
     User.total_posts := User.total_posts u + incrementValue;
     User.total_reads := User.total_reads u;
     User.blogs := User.blogs u ++ [new_id] |}.

(** [toLowerCase] stands for [String.prototype.toLowerCase], [new_id]
    for the [_id] that [new Blog(...)] gives the document and [nanoid]
    for the text that [nanoid()] returns. *)
Definition create_blog (toLowerCase : jsstring → jsstring) (new_id : ObjectId)
    (nanoid : jsstring) (authorId : ObjectId) (req : create_blog_body) (s : Site)
    : Site * Sent jsstring :=
  match create_blog_check req with
  | Some error => (s, Refused 403 error)
  | None =>
      let tags := toLowerCase <$> cb_tags req in
      match cb_id req with
      | _ :: _ =>
          let blog_id := cb_id req in
          ({| Posts :=
                findOneAndUpdate (λ p, bool_decide (Post.blog_id p = blog_id))
                  (edit_post req tags) (Posts s);
              Users := Users s |},
           Ok blog_id)
      | [] =>
          let blog_id := slug (cb_title req) ++ nanoid in
          let incrementValue := if cb_draft req then 0 else 1 in
          ({| Posts := Posts s ++ [new_post new_id blog_id authorId req tags];
              Users := alter (on_blog_created incrementValue new_id) authorId (Users s) |},
           Ok blog_id)
      end
  end.

(** ** [/all-latest-blogs-count] and [/search-blogs-count] *)

(** [{ draft: false }] *)
Definition published (p : Post.doc) : bool := negb (Post.draft p).

(** [totalDocs] of [/all-latest-blogs-count]. *)
Definition all_latest_blogs_count (s : Site) : nat := matches published (Posts s).

(** What [new RegExp(query, 'i')] gives: a pattern, whose match against
    a title the database decides, or the [SyntaxError] that the
    constructor throws for a text that is no pattern, such as ["("]. *)
Inductive RegExp : Type :=
  | Pattern (test : jsstring → bool)
  | SyntaxError (message : string).

(** A value, or the exception that leaves the code. *)
Inductive Outcome (A : Type) : Type :=
  | Returns (a : A)
  | Throws (message : string).
Arguments Returns {A} a.
Arguments Throws {A} message.

(** The filter of [/search-blogs-count], [None] for the [undefined] that
    is left when the request names no tag, no query and no author.  An
    empty [tag] or [query] is falsy.  The pattern is built only on the
    second branch, [RegExp_i query] standing for [new RegExp(query, 'i')];
    the constructor is called in the handler itself, outside the
    promise and its [.catch], so its [SyntaxError] leaves the handler. *)
Definition findQuery (RegExp_i : jsstring → RegExp)
    (tag query : jsstring) (author : option ObjectId) :
    Outcome (option (Post.doc → bool)) :=
  match tag with
  | _ :: _ => Returns (Some (λ p, bool_decide (tag ∈ Post.tags p) && published p))
  | [] =>
      match query with
      | _ :: _ =>
          match RegExp_i query with
          | Pattern test => Returns (Some (λ p, published p && test (Post.title p)))
          | SyntaxError message => Throws message
          end
      | [] =>
          match author with
          | Some author =>
              Returns (Some (λ p, Pos.eqb (Blog.author (Post.core p)) author
                                  && published p))
          | None => Returns None
          end
      end
  end.

(** [/search-blogs-count]: [Returns totalDocs] for the answer
    [{ totalDocs }] with status 200, [countDocuments] of an [undefined]
    filter counting every document; [Throws message] when the handler
    throws before it queries, in which case no count is sent. *)
Definition search_blogs_count (RegExp_i : jsstring → RegExp)
    (tag query : jsstring) (author : option ObjectId) (s : Site) : Outcome nat :=
  match findQuery RegExp_i tag query author with
  | Returns (Some filter) => Returns (matches filter (Posts s))
  | Returns None => Returns (length (Posts s))
  | Throws message => Throws message
  end.

(** What [/create-blog] asks of a blog: a title, and of a blog that is
    not a draft a description of 1 to 200 code units, a banner, some
    content and 1 to 10 tags. *)
Definition publishable (p : Post.doc) : Prop :=
  Post.title p ≠ []
  ∧ (Post.draft p = false →
     (1 ≤ length (Post.des p) ≤ 200)%nat
     ∧ Post.banner p ≠ [] ∧ Post.content p ≠ []
     ∧ (1 ≤ length (Post.tags p) ≤ 10)%nat).

(** ** Example site *)

Module Shop.
(** A site with one user, [1], and no blog; a draft and the request
    that publishes it. *)
Definition site0 : Site :=
  {| Posts := [];
     Users := {[ 1%positive := {| User.username := js "ann"; User.total_posts := 0;
                                  User.total_reads := 0; User.blogs := [] |} ]} |}.

Definition draft_req : create_blog_body :=
  {| cb_banner := []; cb_title := js "My day"; cb_content := []; cb_des := [];
     cb_tags := []; cb_draft := true; cb_id := [] |}.

Definition publish_req (id : jsstring) : create_blog_body :=
  {| cb_banner := js "b.jpeg"; cb_title := js "My day"; cb_content := [js "text"];
     cb_des := js "A day"; cb_tags := [js "Life"]; cb_draft := false; cb_id := id |}.
End Shop.

(** ** Regular expressions

    [emailRegex] and [passwordRegex] are written without flags, so they
    work on code units.  A pattern between [^] and [$] is kept as a term
    of [regex]; [regex_test] decides whether the whole string matches,
    by taking the pattern through the string one code unit at a time. *)

Inductive regex :=
| Nothing
| Blank
| One (class : N → bool)
| Then (r1 r2 : regex)
| Either (r1 r2 : regex)
| Repeat (r : regex).

(** Does the pattern match the empty string? *)
Fixpoint blank (r : regex) : bool :=
  match r with
  | Nothing => false
  | Blank => true
  | One _ => false
  | Then r1 r2 => blank r1 && blank r2
  | Either r1 r2 => blank r1 || blank r2
  | Repeat _ => true
  end.

(** What is left of the pattern after the code unit [c]. *)
Fixpoint after (c : N) (r : regex) : regex :=
  match r with
  | Nothing => Nothing
  | Blank => Nothing
  | One class => if class c then Blank else Nothing
  | Then r1 r2 =>
      if blank r1 then Either (Then (after c r1) r2) (after c r2)
      else Then (after c r1) r2
  | Either r1 r2 => Either (after c r1) (after c r2)
  | Repeat r => Then (after c r) (Repeat r)
  end.

Definition regex_test (r : regex) (s : jsstring) : bool :=
  blank (foldl (λ r c, after c r) r s).

(** [r+], [r?], [r{n}] and [r{0,n}] *)
Definition Some_of (r : regex) : regex := Then r (Repeat r).
Definition Maybe (r : regex) : regex := Either Blank r.
Fixpoint Times (n : nat) (r : regex) : regex :=
  match n with
  | O => Blank
  | S n => Then r (Times n r)
  end.
Fixpoint Up_to (n : nat) (r : regex) : regex :=
  match n with
  | O => Blank
  | S n => Maybe (Then r (Up_to n r))
  end.

(** [\w], [.] and single characters *)
Definition word : regex := One is_word.
Definition dot : regex := One (λ c, negb (is_line_terminator c)).
Definition anything : regex := One (λ _, true).
Definition char (a : N) : regex := One (N.eqb a).

(** [/^\w+([\.-]?\w+)*@\w+([\.-]?\w+)*(\.\w{2,3})+$/] *)
Definition words : regex :=
  Then (Some_of word)
       (Repeat (Then (Maybe (One (λ c, (c =? 46)%N || (c =? 45)%N))) (Some_of word))).

Definition emailRegex : regex :=
  Then words
    (Then (char 64)
       (Then words
          (Some_of (Then (char 46) (Then (Times 2 word) (Up_to 1 word)))))).

(** A lookahead [(?=r)] at the start of the pattern: some prefix of the
    string matches [r]. *)
Definition ahead (r : regex) (s : jsstring) : bool :=
  regex_test (Then r (Repeat anything)) s.

(** [/^(?=.*\d)(?=.*[a-z])(?=.*[A-Z]).{6,20}$/] *)
Definition passwordRegex_test (s : jsstring) : bool :=
  ahead (Then (Repeat dot) (One is_digit)) s
  && ahead (Then (Repeat dot) (One is_lower)) s
  && ahead (Then (Repeat dot) (One is_upper)) s
  && regex_test (Then (Times 6 dot) (Up_to 14 dot)) s.

(** ** [/signup]: the guards *)

(** The guards at the head of [/signup]: the error of the 403 answer, or
    [None] when the request goes on to be hashed and stored. *)
Definition signup_check (fullname email password : jsstring) : option string :=
  if (length fullname <? 3)%nat then
    Some "Full name must be at least 3 letters long"
  else if (length email =? 0)%nat then Some "Enter an email"
  else if negb (regex_test emailRegex email) then Some "Email format is invalid"
  else if negb (passwordRegex_test password) then
    Some "Password should be 6 to 20 characters long with a number, 1 lowercase and 1 uppercase letters"
  else None.

(** ** [generateUsername] *)

(** [User.exists({ "personal_info.username": username })] *)
Definition username_exists (username : jsstring) (s : Site) : bool :=
  bool_decide (Exists (λ kv, User.username kv.2 = username) (map_to_list (Users s))).

(** [nanoid] stands for the text that [nanoid()] returns. *)
Definition generateUsername (nanoid : jsstring) (email : jsstring) (s : Site)
    : jsstring :=
  let username := default [] (head (split 64 email)) in
  if username_exists username s then username ++ take 3 nanoid else username.

(** The strings that a pattern stands for. *)
Inductive Matches : regex → jsstring → Prop :=
| Matches_Blank : Matches Blank []
| Matches_One (class : N → bool) (c : N) :
    class c = true → Matches (One class) [c]
| Matches_Then (r1 r2 : regex) (s1 s2 : jsstring) :
    Matches r1 s1 → Matches r2 s2 → Matches (Then r1 r2) (s1 ++ s2)
| Matches_Either_l (r1 r2 : regex) (s : jsstring) :
    Matches r1 s → Matches (Either r1 r2) s
| Matches_Either_r (r1 r2 : regex) (s : jsstring) :
    Matches r2 s → Matches (Either r1 r2) s
| Matches_Repeat_nil (r : regex) : Matches (Repeat r) []
| Matches_Repeat_more (r : regex) (s1 s2 : jsstring) :
    Matches r s1 → Matches (Repeat r) s2 → Matches (Repeat r) (s1 ++ s2).

(** The code units that can occur in a match. *)
Fixpoint letters (r : regex) (c : N) : bool :=
  match r with
  | Nothing | Blank => false
  | One class => class c
  | Then r1 r2 | Either r1 r2 => letters r1 c || letters r2 c
  | Repeat r => letters r c
  end.

(** A word character, ["."] or ["-"]. *)
Definition name_char (c : N) : Prop := is_word c = true ∨ c = 46%N ∨ c = 45%N.

(** The links between comments are sound: a stored comment that names
    a parent is listed among the children of that parent, which is
    stored; and an id listed among the children of a stored comment is
    that of a stored comment that names it as parent. *)
Definition well_linked (db : DB) : Prop :=
  (∀ i c p, Comments db !! i = Some c → Comment.parent c = Some p →
     ∃ pc, Comments db !! p = Some pc ∧ i ∈ Comment.children pc)
  ∧ (∀ p pc j, Comments db !! p = Some pc → j ∈ Comment.children pc →
       ∃ c, Comments db !! j = Some c ∧ Comment.parent c = Some p).

(** The notifications as the handlers keep them: a notification with a
    [comment] has a stored comment there and no [reply], and a comment
    is the [comment] of at most one notification and the [reply] of at
    most one.  It holds of a store without notifications, and
    [/like-blog], [/add-comment] and [deleteComments] keep it; that no
    handler writes a [reply] is one way of having it. *)
Definition notifications_sound (db : DB) : Prop :=
  (∀ n i, n ∈ Notifications db → Notification.comment n = Some i →
          is_Some (Comments db !! i) ∧ Notification.reply n = None)
  ∧ (∀ i, (matches (λ n, refers_to (Notification.comment n) i) (Notifications db)
           ≤ 1)%nat)
  ∧ (∀ i, (matches (λ n, refers_to (Notification.reply n) i) (Notifications db)
           ≤ 1)%nat).

(** The comment [i] was stored in [a] and is not in [b]. *)
Definition removed (a b : DB) (i : ObjectId) : Prop :=
  is_Some (Comments a !! i) ∧ Comments b !! i = None.

(** What a cascade does to the notifications of a sound collection. *)
Definition notifications_cleaned (a b : DB) : Prop :=
  (∀ i, removed a b i →
        Forall (λ n, Notification.comment n ≠ Some i ∧ Notification.reply n ≠ Some i)
          (Notifications b))
  ∧ (∀ n, n ∈ Notifications a →
          n ∈ Notifications b
          ∨ (Notification.unset_reply n ∈ Notifications b
             ∧ ∃ i, Notification.reply n = Some i ∧ removed a b i)
          ∨ ∃ j, Notification.comment n = Some j ∧ removed a b j).

(** Every notification of [b] is one of [a], as it was or without its
    [reply]. *)
Definition notifications_from (a b : DB) : Prop :=
  ∀ m, m ∈ Notifications b →
       ∃ n, n ∈ Notifications a ∧ (m = n ∨ m = Notification.unset_reply n).

(** ** Generic facts *)

Section option_fold.
Context {A B : Type} (f : B → A → option A).

Lemma foldl_bind_None (l : list B) :
  foldl (λ acc x, acc ≫= f x) None l = None.
Proof. induction l as [|x l IH]; simpl; auto. Qed.

(** A reflexive and transitive relation that every step respects is
    respected by the whole fold. *)
Lemma foldl_bind_rel (R : A → A → Prop) :
  (∀ a, R a a) →
  (∀ a b c, R a b → R b c → R a c) →
  (∀ x a a', f x a = Some a' → R a a') →
  ∀ l a a', foldl (λ acc x, acc ≫= f x) (Some a) l = Some a' → R a a'.
Proof.
  intros Hrefl Htrans Hstep l.
  induction l as [|x l IH]; simpl; intros a a' H.
  - injection H as ->. apply Hrefl.
  - destruct (f x a) as [a1|] eqn:E.
    + apply Htrans with a1; eauto.
    + rewrite foldl_bind_None in H. discriminate.
Qed.
End option_fold.

Lemma foldl_bind_mono {A B : Type} (f g : B → A → option A) :
  (∀ x a a', f x a = Some a' → g x a = Some a') →
  ∀ l a a', foldl (λ acc x, acc ≫= f x) (Some a) l = Some a' →
            foldl (λ acc x, acc ≫= g x) (Some a) l = Some a'.
Proof.
  intros Hfg l. induction l as [|x l IH]; simpl; intros a a' H; [done|].
  destruct (f x a) as [a1|] eqn:E.
  - rewrite (Hfg _ _ _ E). simpl. auto.
  - rewrite foldl_bind_None in H. discriminate.
Qed.

Lemma size_alter {V : Type} (f : V → V) (i : positive) (m : gmap positive V) :
  size (alter f i m) = size m.
Proof. rewrite <- !size_dom. by rewrite dom_alter_L. Qed.

Lemma elem_of_pull (i j : positive) (l : list positive) :
  j ∈ pull i l ↔ j ≠ i ∧ j ∈ l.
Proof. unfold pull. by rewrite list_elem_of_filter. Qed.

(** ** How one deletion changes the [comments] collection *)

Lemma Comments_delete_one (_id : positive) (comment : Comment.doc) (db : DB) :
  Comments (delete_one _id comment db)
  = match Comment.parent comment with
    | Some parent =>
        alter (Comment.set_children (pull _id)) parent (delete _id (Comments db))
    | None => delete _id (Comments db)
    end.
Proof. unfold delete_one. by destruct (Comment.parent comment). Qed.

Lemma Notifications_delete_one (_id : positive) (comment : Comment.doc) (db : DB) :
  Notifications (delete_one _id comment db)
  = findOneAndUpdate (λ n, refers_to (Notification.reply n) _id)
      Notification.unset_reply
      (findOneAndDelete (λ n, refers_to (Notification.comment n) _id)
         (Notifications db)).
Proof. unfold delete_one. by destruct (Comment.parent comment). Qed.

Lemma Blogs_delete_one (_id : positive) (comment : Comment.doc) (db : DB) :
  Blogs (delete_one _id comment db)
  = alter (on_comment_deleted _id comment) (Comment.blog_id comment) (Blogs db).
Proof. unfold delete_one. by destruct (Comment.parent comment). Qed.

Lemma size_delete_one (_id : positive) (comment : Comment.doc) (db : DB) :
  Comments db !! _id = Some comment →
  size (Comments (delete_one _id comment db)) = pred (size (Comments db)).
Proof.
  intros H. rewrite Comments_delete_one.
  destruct (Comment.parent comment); rewrite ?size_alter;
    apply map_size_delete_Some; eauto.
Qed.

(** ** Termination and induction principle of [deleteComments] *)

Lemma deleteComments_total (fuel : nat) :
  ∀ (_id : positive) (db : DB),
    (size (Comments db) < fuel)%nat →
    ∃ db', deleteComments fuel _id db = Some db'
           ∧ (size (Comments db') ≤ size (Comments db))%nat.
Proof.
  induction fuel as [|fuel IH]; intros _id db Hlt; [lia|].
  simpl. destruct (Comments db !! _id) as [comment|] eqn:E; [|eauto].
  pose proof (size_delete_one _ _ _ E) as Hsz.
  assert (Hpos : (0 < size (Comments db))%nat).
  { destruct (size (Comments db)) eqn:E0; [|lia].
    apply map_size_empty_inv in E0. rewrite E0 in E. by rewrite lookup_empty in E. }
  assert (Hd : (size (Comments (delete_one _id comment db)) < size (Comments db))%nat)
    by lia.
  clear Hsz E. revert Hd. generalize (delete_one _id comment db) as d.
  induction (Comment.children comment) as [|x l IHl]; simpl; intros d Hd.
  - exists d. split; [done|lia].
  - destruct (IH x d) as (d1 & -> & Hle); [lia|]. simpl.
    destruct (IHl d1) as (d2 & -> & Hle2); [lia|].
    exists d2. split; [done|lia].
Qed.

Lemma deleteComments_enough_fuel (_id : positive) (db : DB) :
  is_Some (deleteComments (deleteComments_fuel db) _id db).
Proof.
  destruct (deleteComments_total (deleteComments_fuel db) _id db) as (d & -> & _);
    [unfold deleteComments_fuel; lia | eauto].
Qed.

Lemma deleteComments_fuel_mono (fuel : nat) :
  ∀ (fuel' : nat) (_id : positive) (db db' : DB),
    (fuel ≤ fuel')%nat →
    deleteComments fuel _id db = Some db' →
    deleteComments fuel' _id db = Some db'.
Proof.
  induction fuel as [|fuel IH]; intros fuel' _id db db' Hle H; [done|].
  destruct fuel' as [|fuel']; [lia|].
  simpl in *. destruct (Comments db !! _id) as [comment|]; [|done].
  revert H. apply foldl_bind_mono. intros x a a'. apply IH. lia.
Qed.

(** A reflexive and transitive relation between databases that every
    single deletion respects relates the database before a call of
    [deleteComments] to the one after it. *)
Lemma deleteComments_rel (R : DB → DB → Prop) :
  (∀ db, R db db) →
  (∀ a b c, R a b → R b c → R a c) →
  (∀ _id comment db, Comments db !! _id = Some comment →
                     R db (delete_one _id comment db)) →
  ∀ fuel _id db db', deleteComments fuel _id db = Some db' → R db db'.
Proof.
  intros Hrefl Htrans Hone fuel.
  induction fuel as [|fuel IH]; intros _id db db' H; [done|].
  simpl in H. destruct (Comments db !! _id) as [comment|] eqn:E.
  - apply Htrans with (delete_one _id comment db); [by apply Hone|].
    revert H. apply foldl_bind_rel; auto.
  - injection H as <-. apply Hrefl.
Qed.

(** ** [/add-comment] *)

Lemma add_comment_sent (new_id : positive) (now : Z) (user_id : positive)
    (req : add_comment_body) (db db' : DB) (body : Body) :
  add_comment new_id now user_id req db = (db', Json 200 body) →
  String.length (req_comment req) ≠ 0%nat.
Proof.
  unfold add_comment. intros H E. rewrite E in H. simpl in H. congruence.
Qed.

(** The blog document after a comment with non-empty text was added. *)
Lemma Blogs_add_comment (new_id : positive) (now : Z) (user_id : positive)
    (req : add_comment_body) (db : DB) :
  String.length (req_comment req) ≠ 0%nat →
  Blogs (add_comment new_id now user_id req db).1
  = alter (on_comment_added new_id (req_replying_to req)) (req_id req) (Blogs db).
Proof.
  intros Hne. unfold add_comment.
  destruct (Nat.eqb_spec (String.length (req_comment req)) 0) as [E|_]; [done|].
  destruct (req_replying_to req) as [p|]; simpl; [|done].
  by destruct (_ !! p).
Qed.

(** C7. [/add-comment] with an empty comment text answers 403 with an
    error and writes nothing: the comments, the notifications and the
    blogs (hence every counter) are those of before. *)
Theorem add_comment_empty_text (new_id : positive) (now : Z) (user_id : positive)
    (req : add_comment_body) (db : DB) :
  req_comment req = "" →
  add_comment new_id now user_id req db
  = (db, Json 403 (Error "Write something to leave a comment...")).
Proof. unfold add_comment. by intros ->. Qed.

Lemma add_comment_empty_text_witness :
  req_comment (Scenario.top "") = ""
  ∧ add_comment 10 100 2%positive (Scenario.top "") Scenario.db0
    = (Scenario.db0, Json 403 (Error "Write something to leave a comment...")).
Proof.
  split; [reflexivity|].
  apply (add_comment_empty_text 10 100 2%positive (Scenario.top "") Scenario.db0).
  reflexivity.
Defined.

(** C8. When [/add-comment] answers 200, the counters of the commented
    blog have moved as follows: without [replying_to], [total_comments]
    and [total_parent_comments] are each one more than before; with
    [replying_to], [total_comments] is one more and
    [total_parent_comments] is what it was. *)
Theorem add_comment_counters (new_id : positive) (now : Z) (user_id : positive)
    (req : add_comment_body) (db db' : DB) (body : Body) (b : Blog.doc) :
  add_comment new_id now user_id req db = (db', Json 200 body) →
  Blogs db !! req_id req = Some b →
  ∃ b', Blogs db' !! req_id req = Some b'
    ∧ Blog.total_comments (Blog.activity b')
      = Blog.total_comments (Blog.activity b) + 1
    ∧ (req_replying_to req = None →
       Blog.total_parent_comments (Blog.activity b')
       = Blog.total_parent_comments (Blog.activity b) + 1)
    ∧ (is_Some (req_replying_to req) →
       Blog.total_parent_comments (Blog.activity b')
       = Blog.total_parent_comments (Blog.activity b)).
Proof.
  intros Hrun Hb.
  pose proof (Blogs_add_comment new_id now user_id req db
                (add_comment_sent _ _ _ _ _ _ _ Hrun)) as HB.
  rewrite Hrun in HB. simpl in HB.
  exists (on_comment_added new_id (req_replying_to req) b).
  split; [by rewrite HB, lookup_alter_eq, Hb|].
  split; [done|]. simpl.
  split; [intros ->; done|intros [p ->]; lia].
Qed.

Lemma add_comment_counters_witness :
  ∃ db' body b b',
    add_comment 11 101 3%positive (Scenario.answer "second" 10) Scenario.db1
    = (db', Json 200 body)
    ∧ Blogs Scenario.db1 !! 5%positive = Some b
    ∧ Blogs db' !! 5%positive = Some b'
    ∧ Blog.total_comments (Blog.activity b')
      = Blog.total_comments (Blog.activity b) + 1
    ∧ Blog.total_parent_comments (Blog.activity b')
      = Blog.total_parent_comments (Blog.activity b).
Proof.
  pose (r := add_comment 11 101 3%positive (Scenario.answer "second" 10) Scenario.db1).
  pose (b := on_comment_added 10 None Scenario.blog0).
  assert (Hrun : r = (r.1, Json 200 (Created "second" 101 11 3 []))) by reflexivity.
  assert (Hb : Blogs Scenario.db1 !! 5%positive = Some b) by reflexivity.
  destruct (add_comment_counters 11 101 3%positive (Scenario.answer "second" 10)
              Scenario.db1 r.1 _ b Hrun Hb) as (b' & Hb' & Htc & _ & Hreply).
  exists r.1, (Created "second" 101 11 3 []), b, b'.
  repeat split; try assumption. apply Hreply. simpl. eauto.
Defined.

(** C9. When [/add-comment] answers 200, the notifications are those of
    before followed by exactly one new document, which refers to the new
    comment and to the acting user.  Without [replying_to] it has type
    [comment] and goes to the [blog_author] of the request; with
    [replying_to] it has type [reply], goes to the [commented_by] of the
    stored parent comment and records the parent in
    [replied_on_comment]. *)
Theorem add_comment_notification (new_id : positive) (now : Z) (user_id : positive)
    (req : add_comment_body) (db db' : DB) (body : Body) :
  add_comment new_id now user_id req db = (db', Json 200 body) →
  (req_replying_to req = None →
   Notifications db'
   = Notifications db
     ++ [ {| Notification.type := "comment";
             Notification.blog := req_id req;
             Notification.notification_for := req_blog_author req;
             Notification.user := user_id;
             Notification.comment := Some new_id;
             Notification.reply := None;
             Notification.replied_on_comment := None |} ])
  ∧ (∀ replying_to, req_replying_to req = Some replying_to →
     replying_to ≠ new_id →
     ∃ replyingToCommentDoc,
       Comments db !! replying_to = Some replyingToCommentDoc
       ∧ Notifications db'
         = Notifications db
           ++ [ {| Notification.type := "reply";
                   Notification.blog := req_id req;
                   Notification.notification_for :=
                     Comment.commented_by replyingToCommentDoc;
                   Notification.user := user_id;
                   Notification.comment := Some new_id;
                   Notification.reply := None;
                   Notification.replied_on_comment := Some replying_to |} ]).
Proof.
  unfold add_comment, notificationObj.
  destruct (String.length (req_comment req) =? 0)%nat; [done|].
  intros H. split.
  - intros E. rewrite E in *. by injection H as <- _.
  - intros p E Hp. rewrite E in *. simpl in H.
    rewrite lookup_insert_ne in H by done.
    destruct (Comments db !! p) as [pc|]; [|done].
    injection H as <- _. eauto.
Qed.

Lemma add_comment_notification_witness :
  ∃ db' body,
    add_comment 11 101 3%positive (Scenario.answer "second" 10) Scenario.db1
    = (db', Json 200 body)
    ∧ ∃ replyingToCommentDoc,
        Comments Scenario.db1 !! 10%positive = Some replyingToCommentDoc
        ∧ Notifications db'
          = Notifications Scenario.db1
            ++ [ {| Notification.type := "reply";
                    Notification.blog := 5%positive;
                    Notification.notification_for :=
                      Comment.commented_by replyingToCommentDoc;
                    Notification.user := 3%positive;
                    Notification.comment := Some 11%positive;
                    Notification.reply := None;
                    Notification.replied_on_comment := Some 10%positive |} ].
Proof.
  pose (r := add_comment 11 101 3%positive (Scenario.answer "second" 10) Scenario.db1).
  assert (Hrun : r = (r.1, Json 200 (Created "second" 101 11 3 []))) by reflexivity.
  exists r.1, (Created "second" 101 11 3 []). split; [exact Hrun|].
  apply (add_comment_notification 11 101 3%positive (Scenario.answer "second" 10)
           Scenario.db1 r.1 _ Hrun); [reflexivity|discriminate].
Defined.

(** ** [/delete-comment] and repeated deletion *)

(** A deletion never brings a comment into the collection. *)
Lemma delete_one_absent (_id : positive) (comment : Comment.doc) (db : DB)
    (i : positive) :
  Comments db !! i = None → Comments (delete_one _id comment db) !! i = None.
Proof.
  intros H. rewrite Comments_delete_one.
  destruct (Comment.parent comment) as [p|].
  - rewrite lookup_alter_None. by apply lookup_delete_None; right.
  - by apply lookup_delete_None; right.
Qed.

Lemma delete_one_gone (_id : positive) (comment : Comment.doc) (db : DB) :
  Comments (delete_one _id comment db) !! _id = None.
Proof.
  rewrite Comments_delete_one.
  destruct (Comment.parent comment) as [p|].
  - rewrite lookup_alter_None. apply lookup_delete_eq.
  - apply lookup_delete_eq.
Qed.

Lemma deleteComments_absent (fuel : nat) (_id : positive) (db db' : DB)
    (i : positive) :
  deleteComments fuel _id db = Some db' →
  Comments db !! i = None → Comments db' !! i = None.
Proof.
  revert fuel _id db db'.
  apply (deleteComments_rel (λ a b, Comments a !! i = None → Comments b !! i = None));
    [auto | auto | ].
  intros _id comment db _. apply delete_one_absent.
Qed.

Lemma deleteComments_gone (fuel : nat) (_id : positive) (db db' : DB) :
  deleteComments fuel _id db = Some db' → Comments db' !! _id = None.
Proof.
  destruct fuel as [|fuel]; [done|]. simpl.
  destruct (Comments db !! _id) as [comment|] eqn:E.
  - intros H.
    refine (foldl_bind_rel (deleteComments fuel)
              (λ a b, Comments a !! _id = None → Comments b !! _id = None)
              _ _ _ _ _ _ H (delete_one_gone _id comment db)); [auto | auto | ].
    intros x a a' Hx. by apply deleteComments_absent with fuel x.
  - by intros [= <-].
Qed.

(** Once [deleteComments] has run on an id, the comment is gone, and
    running it on that id again, directly or through [/delete-comment],
    leaves the whole database as it is (in particular [total_comments]
    and [total_parent_comments] are not touched again).  The handler
    reads a field of the [null] it gets from [findOne]: it throws, and
    no response is sent. *)
Lemma deleteComments_twice (fuel : nat) (_id : positive) (db db1 : DB) :
  deleteComments fuel _id db = Some db1 →
  Comments db1 !! _id = None
  ∧ (∀ fuel', deleteComments (S fuel') _id db1 = Some db1)
  ∧ (∀ user_id, delete_comment user_id _id db1 = Some (db1, NoResponse)).
Proof.
  intros H. apply deleteComments_gone in H.
  split; [done|]. split.
  - intros fuel'. simpl. by rewrite H.
  - intros user_id. unfold delete_comment. by rewrite H.
Qed.

(** C5. A second [/delete-comment] on a deleted id is neither a no-op
    that answers nor a failure that is reported.  User [2] deletes their
    comment [10] of [Scenario.db2] and is answered [done]; the comment
    is gone.  The same request again gets no response at all: [findOne]
    yields [null], the handler reads [comment.commented_by] and throws
    inside a [.then] that has no [.catch].  What does hold is that
    nothing is decremented again: the database, and with it both
    counters of the blog, is left as it was, and [deleteComments]
    itself, called on the removed id, changes nothing. *)
Theorem delete_comment_again_no_response :
  ∃ db1,
    delete_comment 2%positive 10%positive Scenario.db2
    = Some (db1, Json 200 (Status "done"))
    ∧ Comments db1 !! 10%positive = None
    ∧ delete_comment 2%positive 10%positive db1 = Some (db1, NoResponse)
    ∧ deleteComments 3 10%positive db1 = Some db1.
Proof.
  eexists. split; [vm_compute; reflexivity|].
  repeat split; vm_compute; reflexivity.
Qed.

(** C6. [/delete-comment] on a stored comment by a user who is neither
    its [commented_by] nor its [blog_author] answers 403 with an error,
    and the database (comments, notifications, blogs and their counters)
    is the one of before. *)
Theorem delete_comment_not_allowed (user_id _id : positive) (db : DB)
    (comment : Comment.doc) :
  Comments db !! _id = Some comment →
  user_id ≠ Comment.commented_by comment →
  user_id ≠ Comment.blog_author comment →
  delete_comment user_id _id db
  = Some (db, Json 403 (Error "Cannot delete this comment")).
Proof.
  intros Hc H1 H2. unfold delete_comment. rewrite Hc.
  apply Pos.eqb_neq in H1, H2. by rewrite H1, H2.
Qed.

Lemma delete_comment_not_allowed_witness :
  delete_comment 4%positive 11%positive Scenario.db2
  = Some (Scenario.db2, Json 403 (Error "Cannot delete this comment")).
Proof.
  apply (delete_comment_not_allowed 4%positive 11%positive Scenario.db2
           (commentObj 3%positive 101 (Scenario.answer "second" 10)));
    [reflexivity | discriminate | discriminate].
Defined.

(** The author of the comment and the author of the blog do get through:
    the handler then answers [done]. *)
Lemma delete_comment_allowed (user_id _id : positive) (db : DB)
    (comment : Comment.doc) :
  Comments db !! _id = Some comment →
  user_id = Comment.commented_by comment ∨ user_id = Comment.blog_author comment →
  ∃ db', deleteComments (deleteComments_fuel db) _id db = Some db'
         ∧ delete_comment user_id _id db = Some (db', Json 200 (Status "done")).
Proof.
  intros Hc Hu. unfold delete_comment. rewrite Hc.
  destruct (deleteComments_enough_fuel _id db) as [db' E]. exists db'.
  split; [done|]. rewrite E. simpl.
  destruct Hu as [<-| <-]; rewrite Pos.eqb_refl; by rewrite ?orb_true_r.
Qed.

(** ** Counters of the blog under deletion *)

(** One deletion lowers [total_comments] of the comment's blog by one
    and overwrites [total_parent_comments]: with [0] when the comment
    has a parent, with [-1] when it has none. *)
Lemma delete_one_counters (_id : positive) (comment : Comment.doc) (db : DB)
    (b : Blog.doc) :
  Blogs db !! Comment.blog_id comment = Some b →
  ∃ b', Blogs (delete_one _id comment db) !! Comment.blog_id comment = Some b'
    ∧ Blog.total_comments (Blog.activity b')
      = Blog.total_comments (Blog.activity b) - 1
    ∧ Blog.total_parent_comments (Blog.activity b')
      = match Comment.parent comment with Some _ => 0 | None => -1 end.
Proof.
  intros Hb. exists (on_comment_deleted _id comment b).
  rewrite Blogs_delete_one, lookup_alter_eq, Hb. simpl.
  split; [done|]. split; [lia|done].
Qed.

Lemma comments_of_set_children (bid : positive) (f : list positive → list positive)
    (p : positive) (m : gmap positive Comment.doc) :
  comments_of bid (alter (Comment.set_children f) p m) = comments_of bid m.
Proof.
  unfold comments_of. rewrite <- !size_dom. f_equal.
  apply set_eq. intros i. rewrite !elem_of_dom. unfold is_Some.
  setoid_rewrite map_lookup_filter_Some. setoid_rewrite lookup_alter_Some.
  split.
  - intros (c' & [(-> & c & Hc & ->)|(_ & Hc)] & HP); simpl in *; eauto.
  - intros (c & Hc & HP). destruct (decide (p = i)) as [->|Hne]; simpl in *.
    + exists (Comment.set_children f c). split; [left; eauto|done].
    + exists c. split; [right; eauto|done].
Qed.

Lemma comments_of_delete (bid _id : positive) (comment : Comment.doc)
    (m : gmap positive Comment.doc) :
  m !! _id = Some comment →
  comments_of bid (delete _id m)
  = (comments_of bid m - if decide (Comment.blog_id comment = bid) then 1 else 0)%nat.
Proof.
  intros H. unfold comments_of. rewrite map_filter_delete, map_size_delete.
  rewrite map_lookup_filter, H. simpl.
  destruct (decide (Comment.blog_id comment = bid)) as [E|E].
  - rewrite option_guard_True by done. simpl. lia.
  - rewrite option_guard_False by done. simpl. lia.
Qed.

(** Whatever the stored comments and their links: on a stored blog, a
    call of [deleteComments] lowers [total_comments] by exactly the
    number of comments of that blog that it removes. *)
Lemma deleteComments_total_comments (bid : positive) (fuel : nat) (_id : positive)
    (db db' : DB) (b : Blog.doc) :
  deleteComments fuel _id db = Some db' →
  Blogs db !! bid = Some b →
  ∃ b', Blogs db' !! bid = Some b'
    ∧ Blog.total_comments (Blog.activity b')
      = Blog.total_comments (Blog.activity b)
        - (Z.of_nat (comments_of bid (Comments db))
           - Z.of_nat (comments_of bid (Comments db')))
    ∧ (comments_of bid (Comments db') ≤ comments_of bid (Comments db))%nat.
Proof.
  intros H. revert b. revert fuel _id db db' H.
  apply (deleteComments_rel (λ x y, ∀ b, Blogs x !! bid = Some b →
           ∃ b', Blogs y !! bid = Some b'
             ∧ Blog.total_comments (Blog.activity b')
               = Blog.total_comments (Blog.activity b)
                 - (Z.of_nat (comments_of bid (Comments x))
                    - Z.of_nat (comments_of bid (Comments y)))
             ∧ (comments_of bid (Comments y) ≤ comments_of bid (Comments x))%nat)).
  - intros x b Hb. exists b. split; [done|]. split; lia.
  - intros x y z Hxy Hyz b Hb.
    destruct (Hxy b Hb) as (b1 & Hb1 & E1 & L1).
    destruct (Hyz b1 Hb1) as (b2 & Hb2 & E2 & L2).
    exists b2. split; [done|]. split; lia.
  - intros _id comment db Hc b Hb.
    assert (Hn : comments_of bid (Comments (delete_one _id comment db))
                 = (comments_of bid (Comments db)
                    - if decide (Comment.blog_id comment = bid) then 1 else 0)%nat).
    { rewrite Comments_delete_one.
      destruct (Comment.parent comment); rewrite ?comments_of_set_children;
        by apply comments_of_delete. }
    assert (Hpos : Comment.blog_id comment = bid →
                   (0 < comments_of bid (Comments db))%nat).
    { intros E. unfold comments_of.
      destruct (size _) eqn:E0; [|lia]. apply map_size_empty_inv in E0.
      assert (Hin : filter (λ kv, Comment.blog_id kv.2 = bid) (Comments db) !! _id
                    = Some comment) by (by apply map_lookup_filter_Some).
      rewrite E0 in Hin. by rewrite lookup_empty in Hin. }
    rewrite Blogs_delete_one, Hn.
    destruct (decide (Comment.blog_id comment = bid)) as [E|E].
    + specialize (Hpos E). rewrite E, lookup_alter_eq, Hb. simpl.
      eexists. split; [done|]. simpl. clear Hc Hb. split; lia.
    + rewrite lookup_alter_ne by done. exists b. split; [done|].
      clear Hc Hb. split; lia.
Qed.

(** C1. Blog [5] of [Scenario.db3] has three comments, two of them
    top-level ([10] and [12]).  Deleting the reply [11] lowers
    [total_comments] to [2] and puts [total_parent_comments] to [0],
    although both top-level comments are still there; deleting instead
    the top-level comment [12] puts [total_parent_comments] to [-1]. *)
Theorem deleteComments_overwrites_total_parent_comments :
  Scenario.counters Scenario.db3 = Some (3, 2)
  ∧ Scenario.counters <$> deleteComments 4 11%positive Scenario.db3 = Some (Some (2, 0))
  ∧ Scenario.ids <$> deleteComments 4 11%positive Scenario.db3
    = Some [10%positive; 12%positive]
  ∧ Scenario.counters <$> deleteComments 4 12%positive Scenario.db3 = Some (Some (2, -1)).
Proof. vm_compute. repeat split; reflexivity. Qed.

(** C2. In [Scenario.db3] the top-level comment [10] has one descendant,
    the reply [11].  Deleting [10] removes both and leaves [12];
    [total_comments] goes from [3] to [1], and [total_parent_comments]
    from [2] to [0], where one top-level comment is left. *)
Theorem deleteComments_subtree_counters :
  Scenario.counters Scenario.db3 = Some (3, 2)
  ∧ Scenario.ids <$> deleteComments 4 10%positive Scenario.db3 = Some [12%positive]
  ∧ Scenario.counters <$> deleteComments 4 10%positive Scenario.db3 = Some (Some (1, 0)).
Proof. vm_compute. repeat split; reflexivity. Qed.

(** The scenario of the thread with one reply, start to end: the last
    deletion ends on [(0, 0)] because the reply is deleted last. *)
Example scenario_thread :
  Scenario.counters Scenario.db1 = Some (1, 1)
  ∧ Scenario.counters Scenario.db2 = Some (2, 1)
  ∧ Comment.children <$> Comments Scenario.db2 !! 10%positive = Some [11%positive]
  ∧ Scenario.counters <$> deleteComments 3 10%positive Scenario.db2 = Some (Some (0, 0))
  ∧ Scenario.ids <$> deleteComments 3 10%positive Scenario.db2 = Some [].
Proof. vm_compute. repeat split; reflexivity. Qed.

(** Deleting the reply [11] of [Scenario.db2] takes it out of the
    children of its parent [10] and removes its notification. *)
Example scenario_reply_deleted :
  Comment.children <$> Comments Scenario.db2 !! 10%positive = Some [11%positive]
  ∧ (λ db, Comment.children <$> Comments db !! 10%positive)
      <$> deleteComments 3 11%positive Scenario.db2 = Some (Some [])
  ∧ (λ db, Notification.comment <$> Notifications db)
      <$> deleteComments 3 11%positive Scenario.db2 = Some [Some 10%positive].
Proof. vm_compute. repeat split; reflexivity. Qed.

(** ** [/like-blog] *)

(** What [/like-blog] does when the request says [isLikedByUser = false]:
    [total_likes] goes up by one, at most one notification is removed,
    none is added, and the answer is [liked_by_user: false]. *)
Lemma like_blog_false (user_id _id : positive) (db : DB) :
  like_blog user_id _id false db
  = ({| Comments := Comments db;
        Notifications := findOneAndDelete (is_like_of user_id _id) (Notifications db);
        Blogs := alter (inc_total_likes 1) _id (Blogs db) |},
     Json 200 (Liked_by_user false)).
Proof. reflexivity. Qed.

(** What it does when the request says [isLikedByUser = true], on a
    stored blog: [total_likes] goes down by one, a like notification is
    added, and the answer is [liked_by_user: true]. *)
Lemma like_blog_true (user_id _id : positive) (db : DB) (blog : Blog.doc) :
  Blogs db !! _id = Some blog →
  like_blog user_id _id true db
  = ({| Comments := Comments db;
        Notifications := Notifications db ++ [like_notification user_id _id blog];
        Blogs := alter (inc_total_likes (-1)) _id (Blogs db) |},
     Json 200 (Liked_by_user true)).
Proof. intros H. unfold like_blog. simpl. by rewrite H. Qed.

(** C3. User [2] likes blog [5] of [Scenario.db0], which nobody has
    liked yet ([isLikedByUser = false]): [total_likes] becomes [1], no
    notification is stored and the answer is [liked_by_user: false].
    The same user then takes the like back ([isLikedByUser = true]):
    [total_likes] is [0] again, a like notification is now stored and
    the answer is [liked_by_user: true].  With that notification stored,
    one more request with [isLikedByUser = true] stores a second like
    notification of user [2] for blog [5]. *)
Theorem like_blog_branch_inverted :
  let r := like_blog 2%positive 5%positive false Scenario.db0 in
  let r' := like_blog 2%positive 5%positive true r.1 in
  let r'' := like_blog 2%positive 5%positive true r'.1 in
  Blog.total_likes ∘ Blog.activity <$> Blogs Scenario.db0 !! 5%positive = Some 0
  ∧ Notifications Scenario.db0 = []
  ∧ (Blog.total_likes ∘ Blog.activity <$> Blogs r.1 !! 5%positive = Some 1
     ∧ Notifications r.1 = []
     ∧ r.2 = Json 200 (Liked_by_user false))
  ∧ (Blog.total_likes ∘ Blog.activity <$> Blogs r'.1 !! 5%positive = Some 0
     ∧ Notifications r'.1 = [like_notification 2%positive 5%positive Scenario.blog0]
     ∧ r'.2 = Json 200 (Liked_by_user true))
  ∧ Notifications r''.1
    = [like_notification 2%positive 5%positive Scenario.blog0;
       like_notification 2%positive 5%positive Scenario.blog0].
Proof. vm_compute. repeat split; reflexivity. Qed.

(** ** Tree structure *)


Lemma only_shrinks_refl (a : DB) : only_shrinks a a.
Proof. intros i c H. exists c. auto. Qed.

Lemma only_shrinks_trans (a b c : DB) :
  only_shrinks a b → only_shrinks b c → only_shrinks a c.
Proof.
  intros Hab Hbc i c2 H2.
  destruct (Hbc i c2 H2) as (c1 & H1 & Hp1 & Hr1 & Hc1).
  destruct (Hab i c1 H1) as (c0 & H0 & Hp0 & Hr0 & Hc0).
  exists c0. repeat split; [done | congruence | congruence | auto].
Qed.

Lemma only_shrinks_delete_one (_id : positive) (comment : Comment.doc) (db : DB) :
  only_shrinks db (delete_one _id comment db).
Proof.
  intros i c'. rewrite Comments_delete_one.
  destruct (Comment.parent comment) as [p|].
  - rewrite lookup_alter_Some. intros [(-> & c & Hc & ->)|(_ & Hc)].
    + apply lookup_delete_Some in Hc as [_ Hc]. exists c.
      repeat split; [done|]. simpl. intros j Hj. by apply elem_of_pull in Hj as [_ Hj].
    + apply lookup_delete_Some in Hc as [_ Hc]. exists c'. auto.
  - intros Hc. apply lookup_delete_Some in Hc as [_ Hc]. exists c'. auto.
Qed.

Lemma unlinked_delete_one (_id : positive) (comment : Comment.doc) (db : DB) :
  Comments db !! _id = Some comment → unlinked db (delete_one _id comment db).
Proof.
  intros Hid i c p pc Hi Hgone Hp Hpc.
  rewrite Comments_delete_one in Hgone, Hpc.
  assert (i = _id) as ->.
  { destruct (decide (i = _id)) as [|Hne]; [done|exfalso].
    destruct (Comment.parent comment).
    - apply lookup_alter_None in Hgone. rewrite lookup_delete_ne in Hgone by done.
      congruence.
    - rewrite lookup_delete_ne in Hgone by done. congruence. }
  assert (c = comment) as -> by congruence.
  rewrite Hp in Hpc. rewrite lookup_alter_eq in Hpc.
  destruct (delete _id (Comments db) !! p) as [pc0|]; [|done].
  injection Hpc as <-. simpl. rewrite elem_of_pull. by intros [? _].
Qed.

Lemma cascade_trans (a b c : DB) :
  only_shrinks a b ∧ unlinked a b →
  only_shrinks b c ∧ unlinked b c →
  only_shrinks a c ∧ unlinked a c.
Proof.
  intros [Sab Uab] [Sbc Ubc]. split; [by apply only_shrinks_trans with b|].
  intros i ci p pc Hi Hgone Hp Hpc.
  destruct (Comments b !! i) as [ci'|] eqn:Eb.
  - destruct (Sab i ci' Eb) as (c0 & H0 & Hp0 & _).
    apply (Ubc i ci' p pc); [done | done | congruence | done].
  - destruct (Sbc p pc Hpc) as (pb & Hpb & _ & _ & Hsub).
    intros Hin. apply (Uab i ci p pb); auto.
Qed.

Lemma deleteComments_cascade (fuel : nat) (_id : positive) (db db' : DB) :
  deleteComments fuel _id db = Some db' → only_shrinks db db' ∧ unlinked db db'.
Proof.
  revert fuel _id db db'.
  apply (deleteComments_rel (λ a b, only_shrinks a b ∧ unlinked a b)).
  - intros a. split; [apply only_shrinks_refl|].
    intros i c p pc Hi Hgone. congruence.
  - apply cascade_trans.
  - intros _id comment db H.
    split; [apply only_shrinks_delete_one | by apply unlinked_delete_one].
Qed.

Lemma is_reply_inv_shrinks (a b : DB) :
  only_shrinks a b → is_reply_inv a → is_reply_inv b.
Proof.
  intros S Ha i c' Hc'. destruct (S i c' Hc') as (c & Hc & -> & -> & _). eauto.
Qed.

Lemma commentObj_is_reply (user_id : positive) (now : Z) (req : add_comment_body) :
  Comment.isReply (commentObj user_id now req) = Some true
  ↔ is_Some (Comment.parent (commentObj user_id now req)).
Proof.
  simpl. destruct (req_replying_to req); split; intros H; eauto; try done.
Qed.

Lemma is_reply_inv_insert (new_id : positive) (c : Comment.doc) (db : DB) :
  (Comment.isReply c = Some true ↔ is_Some (Comment.parent c)) →
  is_reply_inv db → is_reply_inv (with_Comments (insert new_id c) db).
Proof.
  intros Hc Hdb i c'. simpl. rewrite lookup_insert_Some.
  intros [[_ <-]|[_ H]]; eauto.
Qed.

Lemma is_reply_inv_set_children (f : list positive → list positive) (p : positive)
    (db : DB) :
  is_reply_inv db → is_reply_inv (with_Comments (alter (Comment.set_children f) p) db).
Proof.
  intros Hdb i c'. simpl. rewrite lookup_alter_Some.
  intros [(_ & c & Hc & ->)|[_ H]]; [apply (Hdb _ _ Hc) | eauto].
Qed.

Lemma is_reply_inv_add_comment (new_id : positive) (now : Z) (user_id : positive)
    (req : add_comment_body) (db : DB) :
  is_reply_inv db → is_reply_inv (add_comment new_id now user_id req db).1.
Proof.
  intros Hdb. unfold add_comment.
  destruct (String.length (req_comment req) =? 0)%nat; [done|].
  pose proof (is_reply_inv_insert new_id _ db (commentObj_is_reply user_id now req) Hdb)
    as Hins.
  destruct (req_replying_to req) as [p|] eqn:E; simpl; [|exact Hins].
  destruct (_ !! p); simpl; [|exact Hins].
  apply (is_reply_inv_set_children (push new_id) p) in Hins. exact Hins.
Qed.

Lemma is_reply_inv_like_blog (user_id _id : positive) (isLikedByUser : bool) (db : DB) :
  is_reply_inv db → is_reply_inv (like_blog user_id _id isLikedByUser db).1.
Proof.
  intros Hdb. unfold like_blog.
  destruct isLikedByUser; simpl; [|done]. by destruct (Blogs db !! _id).
Qed.

(** C10. The comment that [/add-comment] builds has [isReply] set
    exactly when it has a parent, and [/add-comment], [/like-blog],
    [deleteComments] and [/delete-comment] keep this true of all stored
    comments.  After [deleteComments] on [_id], the comment [_id] is
    gone, and every comment that the call has removed and that had a
    parent is no longer among the children of that parent, as far as the
    parent is still stored. *)
Theorem tree_structure_kept :
  (∀ user_id now req,
     Comment.isReply (commentObj user_id now req) = Some true
     ↔ is_Some (Comment.parent (commentObj user_id now req)))
  ∧ (∀ new_id now user_id req db,
       is_reply_inv db → is_reply_inv (add_comment new_id now user_id req db).1)
  ∧ (∀ user_id _id isLikedByUser db,
       is_reply_inv db → is_reply_inv (like_blog user_id _id isLikedByUser db).1)
  ∧ (∀ fuel _id db db',
       deleteComments fuel _id db = Some db' → is_reply_inv db → is_reply_inv db')
  ∧ (∀ user_id _id db,
       is_reply_inv db →
       ∃ db' response, delete_comment user_id _id db = Some (db', response)
                       ∧ is_reply_inv db')
  ∧ (∀ fuel _id db db',
       deleteComments fuel _id db = Some db' →
       Comments db' !! _id = None
       ∧ ∀ i c parent pc,
           Comments db !! i = Some c → Comments db' !! i = None →
           Comment.parent c = Some parent → Comments db' !! parent = Some pc →
           i ∉ Comment.children pc).
Proof.
  split; [apply commentObj_is_reply|].
  split; [apply is_reply_inv_add_comment|].
  split; [apply is_reply_inv_like_blog|].
  assert (Hdel : ∀ fuel _id db db',
            deleteComments fuel _id db = Some db' → is_reply_inv db → is_reply_inv db').
  { intros fuel _id db db' H. apply is_reply_inv_shrinks.
    by destruct (deleteComments_cascade _ _ _ _ H). }
  split; [exact Hdel|]. split.
  - intros user_id _id db Hdb. unfold delete_comment.
    destruct (Comments db !! _id) as [comment|]; [|eauto].
    destruct (_ || _); [|eauto].
    destruct (deleteComments_enough_fuel _id db) as [db' E]. rewrite E. simpl.
    eauto.
  - intros fuel _id db db' H. split; [by apply deleteComments_gone in H|].
    by destruct (deleteComments_cascade _ _ _ _ H).
Qed.

(** ** Notifications under deletion *)

Section first_match_facts.
Context {A : Type}.
Implicit Types (p q : A → bool) (f : A → A) (l : list A).


Lemma matches_findOneAndDelete p l :
  matches p (findOneAndDelete p l) = pred (matches p l).
Proof.
  induction l as [|x l IH]; simpl; [done|].
  destruct (p x) eqn:E; simpl; [done|]. by rewrite E.
Qed.

Lemma matches_findOneAndDelete_le p q l :
  (matches q (findOneAndDelete p l) ≤ matches q l
   ∧ pred (matches q l) ≤ matches q (findOneAndDelete p l))%nat.
Proof.
  induction l as [|x l IH]; simpl; [lia|].
  destruct (p x); simpl; destruct (q x); lia.
Qed.

Lemma elem_of_findOneAndDelete p l x :
  x ∈ l → p x = false → x ∈ findOneAndDelete p l.
Proof.
  induction l as [|y l IH]; simpl; [done|].
  intros Hin Hx. apply elem_of_cons in Hin as [->|Hin].
  - rewrite Hx. left.
  - destruct (p y); [done|]. right. auto.
Qed.

Lemma matches_findOneAndUpdate p f l :
  (∀ x, p x = true → p (f x) = false) →
  matches p (findOneAndUpdate p f l) = pred (matches p l).
Proof.
  intros Hf. induction l as [|x l IH]; simpl; [done|].
  destruct (p x) eqn:E; simpl; [by rewrite (Hf x E)|]. by rewrite E.
Qed.

Lemma matches_findOneAndUpdate_other p q f l :
  (∀ x, q (f x) = q x) →
  matches q (findOneAndUpdate p f l) = matches q l.
Proof.
  intros Hf. induction l as [|x l IH]; simpl; [done|].
  destruct (p x); simpl; [by rewrite Hf|by rewrite IH].
Qed.

Lemma elem_of_findOneAndUpdate p f l x :
  x ∈ l → x ∈ findOneAndUpdate p f l ∨ (p x = true ∧ f x ∈ findOneAndUpdate p f l).
Proof.
  induction l as [|y l IH]; simpl; [by intros ?%elem_of_nil|].
  intros Hin. destruct (p y) eqn:E.
  - apply elem_of_cons in Hin as [->|Hin].
    + right. split; [done|left].
    + left. by right.
  - apply elem_of_cons in Hin as [->|Hin]; [left; left|].
    destruct (IH Hin) as [H|[H1 H2]]; [left; by right|right].
    split; [done|by right].
Qed.

Lemma findOneAndDelete_first p l1 x l2 :
  Forall (λ y, p y = false) l1 → p x = true →
  findOneAndDelete p (l1 ++ x :: l2) = l1 ++ l2.
Proof.
  intros H Hx. induction H as [|y l1 Hy _ IH]; simpl; [by rewrite Hx|].
  by rewrite Hy, IH.
Qed.

Lemma findOneAndDelete_none p l :
  Forall (λ y, p y = false) l → findOneAndDelete p l = l.
Proof. induction 1 as [|y l Hy _ IH]; simpl; [done|]. by rewrite Hy, IH. Qed.

Lemma findOneAndUpdate_first p f l1 x l2 :
  Forall (λ y, p y = false) l1 → p x = true →
  findOneAndUpdate p f (l1 ++ x :: l2) = l1 ++ f x :: l2.
Proof.
  intros H Hx. induction H as [|y l1 Hy _ IH]; simpl; [by rewrite Hx|].
  by rewrite Hy, IH.
Qed.

Lemma findOneAndUpdate_none p f l :
  Forall (λ y, p y = false) l → findOneAndUpdate p f l = l.
Proof. induction 1 as [|y l Hy _ IH]; simpl; [done|]. by rewrite Hy, IH. Qed.

Lemma matches_0 p l : matches p l = 0%nat ↔ Forall (λ x, p x = false) l.
Proof.
  induction l as [|x l IH]; simpl.
  - split; [constructor|done].
  - rewrite Forall_cons, <- IH. destruct (p x); simpl.
    + split; [lia | by intros [? _]].
    + split; [intros ?; split; [done|lia] | intros [_ ?]; lia].
Qed.
End first_match_facts.


(** One deletion, of the comment [_id], changes the
    notifications in two steps, each on the first match in store order.
    First, the first notification whose [comment] is [_id] is deleted
    (none, if there is none); [rest] is what is left.  Then the first
    notification of [rest] whose [reply] is [_id] has its [reply] unset
    and stays where it is (none, if there is none).  Hence one
    notification fewer has [comment] equal to [_id]; a notification
    whose [comment] is not [_id] is never deleted: it is kept as it is
    or with nothing but its [reply] unset; and if at most one
    notification had [reply] equal to [_id], none has afterwards. *)
Lemma delete_one_notifications (_id : positive) (comment : Comment.doc) (db : DB) :
  let by_comment := λ n, refers_to (Notification.comment n) _id in
  let by_reply := λ n, refers_to (Notification.reply n) _id in
  let before := Notifications db in
  let rest := findOneAndDelete by_comment before in
  let after := Notifications (delete_one _id comment db) in
  (∀ l1 n l2, before = l1 ++ n :: l2 →
              Forall (λ m, by_comment m = false) l1 → by_comment n = true →
              rest = l1 ++ l2)
  ∧ (Forall (λ m, by_comment m = false) before → rest = before)
  ∧ (∀ k1 r k2, rest = k1 ++ r :: k2 →
                Forall (λ m, by_reply m = false) k1 → by_reply r = true →
                after = k1 ++ Notification.unset_reply r :: k2)
  ∧ (Forall (λ m, by_reply m = false) rest → after = rest)
  ∧ matches by_comment after = pred (matches by_comment before)
  ∧ (∀ n, n ∈ before → by_comment n = false →
          n ∈ after ∨ (by_reply n = true ∧ Notification.unset_reply n ∈ after))
  ∧ ((matches by_reply before ≤ 1)%nat →
     Forall (λ n, Notification.reply n ≠ Some _id) after).
Proof.
  intros by_comment by_reply before rest after.
  assert (Hafter : after = findOneAndUpdate by_reply Notification.unset_reply rest)
    by apply Notifications_delete_one.
  split; [|split; [|split; [|split; [|split; [|split]]]]].
  - intros l1 n l2 -> H1 Hn. by apply findOneAndDelete_first.
  - apply findOneAndDelete_none.
  - intros k1 r k2 E H1 Hr. rewrite Hafter, E. by apply findOneAndUpdate_first.
  - rewrite Hafter. apply findOneAndUpdate_none.
  - rewrite Hafter, matches_findOneAndUpdate_other by done.
    apply matches_findOneAndDelete.
  - intros n Hn Hc. rewrite Hafter. apply elem_of_findOneAndUpdate.
    by apply elem_of_findOneAndDelete.
  - intros H1.
    assert (H0 : matches by_reply after = 0%nat).
    { rewrite Hafter, matches_findOneAndUpdate by done.
      pose proof (matches_findOneAndDelete_le by_comment by_reply before) as [Hle _].
      fold rest in Hle. lia. }
    apply matches_0 in H0. eapply Forall_impl; [exact H0|].
    intros n Hn E. unfold by_reply in Hn. rewrite E in Hn. simpl in Hn.
    by rewrite Pos.eqb_refl in Hn.
Qed.

(** ** Likes *)

Lemma find_findOneAndDelete_other {A : Type} (p q : A → bool) (l : list A) :
  (∀ x, p x = true → q x = false) →
  List.find q (findOneAndDelete p l) = List.find q l.
Proof.
  intros H. induction l as [|x l IH]; simpl; [done|].
  destruct (p x) eqn:E; simpl; [by rewrite (H x E)|]. by rewrite IH.
Qed.

Lemma find_findOneAndDelete_same {A : Type} (p : A → bool) (l : list A) :
  (matches p l ≤ 1)%nat → List.find p (findOneAndDelete p l) = None.
Proof.
  induction l as [|x l IH]; simpl; [done|].
  destruct (p x) eqn:E; simpl.
  - intros H. assert (H0 : matches p l = 0%nat) by lia.
    apply matches_0 in H0. clear -H0.
    induction H0 as [|y l Hy _ IH]; simpl; [done|]. by rewrite Hy.
  - rewrite E. auto.
Qed.

Lemma find_snoc {A : Type} (q : A → bool) (l : list A) (x : A) :
  List.find q (l ++ [x])
  = match List.find q l with
    | Some y => Some y
    | None => if q x then Some x else None
    end.
Proof.
  induction l as [|y l IH]; simpl; [done|]. by destruct (q y).
Qed.

Lemma is_like_of_like_notification (user_id _id : positive) (blog : Blog.doc) :
  is_like_of user_id _id (like_notification user_id _id blog) = true.
Proof. unfold is_like_of. simpl. by rewrite !Pos.eqb_refl. Qed.

Lemma is_like_of_other (user_id _id user_id' _id' : positive) (n : Notification.doc) :
  (user_id', _id') ≠ (user_id, _id) →
  is_like_of user_id _id n = true → is_like_of user_id' _id' n = false.
Proof.
  unfold is_like_of. intros Hne H.
  apply andb_true_iff in H as [H _]. apply andb_true_iff in H as [Hu Hb].
  apply Pos.eqb_eq in Hu, Hb.
  destruct (Pos.eqb_spec (Notification.user n) user_id') as [E1|]; [|done].
  destruct (Pos.eqb_spec (Notification.blog n) _id') as [E2|]; [|done].
  congruence.
Qed.

Lemma alter_absent {V : Type} (f : V → V) (i : positive) (m : gmap positive V) :
  m !! i = None → alter f i m = m.
Proof.
  intros H. apply map_eq. intros j. rewrite lookup_alter.
  case_decide as E; [|done]. subst j. by rewrite H.
Qed.

(** X1. The flag that [/like-blog] answers is the one that
    [/isliked-by-user] reports next for the same user and blog: after a
    request with [isLikedByUser = true] on a stored blog a like
    notification is found, and after a request with
    [isLikedByUser = false] none is, provided at most one was stored. *)
Theorem like_blog_then_isliked (user_id _id : positive) (isLikedByUser : bool)
    (db : DB) :
  (isLikedByUser = true → is_Some (Blogs db !! _id)) →
  (matches (is_like_of user_id _id) (Notifications db) ≤ 1)%nat →
  (like_blog user_id _id isLikedByUser db).2
  = Json 200 (Liked_by_user
                (bool_decide
                   (is_Some (isliked_by_user user_id _id
                               (like_blog user_id _id isLikedByUser db).1)))).
Proof.
  intros Hblog Hone. unfold like_blog, isliked_by_user.
  destruct isLikedByUser; simpl.
  - destruct (Hblog eq_refl) as [blog ->]. simpl.
    rewrite find_snoc, is_like_of_like_notification.
    by destruct (List.find _ _).
  - by rewrite find_findOneAndDelete_same.
Qed.

Lemma like_blog_then_isliked_witness :
  (like_blog 2%positive 5%positive true Scenario.db0).2
  = Json 200 (Liked_by_user
                (bool_decide
                   (is_Some (isliked_by_user 2%positive 5%positive
                               (like_blog 2%positive 5%positive true Scenario.db0).1)))).
Proof.
  apply (like_blog_then_isliked 2%positive 5%positive true Scenario.db0).
  - intros _. exists Scenario.blog0. reflexivity.
  - simpl. lia.
Defined.

(** X2. A request to [/like-blog] for one user and blog leaves the
    answer of [/isliked-by-user] for every other pair of user and blog
    as it was. *)
Theorem like_blog_other_pair (user_id _id user_id' _id' : positive)
    (isLikedByUser : bool) (db : DB) :
  (user_id', _id') ≠ (user_id, _id) →
  isliked_by_user user_id' _id' (like_blog user_id _id isLikedByUser db).1
  = isliked_by_user user_id' _id' db.
Proof.
  intros Hne. unfold like_blog, isliked_by_user.
  destruct isLikedByUser; simpl.
  - destruct (Blogs db !! _id) as [blog|]; simpl; [|done].
    rewrite find_snoc.
    rewrite (is_like_of_other user_id _id user_id' _id' _ Hne
               (is_like_of_like_notification user_id _id blog)).
    by destruct (List.find _ _).
  - apply find_findOneAndDelete_other. intros n. by apply is_like_of_other.
Qed.

Lemma like_blog_other_pair_witness :
  isliked_by_user 3%positive 5%positive
    (like_blog 2%positive 5%positive true Scenario.db0).1
  = isliked_by_user 3%positive 5%positive Scenario.db0.
Proof.
  apply (like_blog_other_pair 2%positive 5%positive 3%positive 5%positive true
           Scenario.db0).
  discriminate.
Defined.

(** X3. [/like-blog] on a blog that is not stored: with
    [isLikedByUser = true] the callback throws on [blog.author], no
    response is sent and nothing is written; with
    [isLikedByUser = false] the handler answers 200 all the same, and
    the blogs and comments are those of before. *)
Theorem like_blog_missing_blog (user_id _id : positive) (db : DB) :
  Blogs db !! _id = None →
  like_blog user_id _id true db = (db, NoResponse)
  ∧ (like_blog user_id _id false db).2 = Json 200 (Liked_by_user false)
  ∧ Blogs (like_blog user_id _id false db).1 = Blogs db
  ∧ Comments (like_blog user_id _id false db).1 = Comments db.
Proof.
  intros H. unfold like_blog, with_Blogs, with_Notifications. simpl. rewrite H.
  rewrite !alter_absent by done. destruct db; simpl. auto.
Qed.

Lemma like_blog_missing_blog_witness :
  like_blog 2%positive 6%positive true Scenario.db0 = (Scenario.db0, NoResponse)
  ∧ (like_blog 2%positive 6%positive false Scenario.db0).2
    = Json 200 (Liked_by_user false)
  ∧ Blogs (like_blog 2%positive 6%positive false Scenario.db0).1 = Blogs Scenario.db0
  ∧ Comments (like_blog 2%positive 6%positive false Scenario.db0).1
    = Comments Scenario.db0.
Proof.
  apply (like_blog_missing_blog 2%positive 6%positive Scenario.db0). reflexivity.
Defined.

(** ** What [/add-comment] stores *)

Lemma add_comment_run (new_id : positive) (now : Z) (user_id : positive)
    (req : add_comment_body) (db : DB) :
  String.length (req_comment req) ≠ 0%nat →
  add_comment new_id now user_id req db
  = let commentFile := commentObj user_id now req in
    let db1 :=
      {| Comments := <[new_id := commentFile]> (Comments db);
         Notifications := Notifications db;
         Blogs := alter (on_comment_added new_id (req_replying_to req)) (req_id req)
                    (Blogs db) |} in
    let created :=
      Json 200 (Created (req_comment req) now new_id user_id []) in
    match req_replying_to req with
    | Some replying_to =>
        match Comments db1 !! replying_to with
        | Some replyingToCommentDoc =>
            ({| Comments :=
                  alter (Comment.set_children (push new_id)) replying_to (Comments db1);
                Notifications :=
                  Notifications db
                  ++ [notificationObj user_id new_id req
                        (Comment.commented_by replyingToCommentDoc)];
                Blogs := Blogs db1 |}, created)
        | None => (db1, NoResponse)
        end
    | None =>
        ({| Comments := Comments db1;
            Notifications :=
              Notifications db
              ++ [notificationObj user_id new_id req (req_blog_author req)];
            Blogs := Blogs db1 |}, created)
    end.
Proof.
  intros Hne. unfold add_comment.
  destruct (Nat.eqb_spec (String.length (req_comment req)) 0) as [E|_]; [done|].
  reflexivity.
Qed.

(** X4. When [/add-comment] answers 200 for a reply to a comment other
    than the new one, the new comment is stored under its id as the
    handler built it, the parent has the new id appended to its
    children and is otherwise as before, every other comment is
    untouched, and the commented blog has the new id appended to its
    list of comments. *)
Theorem add_comment_stored (new_id : positive) (now : Z) (user_id : positive)
    (req : add_comment_body) (db db' : DB) (body : Body) :
  add_comment new_id now user_id req db = (db', Json 200 body) →
  req_replying_to req ≠ Some new_id →
  body = Created (req_comment req) now new_id user_id []
  ∧ Comments db' !! new_id = Some (commentObj user_id now req)
  ∧ (∀ replying_to, req_replying_to req = Some replying_to →
       ∃ pc, Comments db !! replying_to = Some pc
             ∧ Comments db' !! replying_to
               = Some (Comment.set_children (λ l, l ++ [new_id]) pc))
  ∧ (∀ i, i ≠ new_id → req_replying_to req ≠ Some i →
          Comments db' !! i = Comments db !! i)
  ∧ (∀ b, Blogs db !! req_id req = Some b →
          Blog.comments <$> Blogs db' !! req_id req = Some (Blog.comments b ++ [new_id])).
Proof.
  intros Hrun Hp.
  pose proof (add_comment_sent _ _ _ _ _ _ _ Hrun) as Hne.
  rewrite (add_comment_run _ _ _ _ _ Hne) in Hrun. simpl in Hrun.
  destruct (req_replying_to req) as [p|] eqn:E.
  - assert (Hpn : new_id ≠ p) by congruence.
    rewrite lookup_insert_ne in Hrun by done.
    destruct (Comments db !! p) as [pc|] eqn:Epc; [|done].
    injection Hrun as <- <-. simpl.
    split; [done|]. split; [by rewrite lookup_alter_ne, lookup_insert_eq|].
    split; [|split].
    + intros ? [= <-]. exists pc. split; [done|].
      by rewrite lookup_alter_eq, lookup_insert_ne, Epc.
    + intros i Hi Hip. rewrite lookup_alter_ne by congruence.
      by rewrite lookup_insert_ne.
    + intros b Hb. by rewrite lookup_alter_eq, Hb.
  - injection Hrun as <- <-. simpl.
    split; [done|]. split; [by rewrite lookup_insert_eq|].
    split; [done|]. split.
    + intros i Hi _. by rewrite lookup_insert_ne.
    + intros b Hb. by rewrite lookup_alter_eq, Hb.
Qed.

Lemma add_comment_stored_witness :
  ∃ db' body,
    add_comment 11 101 3%positive (Scenario.answer "second" 10) Scenario.db1
    = (db', Json 200 body)
    ∧ Comments db' !! 11%positive
      = Some (commentObj 3%positive 101 (Scenario.answer "second" 10))
    ∧ Blog.comments <$> Blogs db' !! 5%positive = Some [10%positive; 11%positive].
Proof.
  pose (r := add_comment 11 101 3%positive (Scenario.answer "second" 10) Scenario.db1).
  assert (Hrun : r = (r.1, Json 200 (Created "second" 101 11 3 []))) by reflexivity.
  destruct (add_comment_stored 11 101 3%positive (Scenario.answer "second" 10)
              Scenario.db1 r.1 _ Hrun) as (_ & Hnew & _ & _ & Hblog); [discriminate|].
  exists r.1, (Created "second" 101 11 3 []).
  split; [exact Hrun|]. split; [exact Hnew|].
  apply (Hblog (on_comment_added 10 None Scenario.blog0)). reflexivity.
Defined.

(** X5. A reply to a comment that is not stored: the callback throws on
    the [null] parent, so no response is sent and no notification is
    stored, but the reply has been saved with its dangling [parent] and
    [total_comments] of a stored blog has been raised by one. *)
Theorem add_comment_missing_parent (new_id : positive) (now : Z) (user_id : positive)
    (req : add_comment_body) (db : DB) (replying_to : positive) :
  String.length (req_comment req) ≠ 0%nat →
  req_replying_to req = Some replying_to →
  replying_to ≠ new_id →
  Comments db !! replying_to = None →
  let r := add_comment new_id now user_id req db in
  r.2 = NoResponse
  ∧ Notifications r.1 = Notifications db
  ∧ Comments r.1 = <[new_id := commentObj user_id now req]> (Comments db)
  ∧ Comments r.1 !! replying_to = None
  ∧ (∀ b, Blogs db !! req_id req = Some b →
          Blog.total_comments ∘ Blog.activity <$> Blogs r.1 !! req_id req
          = Some (Blog.total_comments (Blog.activity b) + 1)).
Proof.
  intros Hne E Hp Hmiss r. unfold r.
  rewrite (add_comment_run _ _ _ _ _ Hne). simpl. rewrite E.
  rewrite lookup_insert_ne by done. rewrite Hmiss. simpl.
  split; [done|]. split; [done|]. split; [done|].
  split; [by rewrite lookup_insert_ne|].
  intros b Hb. by rewrite lookup_alter_eq, Hb.
Qed.

Lemma add_comment_missing_parent_witness :
  let r := add_comment 11 101 3%positive (Scenario.answer "second" 10) Scenario.db0 in
  r.2 = NoResponse
  ∧ Notifications r.1 = []
  ∧ Comments r.1 !! 10%positive = None
  ∧ Blog.total_comments ∘ Blog.activity <$> Blogs r.1 !! 5%positive = Some 1.
Proof.
  destruct (add_comment_missing_parent 11 101 3%positive (Scenario.answer "second" 10)
              Scenario.db0 10%positive) as (H1 & H2 & _ & H4 & H5);
    [discriminate | reflexivity | discriminate | reflexivity |].
  simpl. split; [exact H1|]. split; [exact H2|]. split; [exact H4|].
  apply (H5 Scenario.blog0). reflexivity.
Defined.

(** ** Adding a comment and deleting it again *)

Lemma pull_push_fresh (i : positive) (l : list positive) :
  i ∉ l → pull i (push i l) = l.
Proof.
  intros Hi. unfold pull, push. rewrite filter_app. simpl.
  rewrite filter_cons_False, filter_nil, app_nil_r by (intros H; by apply H).
  induction l as [|j l IH]; [done|].
  apply not_elem_of_cons in Hi as [Hne Hl].
  rewrite filter_cons_True by done. by rewrite IH.
Qed.

Lemma on_comment_deleted_added (new_id : positive) (comment : Comment.doc)
    (replying_to : option positive) (b : Blog.doc) :
  new_id ∉ Blog.comments b →
  on_comment_deleted new_id comment (on_comment_added new_id replying_to b)
  = set_total_parent_comments
      (match Comment.parent comment with Some _ => 0 | None => -1 end) b.
Proof.
  intros Hi. unfold on_comment_deleted, on_comment_added, set_total_parent_comments.
  simpl. rewrite pull_push_fresh by done.
  do 2 f_equal. lia.
Qed.

(** X6. Adding a comment and deleting it again.  Let the new id be
    fresh: not stored as a comment, not referred to by any notification,
    not listed in the blog or, for a reply, among the children of the
    stored parent.  Then [deleteComments] on the comment that
    [/add-comment] has just stored gives back the comments and the
    notifications of before, and the blogs of before except that
    [total_parent_comments] of the commented blog is now [-1] for a
    top-level comment and [0] for a reply. *)
Theorem add_then_delete (new_id : positive) (now : Z) (user_id : positive)
    (req : add_comment_body) (db : DB) (fuel : nat) :
  String.length (req_comment req) ≠ 0%nat →
  Comments db !! new_id = None →
  Forall (λ n, refers_to (Notification.comment n) new_id = false
               ∧ refers_to (Notification.reply n) new_id = false) (Notifications db) →
  (∀ b, Blogs db !! req_id req = Some b → new_id ∉ Blog.comments b) →
  (∀ replying_to, req_replying_to req = Some replying_to →
     ∃ pc, Comments db !! replying_to = Some pc ∧ new_id ∉ Comment.children pc) →
  deleteComments (S fuel) new_id (add_comment new_id now user_id req db).1
  = Some {| Comments := Comments db;
            Notifications := Notifications db;
            Blogs :=
              alter (set_total_parent_comments
                       (match req_replying_to req with Some _ => 0 | None => -1 end))
                    (req_id req) (Blogs db) |}.
Proof.
  intros Hne Hfresh Hnot Hblog Hparent.
  assert (Hc : Forall (λ n, refers_to (Notification.comment n) new_id = false)
                 (Notifications db)) by (eapply Forall_impl; [exact Hnot|]; by intros ? [? _]).
  assert (Hr : Forall (λ n, refers_to (Notification.reply n) new_id = false)
                 (Notifications db)) by (eapply Forall_impl; [exact Hnot|]; by intros ? [_ ?]).
  assert (Hblogs : ∀ comment replying_to,
            Comment.parent comment = replying_to →
            alter (on_comment_deleted new_id comment) (req_id req)
              (alter (on_comment_added new_id replying_to) (req_id req) (Blogs db))
            = alter (set_total_parent_comments
                       (match replying_to with Some _ => 0 | None => -1 end))
                (req_id req) (Blogs db)).
  { intros comment replying_to <-.
    apply map_eq. intros i.
    destruct (decide (req_id req = i)) as [<-|Hi];
      [|by rewrite !lookup_alter_ne].
    rewrite !lookup_alter_eq.
    destruct (Blogs db !! req_id req) as [b|] eqn:Eb; simpl; [|done].
    f_equal. apply on_comment_deleted_added. eauto. }
  rewrite (add_comment_run _ _ _ _ _ Hne). simpl.
  destruct (req_replying_to req) as [p|] eqn:E.
  - destruct (Hparent p eq_refl) as (pc & Hpc & Hch).
    assert (Hpn : new_id ≠ p) by congruence.
    rewrite lookup_insert_ne by done. rewrite Hpc. simpl.
    rewrite lookup_alter_ne, lookup_insert_eq by done. simpl.
    unfold delete_one, with_Comments, with_Notifications, with_Blogs. simpl.
    rewrite E. simpl. f_equal. f_equal.
    + apply map_eq. intros i. rewrite lookup_alter.
      case_decide as Ei.
      * subst i. rewrite lookup_delete_ne, lookup_alter_eq, lookup_insert_ne, Hpc by done.
        simpl. f_equal. destruct pc; unfold Comment.set_children; simpl in *.
        by rewrite pull_push_fresh.
      * destruct (decide (i = new_id)) as [->|Hi].
        -- by rewrite lookup_delete_eq.
        -- by rewrite lookup_delete_ne, lookup_alter_ne, lookup_insert_ne.
    + rewrite (findOneAndDelete_first _ _ _ []), app_nil_r; [|done|].
      * by apply findOneAndUpdate_none.
      * simpl. by rewrite Pos.eqb_refl.
    + apply Hblogs. simpl. by rewrite E.
  - cbn [fst Comments]. rewrite lookup_insert_eq. simpl.
    unfold delete_one, with_Comments, with_Notifications, with_Blogs. simpl.
    rewrite E. simpl. f_equal. f_equal.
    + by rewrite delete_insert_eq, delete_id.
    + rewrite (findOneAndDelete_first _ _ _ []), app_nil_r; [|done|].
      * by apply findOneAndUpdate_none.
      * simpl. by rewrite Pos.eqb_refl.
    + apply Hblogs. simpl. by rewrite E.
Qed.

Lemma add_then_delete_witness :
  deleteComments 1 11%positive
    (add_comment 11 101 3%positive (Scenario.answer "second" 10) Scenario.db1).1
  = Some {| Comments := Comments Scenario.db1;
            Notifications := Notifications Scenario.db1;
            Blogs := alter (set_total_parent_comments 0) 5%positive
                       (Blogs Scenario.db1) |}.
Proof.
  apply (add_then_delete 11 101 3%positive (Scenario.answer "second" 10)
           Scenario.db1 0).
  - discriminate.
  - reflexivity.
  - repeat constructor.
  - intros b [= <-]. simpl. intros H. apply list_elem_of_singleton in H. discriminate.
  - intros p [= <-]. eexists. split; [reflexivity|]. simpl. apply not_elem_of_nil.
Defined.

(** ** The cascade removes the subtree, and nothing else *)

Lemma same_but_children_refl (c : Comment.doc) : same_but_children c c.
Proof. split; [by destruct c|auto]. Qed.

Lemma same_but_children_trans (c0 c1 c2 : Comment.doc) :
  same_but_children c0 c1 → same_but_children c1 c2 → same_but_children c0 c2.
Proof.
  intros [E1 S1] [E2 S2]. split; [|auto].
  rewrite E2, E1. by destruct c0.
Qed.

Lemma kept_as_refl (a : DB) : kept_as a a.
Proof.
  split; [|auto]. intros i c Hc. exists c.
  split; [done|]. split; [apply same_but_children_refl|]. by intros j ? ?.
Qed.

Lemma kept_as_trans (a b c : DB) : kept_as a b → kept_as b c → kept_as a c.
Proof.
  intros [Sab Aab] [Sbc Abc]. split; [|auto].
  intros i c2 H2.
  destruct (Sbc i c2 H2) as (c1 & H1 & E12 & D12).
  destruct (Sab i c1 H1) as (c0 & H0 & E01 & D01).
  exists c0. split; [done|]. split; [by apply same_but_children_trans with c1|].
  intros j Hj Hnj. destruct (decide (j ∈ Comment.children c1)) as [Hin|Hout]; eauto.
Qed.

Lemma kept_as_delete_one (_id : positive) (comment : Comment.doc) (db : DB) :
  kept_as db (delete_one _id comment db).
Proof.
  split.
  - intros i c'. rewrite Comments_delete_one.
    assert (Hplain : delete _id (Comments db) !! i = Some c' →
              ∃ c, Comments db !! i = Some c ∧ same_but_children c c'
                   ∧ ∀ j, j ∈ Comment.children c → j ∉ Comment.children c' →
                          delete _id (Comments db) !! j = None).
    { intros Hc. apply lookup_delete_Some in Hc as [_ Hc]. exists c'.
      split; [done|]. split; [apply same_but_children_refl|]. by intros j ? ?. }
    destruct (Comment.parent comment) as [p|]; [|exact Hplain].
    rewrite lookup_alter_Some. intros [(-> & c & Hc & ->)|(Hne & Hc)].
    + apply lookup_delete_Some in Hc as [_ Hc]. exists c.
      split; [done|]. split.
      * split; [by destruct c|]. simpl. intros j Hj.
        by apply elem_of_pull in Hj as [_ Hj].
      * simpl. intros j Hj Hnj. rewrite lookup_alter_None.
        destruct (decide (j = _id)) as [->|Hne]; [apply lookup_delete_eq|].
        exfalso. apply Hnj. by apply elem_of_pull.
    + destruct (Hplain Hc) as (c & H0 & E & D). exists c.
      split; [done|]. split; [done|]. intros j Hj Hnj.
      rewrite lookup_alter_None. eauto.
  - apply delete_one_absent.
Qed.

Lemma deleteComments_kept_as (fuel : nat) (_id : positive) (db db' : DB) :
  deleteComments fuel _id db = Some db' → kept_as db db'.
Proof.
  revert fuel _id db db'. apply (deleteComments_rel kept_as).
  - apply kept_as_refl.
  - apply kept_as_trans.
  - intros _id comment db _. apply kept_as_delete_one.
Qed.

Lemma delete_one_others (_id : positive) (comment : Comment.doc) (db : DB)
    (i : positive) (c : Comment.doc) :
  i ≠ _id → Comments db !! i = Some c →
  ∃ c1, Comments (delete_one _id comment db) !! i = Some c1
        ∧ ∀ j, j ∈ Comment.children c → j ≠ _id → j ∈ Comment.children c1.
Proof.
  intros Hne Hc. rewrite Comments_delete_one.
  destruct (Comment.parent comment) as [p|].
  - destruct (decide (p = i)) as [->|Hp].
    + exists (Comment.set_children (pull _id) c).
      rewrite lookup_alter_eq, lookup_delete_ne, Hc by done.
      split; [done|]. simpl. intros j Hj Hji. by apply elem_of_pull.
    + exists c. rewrite lookup_alter_ne, lookup_delete_ne by done. auto.
  - exists c. rewrite lookup_delete_ne by done. auto.
Qed.

Lemma children_gone_trans (a b c : DB) :
  kept_as a b → children_gone a b → kept_as b c → children_gone b c →
  children_gone a c.
Proof.
  intros [Sab Aab] Cab [Sbc Abc] Cbc i ci Hi Hgone j Hj.
  destruct (Comments b !! i) as [ci'|] eqn:Eb.
  - destruct (Sab i ci' Eb) as (c0 & H0 & _ & D).
    assert (c0 = ci) as -> by congruence.
    destruct (decide (j ∈ Comment.children ci')) as [Hin|Hout].
    + by apply (Cbc i ci' Eb Hgone).
    + apply Abc. by apply D.
  - apply Abc. by apply (Cab i ci Hi Eb).
Qed.

(** The calls on a list of ids, one after the other: if each call
    leaves the children of what it removed unstored, so does the whole
    run, and none of the ids is stored at the end. *)
Lemma cascade_fold (f : positive → DB → option DB) :
  (∀ x d d', f x d = Some d' →
             kept_as d d' ∧ children_gone d d' ∧ Comments d' !! x = None) →
  ∀ l d d', foldl (λ acc x, acc ≫= f x) (Some d) l = Some d' →
            kept_as d d' ∧ children_gone d d'
            ∧ ∀ x, x ∈ l → Comments d' !! x = None.
Proof.
  intros Hf l. induction l as [|x l IH]; simpl; intros d d' H.
  - injection H as <-. split; [apply kept_as_refl|].
    split; [|by intros x ?%elem_of_nil]. intros i c Hi Hgone. congruence.
  - destruct (f x d) as [d1|] eqn:E; [|by rewrite foldl_bind_None in H].
    destruct (Hf _ _ _ E) as (K1 & C1 & G1).
    destruct (IH _ _ H) as (K2 & C2 & G2).
    split; [by apply kept_as_trans with d1|].
    split; [by apply children_gone_trans with d1|].
    intros y Hy. apply elem_of_cons in Hy as [->|Hy]; [|auto].
    destruct K2 as [_ A2]. auto.
Qed.

Lemma deleteComments_children_gone (fuel : nat) :
  ∀ (_id : positive) (db db' : DB),
    deleteComments fuel _id db = Some db' → children_gone db db'.
Proof.
  induction fuel as [|fuel IH]; intros _id db db' H; [done|].
  simpl in H. destruct (Comments db !! _id) as [comment|] eqn:E.
  - apply (cascade_fold (deleteComments fuel)) in H as (K & C & G).
    + intros i ci Hi Hgone j Hj.
      destruct (decide (i = _id)) as [->|Hne].
      * assert (ci = comment) as -> by congruence. auto.
      * destruct (delete_one_others _id comment db i ci Hne Hi) as (c1 & H1 & Hsub).
        destruct (decide (j = _id)) as [->|Hj'].
        -- destruct K as [_ A]. apply A, delete_one_gone.
        -- apply (C i c1 H1 Hgone). auto.
    + intros x d d' Hx. split; [by apply deleteComments_kept_as in Hx|].
      split; [by apply IH in Hx|by apply deleteComments_gone in Hx].
  - injection H as <-. intros i c Hi Hgone. congruence.
Qed.

Lemma reaches_kept_as (a b : DB) (x i : positive) :
  kept_as a b → reaches b x i → reaches a x i.
Proof.
  intros [S _]. induction 1 as [i|x c' y i Hx Hy _ IH]; [constructor|].
  destruct (S x c' Hx) as (c & Hc & [_ Hsub] & _).
  apply reaches_child with c y; auto.
Qed.

Lemma deleteComments_removed_reachable (fuel : nat) :
  ∀ (_id : positive) (db db' : DB),
    deleteComments fuel _id db = Some db' →
    ∀ i, is_Some (Comments db !! i) → Comments db' !! i = None →
         reaches db _id i.
Proof.
  induction fuel as [|fuel IH]; intros _id db db' H i Hi Hgone; [done|].
  simpl in H. destruct (Comments db !! _id) as [comment|] eqn:E.
  - destruct (decide (i = _id)) as [->|Hne]; [constructor|].
    destruct Hi as [ci Hi].
    destruct (delete_one_others _id comment db i ci Hne Hi) as (c1 & H1 & _).
    assert (Hsome : is_Some (Comments (delete_one _id comment db) !! i)) by eauto.
    pose proof (kept_as_delete_one _id comment db) as K.
    assert (Hfold : ∃ x, x ∈ Comment.children comment ∧ reaches db x i).
    { clear H1 Hi E. revert K Hsome H.
      generalize (delete_one _id comment db) as d.
      induction (Comment.children comment) as [|x l IHl]; simpl; intros d K Hsome H.
      - injection H as <-. destruct Hsome as [? ?]. congruence.
      - destruct (deleteComments fuel x d) as [d1|] eqn:Ex;
          [|by rewrite foldl_bind_None in H].
        destruct (Comments d1 !! i) as [c2|] eqn:E1.
        + destruct (IHl d1) as (y & Hy & Hr); eauto.
          * apply kept_as_trans with d; [done|]. by apply deleteComments_kept_as in Ex.
          * exists y. split; [by right|done].
        + exists x. split; [left|].
          apply reaches_kept_as with d; [done|]. by apply (IH x d d1). }
    destruct Hfold as (x & Hx & Hr). by apply reaches_child with comment x.
  - injection H as <-. destruct Hi as [? ?]. congruence.
Qed.

(** X7. [deleteComments] removes the stored comments that are reached
    from [_id] through child links, those and no others, whatever the
    links look like.  A comment that stays is the one of before, less
    some children, and a child taken out of it is one that was
    removed. *)
Theorem deleteComments_removes_subtree (fuel : nat) (_id : positive) (db db' : DB) :
  deleteComments fuel _id db = Some db' →
  (∀ i, Comments db' !! i = None ↔ Comments db !! i = None ∨ reaches db _id i)
  ∧ (∀ i c', Comments db' !! i = Some c' →
       ∃ c, Comments db !! i = Some c ∧ same_but_children c c'
            ∧ ∀ j, j ∈ Comment.children c → j ∉ Comment.children c' →
                   Comments db' !! j = None).
Proof.
  intros H.
  pose proof (deleteComments_kept_as _ _ _ _ H) as [S A].
  pose proof (deleteComments_children_gone _ _ _ _ H) as C.
  split; [|exact S]. intros i. split.
  - intros Hgone. destruct (Comments db !! i) as [ci|] eqn:Ei; [right|by left].
    apply (deleteComments_removed_reachable fuel _id db db'); eauto.
  - intros [Habs|Hr]; [auto|].
    assert (Hstart : Comments db' !! _id = None) by (by apply deleteComments_gone in H).
    clear H. revert Hstart. induction Hr as [i|a c b i Ha Hb _ IH]; [done|].
    intros Hgone. apply IH. by apply (C a c).
Qed.

Lemma deleteComments_removes_subtree_witness :
  ∃ db', deleteComments 4 10%positive Scenario.db3 = Some db'
         ∧ Comments db' !! 11%positive = None
         ∧ is_Some (Comments db' !! 12%positive).
Proof.
  pose (r := deleteComments 4 10%positive Scenario.db3).
  pose (db' := default Scenario.db3 r).
  assert (Hrun : r = Some db') by (vm_compute; reflexivity).
  destruct (deleteComments_removes_subtree 4 10%positive Scenario.db3 db' Hrun)
    as [Hiff _].
  exists db'. split; [exact Hrun|]. split.
  - apply Hiff. right.
    apply (reaches_child Scenario.db3 10%positive
             (Comment.set_children (push 11%positive)
                (commentObj 2%positive 100 (Scenario.top "first")))
             11%positive 11%positive);
      [reflexivity | left | constructor].
  - destruct (Comments db' !! 12%positive) as [c|] eqn:E; [eauto|exfalso].
    apply Hiff in E as [E|E]; [discriminate E|].
    inversion E as [|a c b i Ha Hb Hr]; subst.
    vm_compute in Ha. injection Ha as <-. simpl in Hb.
    apply list_elem_of_singleton in Hb as ->.
    inversion Hr as [|a c b i Ha Hb' Hr']; subst.
    vm_compute in Ha. injection Ha as <-. simpl in Hb'. by apply elem_of_nil in Hb'.
Defined.

(** ** What the comment handlers leave alone *)

Lemma blogs_kept_refl (a : DB) : blogs_kept a a.
Proof. intros bid. split; [done|]. intros bb H. exists bb. auto. Qed.

Lemma blogs_kept_trans (a b c : DB) : blogs_kept a b → blogs_kept b c → blogs_kept a c.
Proof.
  intros Hab Hbc bid. destruct (Hab bid) as [N1 S1]. destruct (Hbc bid) as [N2 S2].
  split; [by rewrite N2|]. intros b2 H2.
  destruct (S2 b2 H2) as (b1 & H1 & E1 & L1).
  destruct (S1 b1 H1) as (b0 & H0 & E0 & L0).
  exists b0. split; [done|]. split; [congruence|auto].
Qed.

Lemma blogs_kept_delete_one (_id : positive) (comment : Comment.doc) (db : DB) :
  blogs_kept db (delete_one _id comment db).
Proof.
  intros bid. rewrite Blogs_delete_one. split; [apply lookup_alter_None|].
  intros bb. rewrite lookup_alter_Some. intros [(_ & ba & Ha & ->)|(_ & Ha)].
  - exists ba. split; [done|]. split; [done|]. simpl.
    intros j Hj. by apply elem_of_pull in Hj as [_ Hj].
  - exists bb. auto.
Qed.

Lemma unlisted_delete_one (_id : positive) (comment : Comment.doc) (db : DB) :
  Comments db !! _id = Some comment → unlisted db (delete_one _id comment db).
Proof.
  intros Hid i c bb Hi Hgone Hbb.
  assert (i = _id) as ->.
  { destruct (decide (i = _id)) as [|Hne]; [done|exfalso].
    destruct (delete_one_others _id comment db i c Hne Hi) as (c1 & H1 & _).
    congruence. }
  assert (c = comment) as -> by congruence.
  rewrite Blogs_delete_one, lookup_alter_eq in Hbb.
  destruct (Blogs db !! Comment.blog_id comment) as [ba|]; [|done].
  injection Hbb as <-. simpl. rewrite elem_of_pull. by intros [? _].
Qed.

Lemma same_but_children_blog_id (c c' : Comment.doc) :
  same_but_children c c' → Comment.blog_id c' = Comment.blog_id c.
Proof. intros [-> _]. done. Qed.

Lemma deleteComments_blogs_rel (fuel : nat) (_id : positive) (db db' : DB) :
  deleteComments fuel _id db = Some db' →
  kept_as db db' ∧ blogs_kept db db' ∧ unlisted db db'.
Proof.
  revert fuel _id db db'.
  apply (deleteComments_rel (λ a b, kept_as a b ∧ blogs_kept a b ∧ unlisted a b)).
  - intros a. split; [apply kept_as_refl|]. split; [apply blogs_kept_refl|].
    intros i c bb Hi Hgone. congruence.
  - intros a b c (Kab & Bab & Uab) (Kbc & Bbc & Ubc).
    split; [by apply kept_as_trans with b|].
    split; [by apply blogs_kept_trans with b|].
    intros i ci bb Hi Hgone Hbb.
    destruct (Comments b !! i) as [ci'|] eqn:Eb.
    + destruct Kab as [Sab _]. destruct (Sab i ci' Eb) as (c0 & H0 & E & _).
      assert (c0 = ci) as -> by congruence.
      apply (Ubc i ci' bb Eb Hgone). by rewrite (same_but_children_blog_id _ _ E).
    + destruct (Bbc (Comment.blog_id ci)) as [_ Sb].
      destruct (Sb bb Hbb) as (b1 & H1 & _ & L). intros Hin.
      apply (Uab i ci b1 Hi Eb H1). auto.
  - intros _id comment db H. split; [apply kept_as_delete_one|].
    split; [apply blogs_kept_delete_one | by apply unlisted_delete_one].
Qed.

(** X8. [deleteComments] neither adds nor removes a blog; every blog
    keeps its author, [total_likes] and [total_reads] and gets no new
    entry in its list of comments; and a comment that the call has
    removed is no longer in the list of its blog. *)
Theorem deleteComments_blogs (fuel : nat) (_id : positive) (db db' : DB) :
  deleteComments fuel _id db = Some db' →
  (∀ bid, Blogs db' !! bid = None ↔ Blogs db !! bid = None)
  ∧ (∀ bid bb, Blogs db' !! bid = Some bb →
       ∃ ba, Blogs db !! bid = Some ba
             ∧ Blog.author bb = Blog.author ba
             ∧ Blog.total_likes (Blog.activity bb) = Blog.total_likes (Blog.activity ba)
             ∧ Blog.total_reads (Blog.activity bb) = Blog.total_reads (Blog.activity ba)
             ∧ ∀ j, j ∈ Blog.comments bb → j ∈ Blog.comments ba)
  ∧ (∀ i c bb, Comments db !! i = Some c → Comments db' !! i = None →
               Blogs db' !! Comment.blog_id c = Some bb → i ∉ Blog.comments bb).
Proof.
  intros H. destruct (deleteComments_blogs_rel _ _ _ _ H) as (_ & B & U).
  split; [intros bid; apply B|]. split; [|exact U].
  intros bid bb Hbb. destruct (B bid) as [_ S].
  destruct (S bb Hbb) as (ba & Ha & E & L). exists ba.
  unfold likes_and_reads in E. injection E as E1 E2 E3. auto.
Qed.

Lemma deleteComments_blogs_witness :
  ∃ db', deleteComments 4 10%positive Scenario.db3 = Some db'
         ∧ ∀ bb, Blogs db' !! 5%positive = Some bb → 10%positive ∉ Blog.comments bb.
Proof.
  pose (r := deleteComments 4 10%positive Scenario.db3).
  pose (db' := default Scenario.db3 r).
  assert (Hrun : r = Some db') by (vm_compute; reflexivity).
  destruct (deleteComments_blogs 4 10%positive Scenario.db3 db' Hrun) as (_ & _ & U).
  exists db'. split; [exact Hrun|]. intros bb Hbb.
  apply (U 10%positive
           (Comment.set_children (push 11%positive)
              (commentObj 2%positive 100 (Scenario.top "first"))) bb);
    [reflexivity | reflexivity | exact Hbb].
Defined.

Lemma find_snoc_false {A : Type} (q : A → bool) (l : list A) (x : A) :
  q x = false → List.find q (l ++ [x]) = List.find q l.
Proof. intros H. rewrite find_snoc, H. by destruct (List.find q l). Qed.

Lemma is_like_of_notificationObj (u b user_id new_id : positive)
    (req : add_comment_body) (notification_for : positive) :
  is_like_of u b (notificationObj user_id new_id req notification_for) = false.
Proof.
  unfold is_like_of, notificationObj. simpl.
  destruct (req_replying_to req); simpl; by rewrite andb_false_r.
Qed.

(** X9. [/add-comment] has no effect on likes and reads: whatever the
    request and whatever comes of it, every blog keeps its author,
    [total_likes] and [total_reads], and [/isliked-by-user] answers for
    every user and blog what it answered before. *)
Theorem add_comment_keeps_likes (new_id : positive) (now : Z) (user_id : positive)
    (req : add_comment_body) (db : DB) :
  (∀ bid, likes_and_reads <$> Blogs (add_comment new_id now user_id req db).1 !! bid
          = likes_and_reads <$> Blogs db !! bid)
  ∧ (∀ u b, isliked_by_user u b (add_comment new_id now user_id req db).1
            = isliked_by_user u b db).
Proof.
  destruct (Nat.eqb_spec (String.length (req_comment req)) 0) as [E|Hne].
  - unfold add_comment. apply Nat.eqb_eq in E. rewrite E. simpl. auto.
  - rewrite (add_comment_run _ _ _ _ _ Hne). simpl. split.
    + intros bid.
      assert (HB : likes_and_reads
                   <$> alter (on_comment_added new_id (req_replying_to req))
                         (req_id req) (Blogs db) !! bid
                   = likes_and_reads <$> Blogs db !! bid).
      { rewrite lookup_alter. case_decide; [subst; by destruct (Blogs db !! _)|done]. }
      destruct (req_replying_to req) as [p|]; simpl; [|exact HB].
      destruct (_ !! p); exact HB.
    + intros u b. unfold isliked_by_user.
      destruct (req_replying_to req) as [p|] eqn:Ep; simpl.
      * destruct (_ !! p); simpl; [|done].
        apply find_snoc_false, is_like_of_notificationObj.
      * apply find_snoc_false, is_like_of_notificationObj.
Qed.

Lemma Forall_findOneAndDelete {A : Type} (P : A → Prop) (p : A → bool) (l : list A) :
  Forall P l → Forall P (findOneAndDelete p l).
Proof.
  induction 1 as [|x l Hx Hl IH]; simpl; [constructor|].
  destruct (p x); [done|by constructor].
Qed.

Lemma Forall_findOneAndUpdate {A : Type} (P : A → Prop) (p : A → bool) (f : A → A)
    (l : list A) :
  (∀ x, P x → P (f x)) → Forall P l → Forall P (findOneAndUpdate p f l).
Proof.
  intros Hf. induction 1 as [|x l Hx Hl IH]; simpl; [constructor|].
  destruct (p x); constructor; auto.
Qed.

Lemma find_findOneAndDelete_Forall {A : Type} (p q : A → bool) (l : list A) :
  Forall (λ x, p x = true → q x = false) l →
  List.find q (findOneAndDelete p l) = List.find q l.
Proof.
  induction 1 as [|x l Hx Hl IH]; simpl; [done|].
  destruct (p x) eqn:E; simpl; [by rewrite Hx|]. by rewrite IH.
Qed.

Lemma find_findOneAndUpdate_Forall {A : Type} (p q : A → bool) (f : A → A)
    (l : list A) :
  (∀ x, q (f x) = q x) →
  Forall (λ x, p x = true → q x = false) l →
  List.find q (findOneAndUpdate p f l) = List.find q l.
Proof.
  intros Hf. induction 1 as [|x l Hx Hl IH]; simpl; [done|].
  destruct (p x) eqn:E; simpl; [by rewrite Hf, Hx|]. by rewrite IH.
Qed.

Lemma is_like_of_type (u b : positive) (n : Notification.doc) :
  is_like_of u b n = true → Notification.type n = "like".
Proof.
  unfold is_like_of. intros H. apply andb_true_iff in H as [_ H].
  by apply String.eqb_eq in H.
Qed.

Lemma refers_to_Some (r : option positive) (i : positive) :
  refers_to r i = true → r = Some i.
Proof.
  destruct r as [j|]; simpl; [|done]. by intros ->%Pos.eqb_eq.
Qed.

Lemma delete_one_keeps_likes (_id : positive) (comment : Comment.doc) (db : DB) :
  likes_plain db →
  likes_plain (delete_one _id comment db)
  ∧ ∀ u b, isliked_by_user u b (delete_one _id comment db) = isliked_by_user u b db.
Proof.
  intros Hp. unfold likes_plain, isliked_by_user.
  rewrite Notifications_delete_one. split.
  - apply Forall_findOneAndUpdate; [|by apply Forall_findOneAndDelete].
    intros n Hn Ht. split; [by apply Hn|done].
  - intros u b. rewrite find_findOneAndUpdate_Forall.
    + apply find_findOneAndDelete_Forall. eapply Forall_impl; [exact Hp|].
      intros n Hn Hc. destruct (is_like_of u b n) eqn:E; [|done].
      apply refers_to_Some in Hc. destruct (Hn (is_like_of_type _ _ _ E)). congruence.
    + done.
    + apply Forall_findOneAndDelete. eapply Forall_impl; [exact Hp|].
      intros n Hn Hc. destruct (is_like_of u b n) eqn:E; [|done].
      apply refers_to_Some in Hc. destruct (Hn (is_like_of_type _ _ _ E)). congruence.
Qed.

(** X10. Deleting comments does not change who likes what: when the
    stored like notifications refer to no comment, as [/like-blog]
    writes them, [/isliked-by-user] answers after [deleteComments] for
    every user and blog what it answered before. *)
Theorem deleteComments_keeps_likes (fuel : nat) (_id : positive) (db db' : DB) :
  deleteComments fuel _id db = Some db' →
  likes_plain db →
  likes_plain db' ∧ ∀ u b, isliked_by_user u b db' = isliked_by_user u b db.
Proof.
  revert fuel _id db db'.
  apply (deleteComments_rel
           (λ x y, likes_plain x →
                   likes_plain y
                   ∧ ∀ u b, isliked_by_user u b y = isliked_by_user u b x)).
  - auto.
  - intros x y z Hxy Hyz Hx. destruct (Hxy Hx) as [Hy Exy].
    destruct (Hyz Hy) as [Hz Eyz]. split; [done|]. intros u b. by rewrite Eyz.
  - intros _id comment db _. apply delete_one_keeps_likes.
Qed.

Lemma deleteComments_keeps_likes_witness :
  ∃ db0 db',
    db0 = (like_blog 4%positive 5%positive true Scenario.db2).1
    ∧ deleteComments 3 10%positive db0 = Some db'
    ∧ isliked_by_user 4%positive 5%positive db'
      = Some (like_notification 4%positive 5%positive Scenario.blog0).
Proof.
  pose (db0 := (like_blog 4%positive 5%positive true Scenario.db2).1).
  pose (r := deleteComments 3 10%positive db0).
  pose (db' := default db0 r).
  assert (Hrun : r = Some db') by (vm_compute; reflexivity).
  assert (Hplain : likes_plain db0).
  { unfold likes_plain. vm_compute. repeat constructor; discriminate. }
  destruct (deleteComments_keeps_likes 3 10%positive db0 db' Hrun Hplain) as [_ E].
  exists db0, db'. split; [reflexivity|]. split; [exact Hrun|].
  rewrite E. reflexivity.
Defined.

(** ** Termination and the permission to delete *)

(** X11. [deleteComments] comes to an end on every store, child links
    that run in a circle included: each call that finds its comment
    removes it first, so one more unit of fuel than there are comments
    is enough, more fuel gives the same result, and no comment is
    added. *)
Theorem deleteComments_terminates (_id : positive) (db : DB) :
  ∃ db', deleteComments (S (size (Comments db))) _id db = Some db'
         ∧ (∀ fuel, (size (Comments db) < fuel)%nat →
                    deleteComments fuel _id db = Some db')
         ∧ (size (Comments db') ≤ size (Comments db))%nat.
Proof.
  destruct (deleteComments_total (S (size (Comments db))) _id db)
    as (db' & H & Hle); [lia|].
  exists db'. split; [done|]. split; [|done].
  intros fuel Hlt. apply (deleteComments_fuel_mono (S (size (Comments db)))); [lia|done].
Qed.

(** X12. [/delete-comment] by the author of the comment or by the
    author of its blog answers [done], and afterwards the comment is
    not stored. *)
Theorem delete_comment_by_author (user_id _id : positive) (db : DB)
    (comment : Comment.doc) :
  Comments db !! _id = Some comment →
  user_id = Comment.commented_by comment ∨ user_id = Comment.blog_author comment →
  ∃ db', delete_comment user_id _id db = Some (db', Json 200 (Status "done"))
         ∧ Comments db' !! _id = None.
Proof.
  intros Hc Hu.
  destruct (delete_comment_allowed user_id _id db comment Hc Hu) as (db' & Hrun & Hroute).
  exists db'. split; [done|]. by apply deleteComments_gone in Hrun.
Qed.

Lemma delete_comment_by_author_witness :
  ∃ db', delete_comment 1%positive 11%positive Scenario.db2
         = Some (db', Json 200 (Status "done"))
         ∧ Comments db' !! 11%positive = None.
Proof.
  apply (delete_comment_by_author 1%positive 11%positive Scenario.db2
           (commentObj 3%positive 101 (Scenario.answer "second" 10)));
    [reflexivity | right; reflexivity].
Defined.

(** X13. On a stored blog, a call of [deleteComments] lowers
    [total_comments] by exactly the number of comments of that blog that
    it removes, whatever the stored comments and their links. *)
Theorem deleteComments_counts_removed (bid : positive) (fuel : nat) (_id : positive)
    (db db' : DB) (b : Blog.doc) :
  deleteComments fuel _id db = Some db' →
  Blogs db !! bid = Some b →
  ∃ b', Blogs db' !! bid = Some b'
    ∧ Blog.total_comments (Blog.activity b')
      = Blog.total_comments (Blog.activity b)
        - (Z.of_nat (comments_of bid (Comments db))
           - Z.of_nat (comments_of bid (Comments db'))).
Proof.
  intros H Hb.
  destruct (deleteComments_total_comments bid fuel _id db db' b H Hb) as (b' & ? & ? & _).
  eauto.
Qed.

Lemma deleteComments_counts_removed_witness :
  ∃ db' b',
    deleteComments 4 10%positive Scenario.db3 = Some db'
    ∧ Blogs db' !! 5%positive = Some b'
    ∧ Blog.total_comments (Blog.activity b')
      = 3 - (Z.of_nat (comments_of 5%positive (Comments Scenario.db3))
             - Z.of_nat (comments_of 5%positive (Comments db'))).
Proof.
  pose (r := deleteComments 4 10%positive Scenario.db3).
  pose (db' := default Scenario.db3 r).
  assert (Hrun : r = Some db') by (vm_compute; reflexivity).
  pose (b := on_comment_added 12 None
               (on_comment_added 11 (Some 10%positive)
                  (on_comment_added 10 None Scenario.blog0))).
  assert (Hb : Blogs Scenario.db3 !! 5%positive = Some b) by reflexivity.
  destruct (deleteComments_counts_removed 5%positive 4 10%positive Scenario.db3 db' b
              Hrun Hb) as (b' & Hb' & Htc).
  exists db', b'. split; [exact Hrun|]. split; [exact Hb'|exact Htc].
Defined.

(** A store whose child links run in a circle: [1] lists [2] and [2]
    lists [1].  The call removes both and stops. *)
Example deleteComments_on_a_cycle :
  let c (child : positive) :=
    Comment.set_children (λ _, [child]) (commentObj 2%positive 100 (Scenario.top "x")) in
  let db := {| Comments := {[ 1%positive := c 2%positive; 2%positive := c 1%positive ]};
               Notifications := []; Blogs := ∅ |} in
  Scenario.ids <$> deleteComments 3 1%positive db = Some [].
Proof. vm_compute. reflexivity. Qed.

(** ** [verifyJWT] *)

Lemma split_cons (sep : N) (s : jsstring) :
  ∃ piece pieces, split sep s = piece :: pieces.
Proof.
  induction s as [|c s (p & ps & IH)]; simpl; [eauto|].
  destruct (c =? sep)%N; [eauto|]. rewrite IH. eauto.
Qed.

Lemma split_no_sep (sep : N) (s : jsstring) : sep ∉ s → split sep s = [s].
Proof.
  induction s as [|c s IH]; simpl; [done|].
  intros H. apply not_elem_of_cons in H as [Hne Hs].
  destruct (N.eqb_spec c sep) as [E|_]; [congruence|]. by rewrite IH.
Qed.

Lemma split_second_None (sep : N) (s : jsstring) :
  split sep s !! 1%nat = None ↔ sep ∉ s.
Proof.
  split.
  - induction s as [|c s IH]; simpl; [intros _; apply not_elem_of_nil|].
    destruct (N.eqb_spec c sep) as [E|Hne].
    + destruct (split_cons sep s) as (p & ps & ->). done.
    + destruct (split_cons sep s) as (p & ps & E). rewrite E in *. simpl.
      intros H. apply not_elem_of_cons. split; [congruence|]. by apply IH.
  - intros H. by rewrite split_no_sep.
Qed.

Lemma split_app (sep : N) (s t : jsstring) :
  sep ∉ s → split sep (s ++ sep :: t) = s :: split sep t.
Proof.
  induction s as [|c s IH]; simpl; intros H.
  - by rewrite N.eqb_refl.
  - apply not_elem_of_cons in H as [Hne Hs].
    destruct (N.eqb_spec c sep) as [E|_]; [congruence|]. by rewrite IH.
Qed.

(** X14. [verifyJWT] answers 401 exactly when the [authorization] header
    is absent, or is not empty and has no space in it.  The empty
    header is its own token and goes on to [jwt.verify]. *)
Theorem verifyJWT_no_token (jwt_verify : jsstring → option positive)
    (authHeader : option jsstring) :
  verifyJWT jwt_verify authHeader = Rejected 401 "No access token"
  ↔ authHeader = None ∨ ∃ header, authHeader = Some header ∧ header ≠ [] ∧ 32%N ∉ header.
Proof.
  unfold verifyJWT.
  assert (Hsome : ∀ t, match jwt_verify t with
                       | Some user => Next user
                       | None => Rejected 403 "Invalid access token"
                       end ≠ Rejected 401 "No access token")
    by (intros t; by destruct (jwt_verify t)).
  destruct authHeader as [[|c h]|]; unfold token_of.
  - split; [intros H; by apply Hsome in H|].
    intros [?|(h & [= <-] & ? & _)]; done.
  - destruct (split 32%N (c :: h) !! 1%nat) as [t|] eqn:E.
    + split; [intros H; by apply Hsome in H|].
      intros [?|(h' & [= <-] & _ & Hno)]; [done|].
      apply split_second_None in Hno. congruence.
    + apply split_second_None in E. split; [|done]. intros _. right. eauto.
  - split; [by left|done].
Qed.

(** X15. A header of the form [scheme token] or [scheme token more],
    with no space inside [scheme] and [token], is decided by
    [jwt.verify] on [token]: the request goes on as the user of the
    token if it verifies and gets 403 otherwise. *)
Theorem verifyJWT_token (jwt_verify : jsstring → option positive)
    (scheme token more : jsstring) :
  32%N ∉ scheme → 32%N ∉ token →
  let decided :=
    match jwt_verify token with
    | Some user => Next user
    | None => Rejected 403 "Invalid access token"
    end in
  verifyJWT jwt_verify (Some (scheme ++ 32%N :: token)) = decided
  ∧ verifyJWT jwt_verify (Some (scheme ++ 32%N :: token ++ 32%N :: more)) = decided.
Proof.
  intros Hs Ht decided. unfold verifyJWT, token_of.
  assert (H1 : split 32%N (scheme ++ 32%N :: token) !! 1%nat = Some token)
    by (by rewrite split_app, split_no_sep).
  assert (H2 : split 32%N (scheme ++ 32%N :: token ++ 32%N :: more) !! 1%nat = Some token)
    by (by rewrite split_app, split_app).
  split.
  - destruct (scheme ++ 32%N :: token) eqn:E; [by destruct scheme|]. by rewrite H1.
  - destruct (scheme ++ 32%N :: token ++ 32%N :: more) eqn:E; [by destruct scheme|].
    by rewrite H2.
Qed.

Lemma verifyJWT_token_witness :
  verifyJWT (λ t, if bool_decide (t = js "abc") then Some 7%positive else None)
    (Some (js "Bearer abc"))
  = Next 7%positive.
Proof.
  refine (proj1 (verifyJWT_token
                   (λ t, if bool_decide (t = js "abc") then Some 7%positive else None)
                   (js "Bearer") (js "abc") [] _ _)); vm_compute; intros H;
    repeat (apply elem_of_cons in H as [H|H]; [discriminate H|]);
    by apply elem_of_nil in H.
Defined.

(** ** The [blog_id] of a new blog *)

Lemma in_range_spec (lo hi c : N) :
  in_range lo hi c = true ↔ (lo ≤ c ∧ c ≤ hi)%N.
Proof. unfold in_range. rewrite andb_true_iff, !N.leb_le. done. Qed.

Lemma in_range_false (lo hi c : N) :
  (c < lo ∨ hi < c)%N → in_range lo hi c = false.
Proof.
  intros H. destruct (in_range lo hi c) eqn:E; [|done].
  apply in_range_spec in E. lia.
Qed.

Lemma is_alnum_bounds (c : N) : is_alnum c = true → (48 ≤ c ≤ 122)%N.
Proof.
  unfold is_alnum, is_lower, is_upper, is_digit.
  rewrite !orb_true_iff, !in_range_spec. lia.
Qed.

Lemma is_alnum_not_space (c : N) : is_alnum c = true → is_space c = false.
Proof.
  intros H%is_alnum_bounds. unfold is_space.
  repeat apply orb_false_intro;
    try (apply in_range_false; lia); apply N.eqb_neq; lia.
Qed.

Lemma is_alnum_not_dash (c : N) : is_alnum c = true → c ≠ 45%N.
Proof. intros H%is_alnum_bounds. lia. Qed.

Lemma replace_non_alnum_shape (s : jsstring) :
  Forall (λ c, is_alnum c = true ∨ c = 32%N) (replace_non_alnum s).
Proof.
  unfold replace_non_alnum. induction s as [|c s IH]; csimpl; constructor; [|done].
  destruct (is_alnum c) eqn:E; auto.
Qed.

Lemma replace_spaces_shape (in_run : bool) (s : jsstring) :
  Forall (λ c, is_alnum c = true ∨ c = 32%N) s →
  Forall (λ c, is_alnum c = true ∨ c = 45%N) (replace_spaces in_run s).
Proof.
  intros H. revert in_run. induction H as [|c s Hc _ IH]; intros in_run; simpl; [done|].
  destruct Hc as [Hc| ->].
  - rewrite (is_alnum_not_space _ Hc). constructor; auto.
  - change (is_space 32) with true. simpl. destruct in_run; [auto|constructor; auto].
Qed.

Lemma replace_spaces_head (s : jsstring) :
  Forall (λ c, is_alnum c = true ∨ c = 32%N) s →
  replace_spaces true s !! 0%nat ≠ Some 45%N.
Proof.
  induction 1 as [|c s Hc _ IH]; simpl; [done|].
  destruct Hc as [Hc| ->].
  - rewrite (is_alnum_not_space _ Hc). simpl. intros [= E].
    by apply is_alnum_not_dash in Hc.
  - change (is_space 32) with true. simpl. exact IH.
Qed.

Lemma replace_spaces_no_double (in_run : bool) (s : jsstring) (k : nat) :
  Forall (λ c, is_alnum c = true ∨ c = 32%N) s →
  replace_spaces in_run s !! k = Some 45%N →
  replace_spaces in_run s !! S k ≠ Some 45%N.
Proof.
  intros H. revert in_run k. induction H as [|c s Hc Hs IH]; intros in_run k; simpl; [done|].
  destruct Hc as [Hc| ->].
  - rewrite (is_alnum_not_space _ Hc). destruct k as [|k]; simpl.
    + intros [= E]. by apply is_alnum_not_dash in Hc.
    + apply IH.
  - change (is_space 32) with true. simpl. destruct in_run; [apply IH|].
    destruct k as [|k]; simpl; [intros _; by apply replace_spaces_head|apply IH].
Qed.

Lemma trim_start_id (s : jsstring) :
  Forall (λ c, is_space c = false) s → trim_start s = s.
Proof. destruct 1 as [|c s Hc _]; simpl; [done|]. by rewrite Hc. Qed.

Lemma trim_id (s : jsstring) : Forall (λ c, is_space c = false) s → trim s = s.
Proof.
  intros H. unfold trim. rewrite (trim_start_id s H).
  rewrite trim_start_id by (by apply Forall_reverse). apply reverse_involutive.
Qed.

Lemma filter_replace_non_alnum (s : jsstring) :
  List.filter is_alnum (replace_non_alnum s) = List.filter is_alnum s.
Proof.
  unfold replace_non_alnum. induction s as [|c s IH]; csimpl; [done|].
  destruct (is_alnum c) eqn:E; [by rewrite E, IH|]. simpl. exact IH.
Qed.

Lemma filter_replace_spaces (in_run : bool) (s : jsstring) :
  List.filter is_alnum (replace_spaces in_run s) = List.filter is_alnum s.
Proof.
  revert in_run. induction s as [|c s IH]; intros in_run; simpl; [done|].
  destruct (is_space c) eqn:Es.
  - assert (Ea : is_alnum c = false).
    { destruct (is_alnum c) eqn:Ea; [|done].
      apply is_alnum_not_space in Ea. congruence. }
    rewrite Ea. destruct in_run; simpl; apply IH.
  - simpl. by rewrite IH.
Qed.

Lemma replace_alnum_id (s : jsstring) :
  Forall (λ c, is_alnum c = true) s →
  replace_spaces false (replace_non_alnum s) = s.
Proof.
  unfold replace_non_alnum. induction 1 as [|c s Hc _ IH]; csimpl; [done|].
  rewrite Hc, (is_alnum_not_space _ Hc). by rewrite IH.
Qed.

Lemma slug_untrimmed (title : jsstring) :
  slug title = replace_spaces false (replace_non_alnum title).
Proof.
  apply trim_id.
  eapply Forall_impl; [exact (replace_spaces_shape false _ (replace_non_alnum_shape title))|].
  intros c [Hc| ->]; [by apply is_alnum_not_space|done].
Qed.

(** X16. The slug that [/create-blog] makes of a title consists of
    letters, digits and ["-"] only, has no two ["-"] in a row, and keeps
    the letters and digits of the title in their order.  The final
    [trim] changes nothing, so the slug begins or ends with ["-"] when
    the title begins or ends with something else than a letter or
    digit.  A title of letters and digits is its own slug. *)
Theorem slug_shape (title : jsstring) :
  slug title = replace_spaces false (replace_non_alnum title)
  ∧ Forall (λ c, is_alnum c = true ∨ c = 45%N) (slug title)
  ∧ (∀ k, slug title !! k = Some 45%N → slug title !! S k ≠ Some 45%N)
  ∧ List.filter is_alnum (slug title) = List.filter is_alnum title
  ∧ (∀ c rest, title = c :: rest → is_alnum c = false →
               slug title !! 0%nat = Some 45%N)
  ∧ (Forall (λ c, is_alnum c = true) title → slug title = title).
Proof.
  pose proof (replace_spaces_shape false _ (replace_non_alnum_shape title)) as Hshape.
  rewrite slug_untrimmed. split; [done|]. split; [done|]. split.
  { intros k. apply replace_spaces_no_double, replace_non_alnum_shape. }
  split; [by rewrite filter_replace_spaces, filter_replace_non_alnum|]. split.
  - intros c rest -> Hc. unfold replace_non_alnum. csimpl. rewrite Hc.
    change (is_space 32) with true. done.
  - apply replace_alnum_id.
Qed.

Example slug_of_a_title :
  slug (js " Hello,  World! ") = js "-Hello-World-".
Proof. vm_compute. reflexivity. Qed.

(** ** [/create-blog] *)

Lemma create_blog_check_None (req : create_blog_body) :
  create_blog_check req = None →
  cb_title req ≠ []
  ∧ (cb_draft req = false →
     (1 ≤ length (cb_des req) ≤ 200)%nat
     ∧ cb_banner req ≠ [] ∧ cb_content req ≠ []
     ∧ (1 ≤ length (cb_tags req) ≤ 10)%nat).
Proof.
  unfold create_blog_check.
  destruct (Nat.eqb_spec (length (cb_title req)) 0) as [|Ht]; [done|].
  intros H. split; [by destruct (cb_title req)|]. intros Hd. rewrite Hd in H.
  destruct (Nat.eqb_spec (length (cb_des req)) 0) as [|Hd1]; [done|].
  destruct (Nat.ltb_spec 200 (length (cb_des req))) as [|Hd2]; [done|]. simpl in H.
  destruct (Nat.eqb_spec (length (cb_banner req)) 0) as [|Hb]; [done|].
  destruct (Nat.eqb_spec (length (cb_content req)) 0) as [|Hc]; [done|].
  destruct (Nat.eqb_spec (length (cb_tags req)) 0) as [|Ht1]; [done|].
  destruct (Nat.ltb_spec 10 (length (cb_tags req))) as [|Ht2]; [done|].
  split; [lia|]. split; [by destruct (cb_banner req)|].
  split; [by destruct (cb_content req)|lia].
Qed.

Lemma publishable_request (req : create_blog_body) (tags : list jsstring)
    (_id : positive) (blog_id : jsstring) (core : Blog.doc) :
  create_blog_check req = None → length tags = length (cb_tags req) →
  publishable {| Post._id := _id; Post.blog_id := blog_id;
                 Post.title := cb_title req; Post.banner := cb_banner req;
                 Post.des := cb_des req; Post.content := cb_content req;
                 Post.tags := tags; Post.draft := cb_draft req;
                 Post.core := core |}.
Proof.
  intros H Hl. apply create_blog_check_None in H as [Ht Hp].
  split; [done|]. simpl. rewrite Hl. exact Hp.
Qed.

(** X17. [/create-blog] keeps the rules of publishing true of the whole
    collection: if every stored blog has a title and every one that is
    not a draft has a description of 1 to 200 code units, a banner,
    some content and 1 to 10 tags, the same holds after the request,
    be it refused, an edit or a new blog. *)
Theorem create_blog_publishable (toLowerCase : jsstring → jsstring) (new_id : positive)
    (nanoid : jsstring) (authorId : positive) (req : create_blog_body) (s : Site) :
  Forall publishable (Posts s) →
  Forall publishable (Posts (create_blog toLowerCase new_id nanoid authorId req s).1).
Proof.
  intros H. unfold create_blog.
  destruct (create_blog_check req) eqn:E; [done|].
  destruct (cb_id req) as [|c id]; simpl.
  - apply Forall_app. split; [done|]. constructor; [|done].
    apply publishable_request; [done|apply length_fmap].
  - apply Forall_findOneAndUpdate; [|done].
    intros p _. apply publishable_request; [done|apply length_fmap].
Qed.

Lemma create_blog_publishable_witness :
  Forall publishable
    (Posts (create_blog id 9%positive (js "x1") 1%positive (Shop.publish_req [])
              Shop.site0).1).
Proof.
  apply (create_blog_publishable id 9%positive (js "x1") 1%positive (Shop.publish_req [])
           Shop.site0).
  constructor.
Defined.

Lemma slug_nonempty (title : jsstring) : title ≠ [] → slug title ≠ [].
Proof.
  rewrite slug_untrimmed. destruct title as [|c t]; [done|].
  intros _. unfold replace_non_alnum. csimpl.
  destruct (is_alnum c) eqn:E.
  - by rewrite (is_alnum_not_space _ E).
  - change (is_space 32) with true. done.
Qed.

Lemma matches_app {A : Type} (p : A → bool) (l k : list A) :
  matches p (l ++ k) = (matches p l + matches p k)%nat.
Proof. induction l as [|x l IH]; simpl; [done|]. rewrite IH. lia. Qed.



(** X18. An edit of a blog that is not there: when the request passes
    the guards and names an [id] that no stored blog has, [/create-blog]
    answers 200 with that [id] and has written nothing. *)
Theorem create_blog_edit_unknown (toLowerCase : jsstring → jsstring) (new_id : positive)
    (nanoid : jsstring) (authorId : positive) (req : create_blog_body) (s : Site) :
  create_blog_check req = None →
  cb_id req ≠ [] →
  Forall (λ p, Post.blog_id p ≠ cb_id req) (Posts s) →
  create_blog toLowerCase new_id nanoid authorId req s = (s, Ok (cb_id req)).
Proof.
  intros Hc Hid Hno. unfold create_blog. rewrite Hc.
  destruct (cb_id req) as [|c id] eqn:E; [done|].
  rewrite findOneAndUpdate_none; [by destruct s|].
  eapply Forall_impl; [exact Hno|]. intros p Hp. by apply bool_decide_eq_false.
Qed.

Lemma create_blog_edit_unknown_witness :
  create_blog id 9%positive (js "x1") 1%positive (Shop.publish_req (js "nowhere"))
    Shop.site0
  = (Shop.site0, Ok (js "nowhere")).
Proof.
  apply (create_blog_edit_unknown id 9%positive (js "x1") 1%positive
           (Shop.publish_req (js "nowhere")) Shop.site0);
    [reflexivity | discriminate | constructor].
Defined.

Lemma create_blog_new_run (toLowerCase : jsstring → jsstring) (new_id : positive)
    (nanoid : jsstring) (authorId : positive) (req : create_blog_body) (s : Site) :
  create_blog_check req = None →
  cb_id req = [] →
  let r := create_blog toLowerCase new_id nanoid authorId req s in
  let blog_id := slug (cb_title req) ++ nanoid in
  let counted := if cb_draft req then 0%nat else 1%nat in
  r.2 = Ok blog_id
  ∧ Posts r.1
    = Posts s ++ [new_post new_id blog_id authorId req (toLowerCase <$> cb_tags req)]
  ∧ all_latest_blogs_count r.1 = (all_latest_blogs_count s + counted)%nat
  ∧ (∀ u, Users s !! authorId = Some u →
       ∃ u', Users r.1 !! authorId = Some u'
             ∧ User.total_posts u' = User.total_posts u + Z.of_nat counted
             ∧ User.blogs u' = User.blogs u ++ [new_id])
  ∧ (∀ i, i ≠ authorId → Users r.1 !! i = Users s !! i).
Proof.
  intros Hc Hid r blog_id counted. unfold r, create_blog. rewrite Hc, Hid. simpl.
  split; [done|]. split; [done|]. split; [|split].
  - unfold all_latest_blogs_count. simpl. rewrite matches_app. simpl.
    unfold published at 2. simpl. unfold counted. destruct (cb_draft req); simpl; lia.
  - intros u Hu. rewrite lookup_alter_eq, Hu. simpl. eexists. split; [done|].
    simpl. split; [|done]. unfold counted. by destruct (cb_draft req).
  - intros i Hi. by rewrite lookup_alter_ne.
Qed.

(** X19. A new blog: when the request passes the guards and names no
    [id], [/create-blog] answers 200 with the slug of the title followed
    by the text of [nanoid()], stores the blog last under that
    [blog_id] with the requester as author, no comments and counters at
    zero, appends its [_id] to the blogs of the author and raises the
    author's [total_posts] and the count of published blogs by one for
    a blog that is not a draft and by nothing for a draft. *)
Theorem create_blog_new (toLowerCase : jsstring → jsstring) (new_id : positive)
    (nanoid : jsstring) (authorId : positive) (req : create_blog_body) (s : Site) :
  create_blog_check req = None →
  cb_id req = [] →
  let r := create_blog toLowerCase new_id nanoid authorId req s in
  let blog_id := slug (cb_title req) ++ nanoid in
  let counted := if cb_draft req then 0%nat else 1%nat in
  r.2 = Ok blog_id
  ∧ Posts r.1
    = Posts s ++ [new_post new_id blog_id authorId req (toLowerCase <$> cb_tags req)]
  ∧ all_latest_blogs_count r.1 = (all_latest_blogs_count s + counted)%nat
  ∧ (∀ u, Users s !! authorId = Some u →
       ∃ u', Users r.1 !! authorId = Some u'
             ∧ User.total_posts u' = User.total_posts u + Z.of_nat counted
             ∧ User.blogs u' = User.blogs u ++ [new_id])
  ∧ (∀ i, i ≠ authorId → Users r.1 !! i = Users s !! i).
Proof. apply create_blog_new_run. Qed.

Lemma create_blog_new_witness :
  let r := create_blog id 9%positive (js "x1") 1%positive Shop.draft_req Shop.site0 in
  r.2 = Ok (js "My-dayx1") ∧ all_latest_blogs_count r.1 = 0%nat.
Proof.
  destruct (create_blog_new id 9%positive (js "x1") 1%positive Shop.draft_req Shop.site0)
    as (H1 & _ & H3 & _); [reflexivity | reflexivity |].
  split; [exact H1 | exact H3].
Defined.

Lemma findOneAndUpdate_map {A B : Type} (p : A → bool) (f : A → A) (g : A → B)
    (l : list A) :
  (∀ x, g (f x) = g x) → g <$> findOneAndUpdate p f l = g <$> l.
Proof.
  intros H. induction l as [|x l IH]; csimpl; [done|].
  destruct (p x); csimpl; [by rewrite H|by rewrite IH].
Qed.

Lemma create_blog_edit_run (toLowerCase : jsstring → jsstring) (new_id : positive)
    (nanoid : jsstring) (authorId : positive) (req : create_blog_body) (s : Site) :
  cb_id req ≠ [] →
  let s' := (create_blog toLowerCase new_id nanoid authorId req s).1 in
  Users s' = Users s
  ∧ (λ p, (Post._id p, Post.blog_id p, Post.core p)) <$> Posts s'
    = (λ p, (Post._id p, Post.blog_id p, Post.core p)) <$> Posts s.
Proof.
  intros Hid s'. unfold s', create_blog.
  destruct (create_blog_check req); [done|].
  destruct (cb_id req) as [|c id]; [done|]. simpl. split; [done|].
  by apply findOneAndUpdate_map.
Qed.

(** X20. An edit changes no user and, of every stored blog, neither the
    [_id], the [blog_id], the author, the comments nor the counters; in
    particular the author's [total_posts] stays as it is when the edit
    turns a draft into a published blog. *)
Theorem create_blog_edit_keeps (toLowerCase : jsstring → jsstring) (new_id : positive)
    (nanoid : jsstring) (authorId : positive) (req : create_blog_body) (s : Site) :
  cb_id req ≠ [] →
  let s' := (create_blog toLowerCase new_id nanoid authorId req s).1 in
  Users s' = Users s
  ∧ (λ p, (Post._id p, Post.blog_id p, Post.core p)) <$> Posts s'
    = (λ p, (Post._id p, Post.blog_id p, Post.core p)) <$> Posts s.
Proof. apply create_blog_edit_run. Qed.

Lemma create_blog_edit_keeps_witness :
  Users (create_blog id 9%positive (js "x1") 2%positive (Shop.publish_req (js "My-dayx1"))
           (create_blog id 9%positive (js "x1") 1%positive Shop.draft_req Shop.site0).1).1
  = Users (create_blog id 9%positive (js "x1") 1%positive Shop.draft_req Shop.site0).1.
Proof.
  apply (create_blog_edit_keeps id 9%positive (js "x1") 2%positive
           (Shop.publish_req (js "My-dayx1"))
           (create_blog id 9%positive (js "x1") 1%positive Shop.draft_req Shop.site0).1).
  discriminate.
Defined.

Lemma matches_findOneAndUpdate_first {A : Type} (p q : A → bool) (f : A → A)
    (l1 l2 : list A) (x : A) :
  Forall (λ y, p y = false) l1 → p x = true →
  matches q (findOneAndUpdate p f (l1 ++ x :: l2))
  = (matches q l1 + (if q (f x) then 1 else 0) + matches q l2)%nat.
Proof.
  intros H Hx. rewrite findOneAndUpdate_first by done.
  rewrite matches_app. simpl. lia.
Qed.

(** X21. A draft that is saved and then published through its [id] is
    never counted for its author: the count of published blogs goes up
    by one, the author's [total_posts] is what it was before the draft
    was saved.  (The [blog_id] of the draft is taken to be new.) *)
Theorem create_blog_draft_then_publish (toLowerCase : jsstring → jsstring)
    (new_id new_id' : positive) (nanoid nanoid' : jsstring) (authorId : positive)
    (draft publish : create_blog_body) (s : Site) :
  create_blog_check draft = None → cb_draft draft = true → cb_id draft = [] →
  create_blog_check publish = None → cb_draft publish = false →
  cb_id publish = slug (cb_title draft) ++ nanoid →
  Forall (λ p, Post.blog_id p ≠ slug (cb_title draft) ++ nanoid) (Posts s) →
  let s1 := (create_blog toLowerCase new_id nanoid authorId draft s).1 in
  let s2 := (create_blog toLowerCase new_id' nanoid' authorId publish s1).1 in
  all_latest_blogs_count s1 = all_latest_blogs_count s
  ∧ all_latest_blogs_count s2 = S (all_latest_blogs_count s)
  ∧ User.total_posts <$> Users s2 !! authorId = User.total_posts <$> Users s !! authorId.
Proof.
  intros Hc1 Hd1 Hi1 Hc2 Hd2 Hi2 Hnew s1 s2.
  destruct (create_blog_new_run toLowerCase new_id nanoid authorId draft s Hc1 Hi1)
    as (_ & HP1 & Hn1 & HU1 & _).
  fold s1 in HP1, Hn1, HU1. rewrite Hd1 in Hn1, HU1.
  assert (Hne : cb_id publish ≠ []).
  { rewrite Hi2. intros E. apply app_eq_nil in E as [E _].
    apply create_blog_check_None in Hc1 as [Ht _]. by apply slug_nonempty in E. }
  split; [rewrite Hn1; lia|]. split.
  - unfold s2, create_blog. rewrite Hc2.
    destruct (cb_id publish) as [|c i] eqn:E; [done|]. simpl.
    unfold all_latest_blogs_count. simpl. rewrite HP1.
    rewrite Hi2.
    rewrite (matches_findOneAndUpdate_first _ published); simpl.
    + unfold published at 2. simpl. rewrite Hd2. simpl. lia.
    + eapply Forall_impl; [exact Hnew|]. intros p Hp. by apply bool_decide_eq_false.
    + by apply bool_decide_eq_true.
  - destruct (create_blog_edit_run toLowerCase new_id' nanoid' authorId publish s1 Hne)
      as [EU _].
    unfold s2. rewrite EU.
    destruct (Users s !! authorId) as [u|] eqn:Eu.
    + destruct (HU1 u eq_refl) as (u' & -> & Ht & _). simpl. f_equal. lia.
    + unfold s1, create_blog. rewrite Hc1, Hi1. simpl.
      by rewrite lookup_alter_eq, Eu.
Qed.

Lemma create_blog_draft_then_publish_witness :
  let s1 := (create_blog id 9%positive (js "x1") 1%positive Shop.draft_req Shop.site0).1 in
  let s2 := (create_blog id 8%positive (js "y2") 1%positive
               (Shop.publish_req (js "My-dayx1")) s1).1 in
  all_latest_blogs_count s1 = 0%nat
  ∧ all_latest_blogs_count s2 = 1%nat
  ∧ User.total_posts <$> Users s2 !! 1%positive = Some 0.
Proof.
  apply (create_blog_draft_then_publish id 9%positive 8%positive (js "x1") (js "y2")
           1%positive Shop.draft_req (Shop.publish_req (js "My-dayx1")) Shop.site0);
    try reflexivity. constructor.
Defined.

(** ** The counts *)


(** The text ["("] is no pattern: with a constructor that rejects it,
    the request [{ query: "(" }] gets no count, whatever is stored, and
    the same request with a tag gets one. *)
Example search_blogs_count_open_bracket (RegExp_i : jsstring → RegExp) (s : Site) :
  RegExp_i (js "(") = SyntaxError "Unterminated group" →
  search_blogs_count RegExp_i [] (js "(") None s = Throws "Unterminated group"
  ∧ ∃ totalDocs,
      search_blogs_count RegExp_i (js "node") (js "(") None s = Returns totalDocs.
Proof.
  intros H. unfold search_blogs_count. simpl. rewrite H. eauto.
Qed.

(** ** Regular expressions *)

Lemma Matches_Blank_inv (s : jsstring) : Matches Blank s → s = [].
Proof. by inversion 1. Qed.

Lemma Matches_One_inv (class : N → bool) (s : jsstring) :
  Matches (One class) s → ∃ c, s = [c] ∧ class c = true.
Proof. inversion 1; subst; eauto. Qed.

Lemma Matches_Then_inv (r1 r2 : regex) (s : jsstring) :
  Matches (Then r1 r2) s → ∃ s1 s2, s = s1 ++ s2 ∧ Matches r1 s1 ∧ Matches r2 s2.
Proof. inversion 1; subst; eauto. Qed.

Lemma Matches_Either_inv (r1 r2 : regex) (s : jsstring) :
  Matches (Either r1 r2) s → Matches r1 s ∨ Matches r2 s.
Proof. inversion 1; subst; auto. Qed.

Lemma Matches_Nothing_inv (s : jsstring) : ¬ Matches Nothing s.
Proof. inversion 1. Qed.

Lemma blank_spec (r : regex) : blank r = true ↔ Matches r [].
Proof.
  induction r as [| |p|r1 IH1 r2 IH2|r1 IH1 r2 IH2|r IH]; simpl.
  - split; [done|by intros ?%Matches_Nothing_inv].
  - split; [constructor|done].
  - split; [done|]. by intros (c & ? & _)%Matches_One_inv.
  - rewrite andb_true_iff, IH1, IH2. split.
    + intros [H1 H2]. by apply (Matches_Then _ _ [] []).
    + intros (s1 & s2 & E & H1 & H2)%Matches_Then_inv.
      symmetry in E. apply app_eq_nil in E as [-> ->]. done.
  - rewrite orb_true_iff, IH1, IH2. split.
    + intros [H|H]; [by apply Matches_Either_l|by apply Matches_Either_r].
    + apply Matches_Either_inv.
  - split; [constructor|done].
Qed.

(** A repetition that matches a non-empty string starts with a
    non-empty match of its body. *)
Lemma Matches_Repeat_cons (r : regex) (c : N) (s : jsstring) :
  Matches (Repeat r) (c :: s) →
  ∃ s1 s2, s = s1 ++ s2 ∧ Matches r (c :: s1) ∧ Matches (Repeat r) s2.
Proof.
  intros H. remember (Repeat r) as r' eqn:Er. remember (c :: s) as w eqn:Ew.
  induction H as [| | | | | |r0 s1 s2 H1 _ H2 IH2]; try discriminate.
  injection Er as ->. destruct s1 as [|c1 s1]; simpl in Ew.
  - by apply IH2.
  - injection Ew as -> <-. eauto.
Qed.

Lemma after_spec (c : N) (r : regex) :
  ∀ s, Matches (after c r) s ↔ Matches r (c :: s).
Proof.
  induction r as [| |p|r1 IH1 r2 IH2|r1 IH1 r2 IH2|r IH]; intros s; simpl.
  - split; by intros ?%Matches_Nothing_inv.
  - split; [by intros ?%Matches_Nothing_inv|]. by intros ?%Matches_Blank_inv.
  - destruct (p c) eqn:E.
    + split.
      * intros ->%Matches_Blank_inv. by constructor.
      * intros (c' & [= <- ->] & _)%Matches_One_inv. constructor.
    + split; [by intros ?%Matches_Nothing_inv|].
      intros (c' & [= <- ->] & ?)%Matches_One_inv. congruence.
  - assert (Hhead : ∀ w, Matches (Then (after c r1) r2) w →
                         Matches (Then r1 r2) (c :: w)).
    { intros w (s1 & s2 & -> & H1 & H2)%Matches_Then_inv.
      apply IH1 in H1. by apply (Matches_Then _ _ (c :: s1) s2). }
    assert (Hback : Matches (Then r1 r2) (c :: s) →
                    Matches (Then (after c r1) r2) s
                    ∨ (Matches r1 [] ∧ Matches (after c r2) s)).
    { intros (s1 & s2 & E & H1 & H2)%Matches_Then_inv.
      destruct s1 as [|c1 s1]; simpl in E.
      - subst. right. split; [done|]. by apply IH2.
      - injection E as <- ->. left. constructor; [by apply IH1|done]. }
    destruct (blank r1) eqn:Eb.
    + split.
      * intros [H|H]%Matches_Either_inv; [by apply Hhead|].
        apply (Matches_Then _ _ [] (c :: s)); [by apply blank_spec|by apply IH2].
      * intros H. destruct (Hback H) as [H'|[_ H']];
          [by apply Matches_Either_l|by apply Matches_Either_r].
    + split; [apply Hhead|].
      intros H. destruct (Hback H) as [H'|[H' _]]; [done|].
      apply blank_spec in H'. congruence.
  - split.
    + intros [H|H]%Matches_Either_inv;
        [apply Matches_Either_l; by apply IH1|apply Matches_Either_r; by apply IH2].
    + intros [H|H]%Matches_Either_inv;
        [apply Matches_Either_l; by apply IH1|apply Matches_Either_r; by apply IH2].
  - split.
    + intros (s1 & s2 & -> & H1 & H2)%Matches_Then_inv.
      apply IH in H1. by apply (Matches_Repeat_more _ (c :: s1) s2).
    + intros H. destruct (Matches_Repeat_cons _ _ _ H) as (s1 & s2 & -> & H1 & H2).
      constructor; [by apply IH|done].
Qed.

Lemma regex_test_spec (r : regex) (s : jsstring) :
  regex_test r s = true ↔ Matches r s.
Proof.
  unfold regex_test. revert r. induction s as [|c s IH]; intros r; simpl.
  - apply blank_spec.
  - rewrite IH. apply after_spec.
Qed.

(** ** [passwordRegex] *)

Lemma Matches_Repeat_One (class : N → bool) (s : jsstring) :
  Matches (Repeat (One class)) s ↔ Forall (λ c, class c = true) s.
Proof.
  split.
  - induction s as [|c s IH]; [done|].
    intros (s1 & s2 & -> & H1 & H2)%Matches_Repeat_cons.
    apply Matches_One_inv in H1 as (c' & E & Hc).
    destruct s1; [|by destruct s1]. injection E as <-. constructor; auto.
  - induction 1 as [|c s Hc _ IH]; [constructor|].
    apply (Matches_Repeat_more _ [c] s); [by constructor|done].
Qed.

Lemma Matches_Times_One (n : nat) (class : N → bool) (s : jsstring) :
  Matches (Times n (One class)) s ↔ length s = n ∧ Forall (λ c, class c = true) s.
Proof.
  revert s. induction n as [|n IH]; intros s; simpl.
  - split.
    + by intros ->%Matches_Blank_inv.
    + intros [H _]. destruct s; [constructor|done].
  - split.
    + intros (s1 & s2 & -> & H1 & H2)%Matches_Then_inv.
      apply Matches_One_inv in H1 as (c & -> & Hc). apply IH in H2 as [<- H2].
      split; [done|by constructor].
    + intros [Hl H]. destruct H as [|c s Hc Hs]; [done|].
      apply (Matches_Then _ _ [c] s); [by constructor|].
      apply IH. split; [by injection Hl|done].
Qed.

Lemma Matches_Up_to_One (n : nat) (class : N → bool) (s : jsstring) :
  Matches (Up_to n (One class)) s
  ↔ (length s ≤ n)%nat ∧ Forall (λ c, class c = true) s.
Proof.
  revert s. induction n as [|n IH]; intros s; simpl.
  - split.
    + intros ->%Matches_Blank_inv. by split.
    + intros [H _]. destruct s; [constructor|simpl in H; lia].
  - split.
    + intros [->%Matches_Blank_inv|(s1 & s2 & -> & H1 & H2)%Matches_Then_inv]%Matches_Either_inv.
      * split; [simpl; lia|done].
      * apply Matches_One_inv in H1 as (c & -> & Hc). apply IH in H2 as [Hl H2].
        split; [simpl; lia|by constructor].
    + intros [Hl H]. destruct H as [|c s Hc Hs]; [apply Matches_Either_l; constructor|].
      apply Matches_Either_r. apply (Matches_Then _ _ [c] s); [by constructor|].
      apply IH. split; [simpl in Hl; lia|done].
Qed.

Lemma Matches_anything (s : jsstring) : Matches (Repeat anything) s.
Proof. apply Matches_Repeat_One. by apply Forall_true. Qed.

Lemma ahead_spec (p q : N → bool) (s : jsstring) :
  ahead (Then (Repeat (One p)) (One q)) s = true
  ↔ ∃ u c v, s = u ++ c :: v ∧ Forall (λ c, p c = true) u ∧ q c = true.
Proof.
  unfold ahead. rewrite regex_test_spec. split.
  - intros (s1 & v & -> & H1 & _)%Matches_Then_inv.
    apply Matches_Then_inv in H1 as (u & s2 & -> & Hu & Hc).
    apply Matches_One_inv in Hc as (c & -> & Hc). apply Matches_Repeat_One in Hu.
    exists u, c, v. split; [by rewrite <- app_assoc|done].
  - intros (u & c & v & -> & Hu & Hc).
    change (u ++ c :: v) with (u ++ [c] ++ v). rewrite app_assoc.
    constructor; [|apply Matches_anything].
    constructor; [by apply Matches_Repeat_One|by constructor].
Qed.

Lemma passwordRegex_test_iff (s : jsstring) :
  passwordRegex_test s = true
  ↔ (6 ≤ length s ≤ 20)%nat
    ∧ Forall (λ c, is_line_terminator c = false) s
    ∧ Exists (λ c, is_digit c = true) s
    ∧ Exists (λ c, is_lower c = true) s
    ∧ Exists (λ c, is_upper c = true) s.
Proof.
  assert (Hlen : regex_test (Then (Times 6 dot) (Up_to 14 dot)) s = true
                 ↔ (6 ≤ length s ≤ 20)%nat
                   ∧ Forall (λ c, is_line_terminator c = false) s).
  { rewrite regex_test_spec. unfold dot. split.
    - intros (s1 & s2 & -> & H1 & H2)%Matches_Then_inv.
      apply Matches_Times_One in H1 as [L1 F1].
      apply Matches_Up_to_One in H2 as [L2 F2].
      rewrite length_app. split; [lia|].
      apply Forall_app. split; (eapply Forall_impl; [eassumption|]);
        intros c; by rewrite negb_true_iff.
    - intros [Hl Hf]. rewrite <- (take_drop 6 s). constructor.
      + apply Matches_Times_One. split; [rewrite length_take; lia|].
        apply Forall_take. eapply Forall_impl; [exact Hf|].
        intros c; by rewrite negb_true_iff.
      + apply Matches_Up_to_One. split; [rewrite length_drop; lia|].
        apply Forall_drop. eapply Forall_impl; [exact Hf|].
        intros c; by rewrite negb_true_iff. }
  assert (Hex : ∀ q, Forall (λ c, is_line_terminator c = false) s →
            (ahead (Then (Repeat dot) (One q)) s = true
             ↔ Exists (λ c, q c = true) s)).
  { intros q Hf. unfold dot. rewrite ahead_spec, Exists_exists. split.
    - intros (u & c & v & -> & _ & Hc). exists c. split; [|done].
      apply elem_of_app. right. left.
    - intros (c & Hin & Hc). apply list_elem_of_split in Hin as (u & v & ->).
      exists u, c, v. split; [done|]. split; [|done].
      apply Forall_app in Hf as [Hu _]. eapply Forall_impl; [exact Hu|].
      intros c'; by rewrite negb_true_iff. }
  unfold passwordRegex_test. rewrite !andb_true_iff, Hlen. split.
  - intros [[[H1 H2] H3] [Hl Hf]]. apply Hex in H1, H2, H3; done.
  - intros (Hl & Hf & H1 & H2 & H3). split; [|done].
    repeat split; by apply Hex.
Qed.

(** X23. [passwordRegex] accepts exactly the strings of 6 to 20 code
    units that hold no line terminator and at least one digit, one
    letter [a-z] and one letter [A-Z]. *)
Theorem passwordRegex_accepts (password : jsstring) :
  passwordRegex_test password = true
  ↔ (6 ≤ length password ≤ 20)%nat
    ∧ Forall (λ c, is_line_terminator c = false) password
    ∧ Exists (λ c, is_digit c = true) password
    ∧ Exists (λ c, is_lower c = true) password
    ∧ Exists (λ c, is_upper c = true) password.
Proof. apply passwordRegex_test_iff. Qed.

(** ** [emailRegex] *)

Lemma Matches_letters (r : regex) (s : jsstring) :
  Matches r s → Forall (λ c, letters r c = true) s.
Proof.
  induction 1 as [|p c Hc|r1 r2 s1 s2 _ IH1 _ IH2|r1 r2 s _ IH|r1 r2 s _ IH
                   |r|r s1 s2 _ IH1 _ IH2]; simpl in *.
  - done.
  - by constructor.
  - apply Forall_app. split; (eapply Forall_impl; [eassumption|]);
      intros c Hc; rewrite Hc; by rewrite ?orb_true_r.
  - eapply Forall_impl; [exact IH|]. intros c Hc. by rewrite Hc.
  - eapply Forall_impl; [exact IH|]. intros c Hc. by rewrite Hc, orb_true_r.
  - done.
  - apply Forall_app. by split.
Qed.

(** The last round of a repetition. *)
Lemma Matches_Repeat_last (r : regex) (s : jsstring) :
  Matches (Repeat r) s → s = [] ∨ ∃ s1 s2, s = s1 ++ s2 ∧ Matches r s2.
Proof.
  intros H. remember (Repeat r) as r' eqn:Er.
  induction H as [| | | | | |r0 s1 s2 H1 _ H2 IH2]; try discriminate; [by left|].
  injection Er as ->. right. destruct (IH2 eq_refl) as [->|(t1 & t2 & -> & Ht)].
  - exists [], s1. by rewrite app_nil_r.
  - exists (s1 ++ t1), t2. by rewrite app_assoc.
Qed.

Lemma Matches_Some_of_last (r : regex) (s : jsstring) :
  Matches (Some_of r) s → ∃ s1 s2, s = s1 ++ s2 ∧ Matches r s2.
Proof.
  intros (s1 & s2 & -> & H1 & H2)%Matches_Then_inv.
  destruct (Matches_Repeat_last _ _ H2) as [->|(t1 & t2 & -> & Ht)].
  - exists [], s1. by rewrite app_nil_r.
  - exists (s1 ++ t1), t2. by rewrite app_assoc.
Qed.

Lemma Matches_words (s : jsstring) :
  Matches words s →
  (∃ c s', s = c :: s' ∧ is_word c = true) ∧ Forall name_char s.
Proof.
  intros H. split.
  - apply Matches_Then_inv in H as (s1 & s2 & -> & H1 & _).
    apply Matches_Then_inv in H1 as (w & s3 & -> & Hw & _).
    apply Matches_One_inv in Hw as (c & -> & Hc). simpl. eauto.
  - apply Matches_letters in H. eapply Forall_impl; [exact H|].
    intros c Hc. unfold words, Some_of, Maybe, word in Hc. cbn [letters] in Hc.
    unfold name_char. destruct (is_word c); [by left|].
    repeat (apply orb_true_iff in Hc as [Hc|Hc]); try discriminate;
      apply N.eqb_eq in Hc; auto.
Qed.

Lemma name_char_not_at (s : jsstring) : Forall name_char s → 64%N ∉ s.
Proof.
  intros H Hin. rewrite Forall_forall in H. destruct (H _ Hin) as [Hw|[?|?]]; done.
Qed.

Lemma Matches_emailRegex (email : jsstring) :
  Matches emailRegex email →
  ∃ name domain c name' rest tld,
    email = name ++ 64%N :: domain
    ∧ name = c :: name' ∧ is_word c = true
    ∧ Forall name_char name ∧ Forall name_char domain
    ∧ domain = rest ++ 46%N :: tld
    ∧ (2 ≤ length tld ≤ 3)%nat ∧ Forall (λ c, is_word c = true) tld.
Proof.
  intros (name & s1 & -> & Hname & H1)%Matches_Then_inv.
  apply Matches_Then_inv in H1 as (a & s2 & -> & Ha & H2).
  apply Matches_One_inv in Ha as (c64 & -> & E64). apply N.eqb_eq in E64 as <-.
  apply Matches_Then_inv in H2 as (host & tail & -> & Hhost & Htail).
  destruct (Matches_words _ Hname) as [(c & name' & -> & Hc) Fname].
  destruct (Matches_words _ Hhost) as [_ Fhost].
  assert (Ftail : Forall name_char tail).
  { apply Matches_letters in Htail. eapply Forall_impl; [exact Htail|].
    intros x Hx. unfold Some_of, char, word in Hx. cbn [letters Times Up_to Maybe] in Hx.
    unfold name_char. destruct (is_word x); [by left|].
    repeat (apply orb_true_iff in Hx as [Hx|Hx]); try discriminate;
      apply N.eqb_eq in Hx; auto. }
  destruct (Matches_Some_of_last _ _ Htail) as (t1 & t2 & -> & Hlast).
  apply Matches_Then_inv in Hlast as (d & t3 & -> & Hd & Ht3).
  apply Matches_One_inv in Hd as (c46 & -> & E46). apply N.eqb_eq in E46 as <-.
  apply Matches_Then_inv in Ht3 as (u & v & -> & Hu & Hv).
  apply Matches_Times_One in Hu as [Lu Fu]. apply Matches_Up_to_One in Hv as [Lv Fv].
  exists (c :: name'), (host ++ t1 ++ [46%N] ++ u ++ v), c, name', (host ++ t1), (u ++ v).
  split; [done|]. split; [done|]. split; [done|]. split; [done|].
  split; [by apply Forall_app|]. split; [by rewrite <- app_assoc|].
  split; [rewrite length_app; lia|by apply Forall_app].
Qed.

Lemma signup_check_None (fullname email password : jsstring) :
  signup_check fullname email password = None
  ↔ (3 ≤ length fullname)%nat
    ∧ regex_test emailRegex email = true ∧ passwordRegex_test password = true.
Proof.
  unfold signup_check.
  destruct (Nat.ltb_spec (length fullname) 3) as [Hf|Hf];
    [split; [done|intros [? _]; lia]|].
  destruct (regex_test emailRegex email) eqn:Ee; simpl.
  - assert (Hne : (length email =? 0)%nat = false).
    { destruct email; [|done]. vm_compute in Ee. discriminate. }
    rewrite Hne. destruct (passwordRegex_test password); simpl; [done|].
    split; [done|]. by intros (_ & _ & ?).
  - destruct (length email =? 0)%nat; (split; [done|]); by intros (_ & ? & _).
Qed.

(** X24. A request that gets through the guards of [/signup] has a full
    name of at least 3 code units and an email of the form
    [name@domain] with exactly that one ["@"]: [name] starts with a
    word character, [name] and [domain] are made of word characters,
    ["."] and ["-"], and [domain] ends in a ["."] followed by 2 or 3
    word characters. *)
Theorem signup_check_email (fullname email password : jsstring) :
  signup_check fullname email password = None →
  (3 ≤ length fullname)%nat
  ∧ ∃ name domain c name' rest tld,
      email = name ++ 64%N :: domain
      ∧ (64%N ∉ name) ∧ (64%N ∉ domain)
      ∧ name = c :: name' ∧ is_word c = true
      ∧ Forall (λ c, is_word c = true ∨ c = 46%N ∨ c = 45%N) name
      ∧ Forall (λ c, is_word c = true ∨ c = 46%N ∨ c = 45%N) domain
      ∧ domain = rest ++ 46%N :: tld
      ∧ (2 ≤ length tld ≤ 3)%nat ∧ Forall (λ c, is_word c = true) tld.
Proof.
  intros (Hf & He & _)%signup_check_None. split; [done|].
  apply regex_test_spec, Matches_emailRegex in He
    as (name & domain & c & name' & rest & tld & E & En & Hc & Fn & Fd & Ed & Lt & Ft).
  exists name, domain, c, name', rest, tld.
  split; [done|]. split; [by apply name_char_not_at|].
  split; [by apply name_char_not_at|]. done.
Qed.

Lemma signup_check_email_witness :
  ∃ name domain,
    js "ann.lee@mail.example.org" = name ++ 64%N :: domain
    ∧ (64%N ∉ name) ∧ (64%N ∉ domain).
Proof.
  destruct (signup_check_email (js "Ann Lee") (js "ann.lee@mail.example.org")
              (js "Secret12"))
    as (_ & name & domain & _ & _ & _ & _ & E & Hn & Hd & _); [reflexivity|].
  exists name, domain. split; [exact E|]. split; [exact Hn|exact Hd].
Defined.

(** ** [generateUsername] *)

Lemma split_head (sep : N) (s t : jsstring) :
  sep ∉ s → head (split sep (s ++ sep :: t)) = Some s.
Proof. intros H. by rewrite split_app. Qed.

(** X25. For an email that [emailRegex] accepts, [generateUsername]
    takes the part before the ["@"], which is not empty and made of
    word characters, ["."] and ["-"]; it returns that name when no user
    has it, and otherwise the name followed by the first three code
    units of the text of [nanoid()], without looking whether that one
    is free. *)
Theorem generateUsername_shape (nanoid email : jsstring) (s : Site) :
  regex_test emailRegex email = true →
  ∃ name domain,
    email = name ++ 64%N :: domain
    ∧ name ≠ []
    ∧ Forall (λ c, is_word c = true ∨ c = 46%N ∨ c = 45%N) name
    ∧ generateUsername nanoid email s
      = if username_exists name s then name ++ take 3 nanoid else name.
Proof.
  intros He.
  apply regex_test_spec, Matches_emailRegex in He
    as (name & domain & c & name' & rest & tld & E & En & Hc & Fn & Fd & _).
  exists name, domain. split; [done|]. split; [by rewrite En|]. split; [done|].
  unfold generateUsername. rewrite E, split_head by (by apply name_char_not_at). done.
Qed.

Lemma generateUsername_shape_witness :
  ∃ name domain,
    js "ann@mail.org" = name ++ 64%N :: domain
    ∧ generateUsername (js "V1StGXR8") (js "ann@mail.org") Shop.site0
      = if username_exists name Shop.site0 then name ++ take 3 (js "V1StGXR8") else name.
Proof.
  destruct (generateUsername_shape (js "V1StGXR8") (js "ann@mail.org") Shop.site0)
    as (name & domain & E & _ & _ & H); [reflexivity|].
  exists name, domain. split; [exact E|exact H].
Defined.

Example generateUsername_taken :
  generateUsername (js "V1StGXR8") (js "ann@mail.org") Shop.site0 = js "annV1S"
  ∧ generateUsername (js "V1StGXR8") (js "bob@mail.org") Shop.site0 = js "bob".
Proof. vm_compute. split; reflexivity. Qed.

(** ** Sound links *)

Lemma same_but_children_parent (c c' : Comment.doc) :
  same_but_children c c' → Comment.parent c' = Comment.parent c.
Proof. intros [-> _]. done. Qed.

(** X26. [deleteComments] keeps the links between comments sound: if
    before the call every comment with a parent is listed by that
    stored parent and every listed child is a stored comment naming it
    as parent, the same holds afterwards, so the cascade leaves neither
    a comment without its parent nor a child id without its comment. *)
Theorem deleteComments_well_linked (fuel : nat) (_id : positive) (db db' : DB) :
  deleteComments fuel _id db = Some db' →
  well_linked db → well_linked db'.
Proof.
  intros H [Hup Hdown].
  pose proof (deleteComments_kept_as _ _ _ _ H) as [S A].
  pose proof (deleteComments_children_gone _ _ _ _ H) as C.
  destruct (deleteComments_cascade _ _ _ _ H) as [_ U].
  split.
  - intros i c' p Hi Hp.
    destruct (S i c' Hi) as (c & Hc & Ec & _).
    rewrite (same_but_children_parent _ _ Ec) in Hp.
    destruct (Hup i c p Hc Hp) as (pc & Hpc & Hin).
    destruct (Comments db' !! p) as [pc'|] eqn:Ep.
    + exists pc'. split; [done|].
      destruct (S p pc' Ep) as (pc0 & Hpc0 & _ & D).
      assert (pc0 = pc) as -> by congruence.
      destruct (decide (i ∈ Comment.children pc')) as [|Hout]; [done|].
      rewrite (D i Hin Hout) in Hi. done.
    + rewrite (C p pc Hpc Ep i Hin) in Hi. done.
  - intros p pc' j Hp Hj.
    destruct (S p pc' Hp) as (pc & Hpc & [_ Hsub] & _).
    destruct (Hdown p pc j Hpc (Hsub j Hj)) as (c & Hc & Hcp).
    destruct (Comments db' !! j) as [c'|] eqn:Ej.
    + exists c'. split; [done|].
      destruct (S j c' Ej) as (c0 & Hc0 & Ec & _).
      assert (c0 = c) as -> by congruence.
      by rewrite (same_but_children_parent _ _ Ec).
    + exfalso. by apply (U j c p pc' Hc Ej Hcp Hp).
Qed.

Lemma well_linked_fresh (db : DB) (new_id : positive) :
  well_linked db → Comments db !! new_id = None →
  ∀ p pc, Comments db !! p = Some pc → new_id ∉ Comment.children pc.
Proof.
  intros [_ Hdown] Hfresh p pc Hp Hin.
  destruct (Hdown p pc new_id Hp Hin) as (c & Hc & _). congruence.
Qed.

Lemma add_comment_links (new_id : positive) (now : Z) (user_id : positive)
    (req : add_comment_body) (db db' : DB) (status : Z) (body : Body) :
  add_comment new_id now user_id req db = (db', Json status body) →
  Comments db !! new_id = None →
  req_replying_to req ≠ Some new_id →
  well_linked db → well_linked db'.
Proof.
  intros Hrun Hfresh Hself WL.
  destruct (Nat.eqb_spec (String.length (req_comment req)) 0) as [E|Hne].
  { unfold add_comment in Hrun. apply Nat.eqb_eq in E. rewrite E in Hrun.
    by injection Hrun as <- _ _. }
  pose proof (well_linked_fresh db new_id WL Hfresh) as Hnotin.
  destruct WL as [Hup Hdown].
  rewrite (add_comment_run _ _ _ _ _ Hne) in Hrun. simpl in Hrun.
  destruct (req_replying_to req) as [p|] eqn:Ep.
  - assert (Hpn : p ≠ new_id) by congruence.
    { rewrite lookup_insert_ne in Hrun by done.
      destruct (Comments db !! p) as [pc0|] eqn:Epc; [|done].
      injection Hrun as <- _ _. unfold well_linked. simpl. split.
      * intros i c q Hi Hq.
        destruct (decide (i = new_id)) as [->|Hin].
        -- rewrite lookup_alter_ne, lookup_insert_eq in Hi by done.
           injection Hi as <-. simpl in Hq. rewrite Ep in Hq. injection Hq as <-.
           eexists. rewrite lookup_alter_eq, lookup_insert_ne, Epc by done.
           split; [done|]. simpl. apply elem_of_app. right. left.
        -- assert (Hold : ∃ c0, Comments db !! i = Some c0
                                ∧ Comment.parent c0 = Comment.parent c).
           { destruct (decide (i = p)) as [->|Hip].
             - rewrite lookup_alter_eq, lookup_insert_ne, Epc in Hi by done.
               injection Hi as <-. eauto.
             - rewrite lookup_alter_ne, lookup_insert_ne in Hi by done. eauto. }
           destruct Hold as (c0 & Hc0 & Epar). rewrite <- Epar in Hq.
           destruct (Hup i c0 q Hc0 Hq) as (pc & Hpc & Hmem).
           assert (Hqn : q ≠ new_id) by congruence.
           destruct (decide (q = p)) as [->|Hqp].
           ++ eexists. rewrite lookup_alter_eq, lookup_insert_ne, Epc by done.
              split; [done|]. simpl. apply elem_of_app. left. congruence.
           ++ exists pc. rewrite lookup_alter_ne, lookup_insert_ne by done. done.
      * intros q pc j Hq Hj.
        assert (Hcase : (q = p ∧ j = new_id)
                        ∨ ∃ pc1, Comments db !! q = Some pc1 ∧ j ∈ Comment.children pc1).
        { destruct (decide (q = p)) as [->|Hqp].
          - rewrite lookup_alter_eq, lookup_insert_ne, Epc in Hq by done.
            injection Hq as <-. simpl in Hj. unfold push in Hj.
            apply elem_of_app in Hj as [Hj|Hj]; [right; eauto|].
            apply list_elem_of_singleton in Hj. by left.
          - rewrite lookup_alter_ne in Hq by done.
            apply lookup_insert_Some in Hq as [[<- <-]|[_ Hq]]; [|right; eauto].
            simpl in Hj. by apply elem_of_nil in Hj. }
        destruct Hcase as [[-> ->]|(pc1 & Hpc1 & Hj1)].
        -- eexists. rewrite lookup_alter_ne, lookup_insert_eq by done.
           split; [done|]. simpl. by rewrite Ep.
        -- destruct (Hdown q pc1 j Hpc1 Hj1) as (c & Hc & Hcq).
           assert (Hjn : j ≠ new_id) by congruence.
           destruct (decide (j = p)) as [->|Hjp].
           ++ eexists. rewrite lookup_alter_eq, lookup_insert_ne, Epc by done.
              split; [done|]. simpl. congruence.
           ++ exists c. rewrite lookup_alter_ne, lookup_insert_ne by done. done. }
  - injection Hrun as <- _ _. unfold well_linked. simpl. split.
    + intros i c q. rewrite lookup_insert_Some.
      intros [[<- <-]|[Hi Hc]] Hq; [simpl in Hq; by rewrite Ep in Hq|].
      destruct (Hup i c q Hc Hq) as (pc & Hpc & Hin).
      exists pc. split; [|done]. rewrite lookup_insert_ne; [done|congruence].
    + intros q pc j. rewrite lookup_insert_Some.
      intros [[<- <-]|[Hq Hpc]] Hj; [simpl in Hj; by apply elem_of_nil in Hj|].
      destruct (Hdown q pc j Hpc Hj) as (c & Hc & Hcq).
      exists c. split; [|done]. rewrite lookup_insert_ne; [done|congruence].
Qed.

(** X27. [/add-comment] keeps the links sound whenever it sends a
    response and the new id is fresh (not stored, and not the one that
    the request replies to): the new comment has no children, and a
    reply is listed by its stored parent.  (Without a response,
    for a reply to a comment that is not stored, the reply is left
    without its parent.) *)
Theorem add_comment_well_linked (new_id : positive) (now : Z) (user_id : positive)
    (req : add_comment_body) (db db' : DB) (status : Z) (body : Body) :
  add_comment new_id now user_id req db = (db', Json status body) →
  Comments db !! new_id = None →
  req_replying_to req ≠ Some new_id →
  well_linked db → well_linked db'.
Proof. apply add_comment_links. Qed.

Lemma well_linked_empty (db : DB) : Comments db = ∅ → well_linked db.
Proof.
  intros E. split.
  - intros i c p Hi. rewrite E, lookup_empty in Hi. done.
  - intros p pc j Hp. rewrite E, lookup_empty in Hp. done.
Qed.

Lemma well_linked_db2 : well_linked Scenario.db2.
Proof.
  apply (add_comment_links 11 101 3%positive (Scenario.answer "second" 10) Scenario.db1
           Scenario.db2 200 (Created "second" 101 11 3 []));
    [reflexivity | reflexivity | discriminate |].
  apply (add_comment_links 10 100 2%positive (Scenario.top "first") Scenario.db0
           Scenario.db1 200 (Created "first" 100 10 2 []));
    [reflexivity | reflexivity | discriminate |].
  by apply well_linked_empty.
Defined.

Lemma add_comment_well_linked_witness : well_linked Scenario.db1.
Proof.
  apply (add_comment_well_linked 10 100 2%positive (Scenario.top "first") Scenario.db0
           Scenario.db1 200 (Created "first" 100 10 2 []));
    [reflexivity | reflexivity | discriminate |].
  by apply well_linked_empty.
Defined.

Lemma deleteComments_well_linked_witness :
  ∃ db', deleteComments 3 11%positive Scenario.db2 = Some db' ∧ well_linked db'.
Proof.
  pose (r := deleteComments 3 11%positive Scenario.db2).
  pose (db' := default Scenario.db2 r).
  assert (Hrun : r = Some db') by (vm_compute; reflexivity).
  exists db'. split; [exact Hrun|].
  apply (deleteComments_well_linked 3 11%positive Scenario.db2 db' Hrun).
  exact well_linked_db2.
Defined.

(** ** The notifications that the handlers keep *)

Lemma refers_to_true (r : option positive) (i : positive) :
  refers_to r i = true ↔ r = Some i.
Proof.
  destruct r as [j|]; simpl; [|done]. rewrite Pos.eqb_eq. split; congruence.
Qed.

Lemma refers_to_false (r : option positive) (i : positive) :
  refers_to r i = false ↔ r ≠ Some i.
Proof.
  rewrite <- refers_to_true. destruct (refers_to r i); split; congruence.
Qed.

Lemma matches_findOneAndUpdate_le {A : Type} (p q : A → bool) (f : A → A)
    (l : list A) :
  (∀ x, q (f x) = true → q x = true) →
  (matches q (findOneAndUpdate p f l) ≤ matches q l)%nat.
Proof.
  intros H. induction l as [|x l IH]; simpl; [done|].
  destruct (p x); simpl; [|destruct (q x); lia].
  destruct (q (f x)) eqn:E; [rewrite (H x E); lia|destruct (q x); lia].
Qed.

Lemma elem_of_findOneAndDelete_inv {A : Type} (p : A → bool) (l : list A) (x : A) :
  x ∈ findOneAndDelete p l → x ∈ l.
Proof.
  induction l as [|y l IH]; simpl; [done|].
  destruct (p y); [by right|]. intros [->|H]%elem_of_cons; [left|right; auto].
Qed.

Lemma elem_of_findOneAndUpdate_inv {A : Type} (p : A → bool) (f : A → A)
    (l : list A) (x : A) :
  x ∈ findOneAndUpdate p f l → x ∈ l ∨ ∃ y, y ∈ l ∧ p y = true ∧ x = f y.
Proof.
  induction l as [|y l IH]; simpl; [by left|].
  destruct (p y) eqn:E.
  - intros [->|H]%elem_of_cons; [right; exists y; split; [left|done]|left; by right].
  - intros [->|H]%elem_of_cons; [left; left|].
    destruct (IH H) as [?|(z & ? & ? & ?)]; [left; by right|right].
    exists z. split; [by right|done].
Qed.

Lemma matches_snoc {A : Type} (q : A → bool) (l : list A) (x : A) :
  matches q (l ++ [x]) = (matches q l + if q x then 1 else 0)%nat.
Proof. induction l as [|y l IH]; simpl; [lia|]. rewrite IH. lia. Qed.

Lemma matches_none {A : Type} (q : A → bool) (l : list A) :
  (∀ x, x ∈ l → q x = false) → matches q l = 0%nat.
Proof.
  intros H. apply matches_0, Forall_forall. exact H.
Qed.

Lemma notifications_sound_nil (db : DB) : Notifications db = [] → notifications_sound db.
Proof.
  intros E. unfold notifications_sound. rewrite E. simpl.
  split; [by intros n i ?%elem_of_nil|]. split; intros; lia.
Qed.

(** A notification without references joins a sound collection. *)
Lemma notifications_sound_plain (db : DB) (n : Notification.doc) :
  Notification.comment n = None → Notification.reply n = None →
  notifications_sound db →
  notifications_sound (with_Notifications (λ l, l ++ [n]) db).
Proof.
  intros Hc Hr (Hb & Hcm & Hrp). unfold notifications_sound. simpl.
  split; [|split].
  - intros m i [Hm| ->%list_elem_of_singleton]%elem_of_app Hi; [eauto|congruence].
  - intros i. rewrite matches_snoc, Hc. simpl. specialize (Hcm i). lia.
  - intros i. rewrite matches_snoc, Hr. simpl. specialize (Hrp i). lia.
Qed.

(** Taking a notification out keeps the collection sound. *)
Lemma notifications_sound_less (db : DB) (p : Notification.doc → bool) :
  notifications_sound db →
  notifications_sound (with_Notifications (findOneAndDelete p) db).
Proof.
  intros (Hb & Hcm & Hrp). unfold notifications_sound. simpl.
  split; [|split].
  - intros n i Hn. apply Hb. by apply elem_of_findOneAndDelete_inv in Hn.
  - intros i. destruct (matches_findOneAndDelete_le p
                 (λ n, refers_to (Notification.comment n) i) (Notifications db)).
    specialize (Hcm i). lia.
  - intros i. destruct (matches_findOneAndDelete_le p
                 (λ n, refers_to (Notification.reply n) i) (Notifications db)).
    specialize (Hrp i). lia.
Qed.

Lemma notifications_sound_like_blog (user_id _id : positive) (isLikedByUser : bool)
    (db : DB) :
  notifications_sound db →
  notifications_sound (like_blog user_id _id isLikedByUser db).1.
Proof.
  intros H. unfold like_blog. destruct isLikedByUser; simpl.
  - destruct (Blogs db !! _id) as [blog|]; simpl; [|exact H].
    by apply (notifications_sound_plain
                (with_Blogs (alter (inc_total_likes (-1)) _id) db)).
  - by apply (notifications_sound_less
                (with_Blogs (alter (inc_total_likes 1) _id) db)).
Qed.

Lemma notifications_sound_add_comment (new_id : positive) (now : Z) (user_id : positive)
    (req : add_comment_body) (db : DB) :
  Comments db !! new_id = None →
  notifications_sound db →
  notifications_sound (add_comment new_id now user_id req db).1.
Proof.
  intros Hfresh (Hb & Hcm & Hrp).
  destruct (Nat.eqb_spec (String.length (req_comment req)) 0) as [E|Hne].
  { unfold add_comment. apply Nat.eqb_eq in E. by rewrite E. }
  rewrite (add_comment_run _ _ _ _ _ Hne). cbv zeta.
  (* the comments after the save keep every id that was stored *)
  assert (Hkeep : ∀ (m : gmap positive Comment.doc) i f p,
            is_Some (Comments db !! i) →
            m = <[new_id := commentObj user_id now req]> (Comments db) →
            is_Some (m !! i) ∧ is_Some (alter f p m !! i)).
  { intros m i f p [c Hc] ->.
    assert (Hs : is_Some (<[new_id := commentObj user_id now req]> (Comments db) !! i)).
    { rewrite lookup_insert. case_decide; eauto. }
    split; [done|]. by apply lookup_alter_is_Some. }
  assert (Hnone : ∀ n, n ∈ Notifications db →
            refers_to (Notification.comment n) new_id = false).
  { intros n Hn. apply refers_to_false. intros Hc.
    destruct (Hb n new_id Hn Hc) as [[c Hs] _]. congruence. }
  (* with the notification of the new comment appended *)
  assert (Happ : ∀ m nf,
            (∀ i, is_Some (Comments db !! i) → is_Some (m !! i)) →
            is_Some (m !! new_id) →
            notifications_sound
              {| Comments := m;
                 Notifications := Notifications db ++ [notificationObj user_id new_id req nf];
                 Blogs := alter (on_comment_added new_id (req_replying_to req))
                            (req_id req) (Blogs db) |}).
  { intros m nf Hm Hnew. unfold notifications_sound. simpl. split; [|split].
    - intros n i [Hn| ->%list_elem_of_singleton]%elem_of_app Hi.
      + destruct (Hb n i Hn Hi) as [Hs Hr]. split; [auto|done].
      + simpl in Hi. injection Hi as <-. split; [done|done].
    - intros i. rewrite matches_snoc. simpl.
      destruct (Pos.eqb_spec new_id i) as [<-|_]; [|specialize (Hcm i); lia].
      rewrite (matches_none _ _ Hnone). lia.
    - intros i. rewrite matches_snoc. simpl. specialize (Hrp i). lia. }
  destruct (req_replying_to req) as [p|] eqn:Ep.
  - destruct (_ !! p) as [pc|] eqn:Epc; cbn [fst].
    + apply Happ.
      * intros i Hi. by eapply Hkeep.
      * apply lookup_alter_is_Some. simpl. rewrite lookup_insert_eq. eauto.
    + unfold notifications_sound. simpl. split; [|by split].
      intros n i Hn Hi. destruct (Hb n i Hn Hi) as [Hs Hr]. split; [|done].
      by eapply (Hkeep _ i id p).
  - cbn [fst]. apply Happ.
    + intros i Hi. by eapply (Hkeep _ i id new_id).
    + simpl. rewrite lookup_insert_eq. eauto.
Qed.

(** One deletion at a sound collection: the notification of the
    comment goes, no reference to the comment is left, and the
    collection is sound again. *)
Lemma delete_one_sound (_id : positive) (comment : Comment.doc) (db : DB) :
  Comments db !! _id = Some comment →
  notifications_sound db →
  notifications_sound (delete_one _id comment db)
  ∧ Forall (λ n, Notification.comment n ≠ Some _id ∧ Notification.reply n ≠ Some _id)
      (Notifications (delete_one _id comment db)).
Proof.
  intros Hid (Hb & Hcm & Hrp).
  set (by_comment := λ n, refers_to (Notification.comment n) _id).
  set (by_reply := λ n, refers_to (Notification.reply n) _id).
  set (rest := findOneAndDelete by_comment (Notifications db)).
  assert (Hafter : Notifications (delete_one _id comment db)
                   = findOneAndUpdate by_reply Notification.unset_reply rest)
    by apply Notifications_delete_one.
  assert (Hrest0 : matches by_comment rest = 0%nat).
  { unfold rest. rewrite matches_findOneAndDelete. specialize (Hcm _id).
    fold by_comment in Hcm. lia. }
  assert (Hc0 : matches by_comment (Notifications (delete_one _id comment db)) = 0%nat).
  { rewrite Hafter, matches_findOneAndUpdate_other; done. }
  assert (Hr0 : matches by_reply (Notifications (delete_one _id comment db)) = 0%nat).
  { rewrite Hafter, matches_findOneAndUpdate by done.
    destruct (matches_findOneAndDelete_le by_comment by_reply (Notifications db)) as [Hle _].
    fold rest in Hle. specialize (Hrp _id). fold by_reply in Hrp. lia. }
  assert (Hgone : Forall (λ n, Notification.comment n ≠ Some _id
                               ∧ Notification.reply n ≠ Some _id)
                    (Notifications (delete_one _id comment db))).
  { apply matches_0 in Hc0, Hr0. rewrite Forall_forall in *.
    intros n Hn. split; apply refers_to_false; [by apply Hc0|by apply Hr0]. }
  split; [|exact Hgone]. unfold notifications_sound. split; [|split].
  - intros n i Hn Hi.
    assert (Hni : i ≠ _id).
    { rewrite Forall_forall in Hgone. destruct (Hgone n Hn) as [Hc _]. congruence. }
    assert (Hold : ∃ m, m ∈ Notifications db ∧ Notification.comment m = Some i
                        ∧ (Notification.reply n = Notification.reply m
                           ∨ Notification.reply n = None)).
    { rewrite Hafter in Hn.
      apply elem_of_findOneAndUpdate_inv in Hn as [Hn|(m & Hm & _ & ->)].
      - exists n. split; [by apply elem_of_findOneAndDelete_inv in Hn|auto].
      - exists m. split; [by apply elem_of_findOneAndDelete_inv in Hm|]. simpl. auto. }
    destruct Hold as (m & Hm & Hmi & Hr).
    destruct (Hb m i Hm Hmi) as [[c Hc] Hmr]. split.
    + destruct (delete_one_others _id comment db i c Hni Hc) as (c1 & -> & _). eauto.
    + destruct Hr as [-> | ->]; done.
  - intros i. rewrite Hafter, matches_findOneAndUpdate_other by done.
    destruct (matches_findOneAndDelete_le by_comment
                (λ n, refers_to (Notification.comment n) i) (Notifications db)) as [Hle _].
    fold rest in Hle. specialize (Hcm i). lia.
  - intros i. rewrite Hafter.
    pose proof (matches_findOneAndUpdate_le by_reply
                  (λ n, refers_to (Notification.reply n) i) Notification.unset_reply rest)
      as Hle1.
    destruct (matches_findOneAndDelete_le by_comment
                (λ n, refers_to (Notification.reply n) i) (Notifications db)) as [Hle2 _].
    fold rest in Hle2. specialize (Hrp i). specialize (Hle1 ltac:(done)). lia.
Qed.

(** What a notification can become in the course of a cascade: itself,
    itself without its [reply], or nothing if its comment was removed. *)
Lemma delete_one_kept (_id : positive) (comment : Comment.doc) (db : DB)
    (n : Notification.doc) :
  n ∈ Notifications db →
  n ∈ Notifications (delete_one _id comment db)
  ∨ (Notification.reply n = Some _id
     ∧ Notification.unset_reply n ∈ Notifications (delete_one _id comment db))
  ∨ Notification.comment n = Some _id.
Proof.
  intros Hn. rewrite Notifications_delete_one.
  destruct (refers_to (Notification.comment n) _id) eqn:E.
  - right. right. by apply refers_to_true.
  - apply (elem_of_findOneAndDelete (λ n, refers_to (Notification.comment n) _id)
             _ _ Hn) in E.
    apply (elem_of_findOneAndUpdate (λ n, refers_to (Notification.reply n) _id)
             Notification.unset_reply) in E as [?|[Hr ?]]; [by left|].
    right. left. split; [by apply refers_to_true|done].
Qed.

Lemma unset_reply_twice (n : Notification.doc) :
  Notification.unset_reply (Notification.unset_reply n) = Notification.unset_reply n.
Proof. done. Qed.

Lemma notifications_from_delete_one (_id : positive) (comment : Comment.doc) (db : DB) :
  notifications_from db (delete_one _id comment db).
Proof.
  intros m. rewrite Notifications_delete_one.
  intros [Hm|(n & Hn & _ & ->)]%elem_of_findOneAndUpdate_inv.
  - exists m. split; [by apply elem_of_findOneAndDelete_inv in Hm|by left].
  - exists n. split; [by apply elem_of_findOneAndDelete_inv in Hn|by right].
Qed.

Lemma notifications_from_no_reference (a b : DB) (i : positive) :
  notifications_from a b →
  Forall (λ n, Notification.comment n ≠ Some i ∧ Notification.reply n ≠ Some i)
    (Notifications a) →
  Forall (λ n, Notification.comment n ≠ Some i ∧ Notification.reply n ≠ Some i)
    (Notifications b).
Proof.
  intros Hfrom Ha. rewrite Forall_forall in *. intros m Hm.
  destruct (Hfrom m Hm) as (n & Hn & [->| ->]); [auto|].
  destruct (Ha n Hn) as [Hc _]. done.
Qed.

Lemma deleteComments_notifications_rel (fuel : nat) (_id : positive) (db db' : DB) :
  deleteComments fuel _id db = Some db' →
  (∀ i, Comments db !! i = None → Comments db' !! i = None)
  ∧ notifications_from db db'
  ∧ (notifications_sound db → notifications_sound db' ∧ notifications_cleaned db db').
Proof.
  revert fuel _id db db'.
  apply (deleteComments_rel
           (λ a b, (∀ i, Comments a !! i = None → Comments b !! i = None)
                   ∧ notifications_from a b
                   ∧ (notifications_sound a →
                      notifications_sound b ∧ notifications_cleaned a b))).
  - intros a. split; [auto|]. split; [intros m Hm; eauto|].
    intros Ha. split; [done|]. split.
    + intros i [[c Hc] Hn]. congruence.
    + intros n Hn. by left.
  - intros a b c (Aab & Fab & Hab) (Abc & Fbc & Hbc).
    split; [auto|]. split.
    { intros m Hm. destruct (Fbc m Hm) as (n & Hn & Hmn).
      destruct (Fab n Hn) as (n0 & Hn0 & Hnn). exists n0. split; [done|].
      destruct Hmn as [->| ->], Hnn as [->| ->]; auto. }
    intros Sa. destruct (Hab Sa) as (Sb & Cab1 & Cab3).
    destruct (Hbc Sb) as (Sc & Cbc1 & Cbc3). split; [done|].
    assert (Hab_ac : ∀ i, removed a b i → removed a c i).
    { intros i [Hs Hn]. split; [done|auto]. }
    assert (Hbc_ac : ∀ i, removed b c i → removed a c i).
    { intros i [[x Hs] Hn]. split; [|done].
      destruct (Comments a !! i) eqn:E; [eauto|]. apply Aab in E. congruence. }
    split.
    + intros i [Hs Hn]. destruct (Comments b !! i) as [x|] eqn:Eb.
      * apply Cbc1. split; eauto.
      * apply (notifications_from_no_reference b c i Fbc). apply Cab1. by split.
    + intros n Hn. destruct (Cab3 n Hn) as [Hb|[[Hb (i & Hr & Hrem)]|(j & Hj & Hrem)]].
      * destruct (Cbc3 n Hb) as [?|[[? (i & Hr & Hrem)]|(j & Hj & Hrem)]];
          [by left | right; left; eauto | right; right; eauto].
      * destruct (Cbc3 _ Hb) as [?|[[? _]|(j & Hj & Hrem')]].
        -- right. left. eauto.
        -- right. left. rewrite unset_reply_twice in *. eauto.
        -- right. right. simpl in Hj. eauto.
      * right. right. eauto.
  - intros _id comment db Hid.
    split; [intros i; apply delete_one_absent|].
    split; [apply notifications_from_delete_one|].
    intros Hs. destruct (delete_one_sound _id comment db Hid Hs) as [Hs' Hgone].
    assert (Hrem : removed db (delete_one _id comment db) _id)
      by (split; [eauto|apply delete_one_gone]).
    split; [done|]. split.
    + intros i [[c Hc] Hn].
      destruct (decide (i = _id)) as [->|Hne]; [done|].
      destruct (delete_one_others _id comment db i c Hne Hc) as (c1 & H1 & _).
      congruence.
    + intros n Hn. destruct (delete_one_kept _id comment db n Hn) as [?|[[Hr ?]|Hc]];
        [by left | right; left; eauto | right; right; eauto].
Qed.

Lemma notifications_sound_db2 : notifications_sound Scenario.db2.
Proof.
  apply (notifications_sound_add_comment 11 101 3%positive (Scenario.answer "second" 10)
           Scenario.db1); [reflexivity|].
  apply (notifications_sound_add_comment 10 100 2%positive (Scenario.top "first")
           Scenario.db0); [reflexivity|].
  by apply notifications_sound_nil.
Defined.



(** [/delete-comment] keeps the notifications as the handlers keep
    them, whatever it answers. *)
Lemma notifications_sound_delete_comment (user_id _id : positive) (db db' : DB)
    (sent : Response) :
  notifications_sound db →
  delete_comment user_id _id db = Some (db', sent) →
  notifications_sound db'.
Proof.
  intros Hs. unfold delete_comment.
  destruct (Comments db !! _id) as [comment|]; [|by intros [= <- _]].
  destruct (_ || _); [|by intros [= <- _]].
  destruct (deleteComments _ _id db) as [db1|] eqn:E; [|done].
  intros [= <- _].
  destruct (deleteComments_notifications_rel _ _ _ _ E) as (_ & _ & Hrel).
  by destruct (Hrel Hs).
Qed.

(** A run with a [reply] reference in the store: [Leftover.db] is as the
    handlers keep it, and after [deleteComments] on the reply [11] the
    notification that referred to it is stored without its [reply], next
    to the untouched notification of comment [10]. *)
Example deleteComments_unsets_reply :
  notifications_sound Leftover.db
  ∧ ∃ db', deleteComments 3 11%positive Leftover.db = Some db'
           ∧ Notification.unset_reply Leftover.answered ∈ Notifications db'
           ∧ (Leftover.answered ∉ Notifications db')
           ∧ length (Notifications db') = 2%nat.
Proof.
  split.
  - destruct notifications_sound_db2 as (Hb & Hcm & Hrp).
    unfold notifications_sound, Leftover.db. simpl Notifications. simpl Comments.
    split; [|split].
    + intros n i [Hn| ->%list_elem_of_singleton]%elem_of_app Hi; [|done].
      by apply Hb.
    + intros i. rewrite matches_snoc. simpl. specialize (Hcm i). lia.
    + intros i. rewrite matches_snoc.
      rewrite (matches_none _ (Notifications Scenario.db2)).
      * simpl. destruct (Pos.eqb 11 i); lia.
      * intros n Hn. apply refers_to_false. intros Hr.
        vm_compute in Hn.
        apply elem_of_cons in Hn as [->|Hn]; [done|].
        apply list_elem_of_singleton in Hn as ->. done.
  - eexists. split; [vm_compute; reflexivity|]. split; [|split; [|reflexivity]].
    + right. left.
    + intros Hn. apply elem_of_cons in Hn as [?|Hn]; [done|].
      apply list_elem_of_singleton in Hn. done.
Qed.
